(** * FastAPI-CRUD: field introspection and the generic repository

    A shallow embedding of
    - [src/core/schemas/fields.py]            (module [Schemas]),
    - [src/core/services/field_service.py]    (module [FieldService]),
    - [src/core/FieldParser.py]               (module [FieldParser]),
    - [src/core/bases/base_repository.py]     (module [Repo]),
    - the schema route of [src/core/bases/base_router.py] (module [Router]),
    - [convert_path_to_model] of [src/core/utils/utils.py] (module [Utils]),
    - the field list of the [model] command of [cli.py]   (module [Cli]),
    followed by the properties proved about them. *)

From Stdlib Require Import ZArith Ascii String List Lia.
From stdpp Require Import base option gmap strings list fin_maps.

Set Warnings "-register-all".

Local Open Scope Z_scope.

(** ** Python values and [str] methods (ASCII fragment) *)

Module Py.

(** Scalar values that travel through filters, field maps and rows.
    [VNone] doubles as SQL NULL.  [VOpaque] stands for any other object
    the code only passes along (a datetime, a float, ...); such objects
    are truthy. *)
Inductive pyval : Type :=
| VNone
| VBool (b : bool)
| VInt (z : Z)
| VStr (s : string)
| VOpaque (repr : string).

#[global] Instance pyval_eq_dec : EqDecision pyval.
Proof. solve_decision. Defined.

(** [bool(v)] *)
Definition truthy (v : pyval) : bool :=
  match v with
  | VNone => false
  | VBool b => b
  | VInt z => negb (z =? 0)
  | VStr s => negb (bool_decide (s = ""))
  | VOpaque _ => true
  end.

Definition s2l : string -> list ascii := String.list_ascii_of_string.
Definition l2s : list ascii -> string := String.string_of_list_ascii.

Definition code (c : ascii) : nat := nat_of_ascii c.

(** [c.isupper()], [c.islower()], [c.isalpha()], [c.isdigit()] *)
Definition isupper_c (c : ascii) : bool :=
  (65 <=? code c)%nat && (code c <=? 90)%nat.
Definition islower_c (c : ascii) : bool :=
  (97 <=? code c)%nat && (code c <=? 122)%nat.
Definition isalpha_c (c : ascii) : bool := isupper_c c || islower_c c.
Definition isdigit_c (c : ascii) : bool :=
  (48 <=? code c)%nat && (code c <=? 57)%nat.

Definition lower_c (c : ascii) : ascii :=
  if isupper_c c then ascii_of_nat (code c + 32) else c.
Definition upper_c (c : ascii) : ascii :=
  if islower_c c then ascii_of_nat (code c - 32) else c.

(** [s.lower()] *)
Definition lower (s : string) : string := l2s (map lower_c (s2l s)).

(** [s.capitalize()]: first character upper-cased, the rest lower-cased *)
Definition capitalize (s : string) : string :=
  match s2l s with
  | [] => ""
  | c :: r => l2s (upper_c c :: map lower_c r)
  end.

(** [s.title()]: a letter that follows a non-letter is upper-cased, a
    letter that follows a letter is lower-cased. *)
Fixpoint title_go (prev_cased : bool) (l : list ascii) : list ascii :=
  match l with
  | [] => []
  | c :: r =>
      (if isalpha_c c
       then (if prev_cased then lower_c c else upper_c c)
       else c) :: title_go (isalpha_c c) r
  end.
Definition title (s : string) : string := l2s (title_go false (s2l s)).

(** [s.replace(a, b)] for single characters *)
Definition replace_c (a b : ascii) (s : string) : string :=
  l2s (map (fun c => if bool_decide (c = a) then b else c) (s2l s)).

(** [s.endswith(suf)], [s.startswith(pre)] *)
Definition endswith (s suf : string) : bool :=
  bool_decide (s2l suf `suffix_of` s2l s).
Definition startswith (s pre : string) : bool :=
  bool_decide (s2l pre `prefix_of` s2l s).

(** [s[:-n]] for [n > 0] *)
Definition drop_last (n : nat) (s : string) : string :=
  l2s (take (length (s2l s) - n) (s2l s)).

(** [sub in s] *)
Fixpoint contains_l (sub l : list ascii) : bool :=
  bool_decide (sub `prefix_of` l)
  || match l with
     | [] => false
     | _ :: r => contains_l sub r
     end.
Definition contains (sub s : string) : bool := contains_l (s2l sub) (s2l s).

(** [s[0].isupper()]; [None] is the [IndexError] of an empty string. *)
Definition first_isupper (s : string) : option bool :=
  match s2l s with
  | [] => None
  | c :: _ => Some (isupper_c c)
  end.

(** Whitespace of [str.strip()] in the ASCII range. *)
Definition isspace_c (c : ascii) : bool :=
  ((9 <=? code c)%nat && (code c <=? 13)%nat)
  || ((28 <=? code c)%nat && (code c <=? 32)%nat).

Fixpoint lstrip_l (l : list ascii) : list ascii :=
  match l with
  | c :: r => if isspace_c c then lstrip_l r else l
  | [] => []
  end.
Definition strip (s : string) : string :=
  l2s (rev (lstrip_l (rev (lstrip_l (s2l s))))).

(** [s.split(c, 1)] on the list of characters when [c] occurs in it: what
    precedes the first [c] and what follows it. *)
Fixpoint split_first_l (c : ascii) (l : list ascii)
  : option (list ascii * list ascii) :=
  match l with
  | [] => None
  | x :: r =>
      if bool_decide (x = c) then Some ([], r)
      else match split_first_l c r with
           | Some (a, b) => Some (x :: a, b)
           | None => None
           end
  end.

(** [None] when [c not in s], else the two parts of [s.split(c, 1)]. *)
Definition split_first (c : ascii) (s : string) : option (string * string) :=
  match split_first_l c (s2l s) with
  | Some (a, b) => Some (l2s a, l2s b)
  | None => None
  end.

(** [s.split(c)]: the segments between the occurrences of [c]. *)
Fixpoint split_l (c : ascii) (l : list ascii) : list (list ascii) :=
  match l with
  | [] => [[]]
  | x :: r =>
      if bool_decide (x = c) then [] :: split_l c r
      else match split_l c r with
           | seg :: segs => (x :: seg) :: segs
           | [] => [[x]]
           end
  end.
Definition split (c : ascii) (s : string) : list string :=
  map l2s (split_l c (s2l s)).

End Py.

(** ** [src/core/schemas/fields.py] *)

Module Schemas.

Inductive FieldType : Type :=
| STRING | INTEGER | FLOAT | BOOLEAN | DATETIME | TEXT | JSON | EMAIL | URL | UUID.

#[global] Instance FieldType_eq_dec : EqDecision FieldType.
Proof. solve_decision. Defined.

(** [FieldType.X.value] *)
Definition FieldType_value (t : FieldType) : string :=
  match t with
  | STRING => "string" | INTEGER => "integer" | FLOAT => "float"
  | BOOLEAN => "boolean" | DATETIME => "datetime" | TEXT => "text"
  | JSON => "json" | EMAIL => "email" | URL => "url" | UUID => "uuid"
  end.

Inductive RelationshipType : Type :=
| FOREIGN_KEY | ONE_TO_MANY | MANY_TO_ONE | MANY_TO_MANY.

#[global] Instance RelationshipType_eq_dec : EqDecision RelationshipType.
Proof. solve_decision. Defined.

Record FieldValidation : Type := mkFieldValidation {
  required : bool;
  min_length : option Z;
  max_length : option Z;
  min_value : option Z;
  max_value : option Z;
  pattern : option string;
  allowed_values : option (list string)
}.

(** [FieldValidation()] *)
Definition FieldValidation_default : FieldValidation :=
  mkFieldValidation false None None None None None None.

Record RelationshipInfo : Type := mkRelationshipInfo {
  rel_type : RelationshipType;
  related_model : string;
  related_field : option string;
  rel_description : string
}.

End Schemas.

(** ** Python type annotations as the introspector sees them *)

Module Typing.
Import Py.

(** The classes [TYPE_MAPPINGS] and the relationship rules name, plus
    [NoneType], which [Optional[X]] carries as its second argument. *)
Inductive builtin : Type :=
| Bstr | Bint | Bfloat | Bbool | Bdict | Blist | BNoneType.

#[global] Instance builtin_eq_dec : EqDecision builtin.
Proof. solve_decision. Defined.

(** The special forms of the [typing] module the code mentions. *)
Inductive special : Type := SpOptional | SpUnion.

(** An annotation object, as returned by [get_type_hints]:
    - [TBuiltin b]: one of the built-in classes;
    - [TClass n]: any other class, [__name__ = n] (datetime, UUID, Post, ...);
    - [TSpecial s]: a bare special form ([typing.Optional], [typing.Union]);
    - [TAlias o args nm]: a subscripted generic with [__origin__ = o],
      [__args__ = args], and [__name__ = nm] when it has one. *)
Inductive pytype : Type :=
| TBuiltin (b : builtin)
| TClass (name : string)
| TSpecial (s : special)
| TAlias (origin : pytype) (args : list pytype) (name : option string).

Definition builtin_name (b : builtin) : string :=
  match b with
  | Bstr => "str" | Bint => "int" | Bfloat => "float" | Bbool => "bool"
  | Bdict => "dict" | Blist => "list" | BNoneType => "NoneType"
  end.

Definition special_name (s : special) : string :=
  match s with SpOptional => "Optional" | SpUnion => "Union" end.

(** [getattr(t, '__origin__', None)] *)
Definition attr_origin (t : pytype) : option pytype :=
  match t with TAlias o _ _ => Some o | _ => None end.

(** [getattr(t, '__args__', [])] *)
Definition attr_args (t : pytype) : list pytype :=
  match t with TAlias _ a _ => a | _ => [] end.

(** [t.__name__] when [hasattr(t, '__name__')] *)
Definition attr_name (t : pytype) : option string :=
  match t with
  | TBuiltin b => Some (builtin_name b)
  | TClass n => Some n
  | TSpecial s => Some (special_name s)
  | TAlias _ _ nm => nm
  end.

(** [o is Optional], [o is list] *)
Definition is_Optional (o : pytype) : bool :=
  match o with TSpecial SpOptional => true | _ => false end.
Definition is_list_class (o : pytype) : bool :=
  match o with TBuiltin Blist => true | _ => false end.

(** What the interpreter builds for the usual annotations.
    [typing.Optional[X]] evaluates to [typing.Union[X, None]]: its
    [__origin__] is [typing.Union] and (CPython 3.10 and later) its
    [__name__] is "Optional".  [typing.List[X]] has [__origin__ = list]
    and [__name__ = "List"]; the built-in [list[X]] forwards [__name__]
    to [list]. *)
Definition int_ : pytype := TBuiltin Bint.
Definition str_ : pytype := TBuiltin Bstr.
Definition bool_ : pytype := TBuiltin Bbool.
Definition Optional_ (x : pytype) : pytype :=
  TAlias (TSpecial SpUnion) [x; TBuiltin BNoneType] (Some "Optional").
Definition List_ (x : pytype) : pytype :=
  TAlias (TBuiltin Blist) [x] (Some "List").
Definition list_ (x : pytype) : pytype :=
  TAlias (TBuiltin Blist) [x] (Some "list").

(** Annotations the interpreter can build: no alias has the special form
    [typing.Optional] itself as its origin. *)
Fixpoint constructible (t : pytype) : bool :=
  match t with
  | TAlias o args _ =>
      negb (is_Optional o) && constructible o
      && forallb constructible args
  | _ => true
  end.

End Typing.

(** ** [src/core/services/field_service.py] *)

Module FieldService.
Import Py Schemas Typing.

(** A default value: a plain value, or an object exposing [.arg]
    (always truthy). *)
Inductive pyobj : Type :=
| Plain (v : pyval)
| ArgHolder (arg : pyval).

#[global] Instance pyobj_eq_dec : EqDecision pyobj.
Proof. solve_decision. Defined.

(** [x is None] *)
Definition is_None (x : pyobj) : bool := bool_decide (x = Plain VNone).

(** The constraint carrier [field_info.field_info]; an outer [None] means
    the attribute is absent ([hasattr] is false). *)
Record FieldExtra : Type := mkFieldExtra {
  fe_default : option pyobj;
  fe_max_length : option (option Z);
  fe_ge : option (option Z);
  fe_le : option (option Z)
}.

(** The per-field metadata object of [model_class.__fields__]. *)
Record FieldInfo : Type := mkFieldInfo {
  fi_default : option pyobj;
  fi_field_info : option FieldExtra
}.

(** [python_type]: the [__name__], or [str(field_type)] kept symbolic. *)
Inductive type_text : Type :=
| NameOf (n : string)
| StrOf (t : pytype).

Record ModelField : Type := mkModelField {
  name : string;
  type : FieldType;
  python_type : type_text;
  is_required : bool;
  is_relationship : bool;
  is_list : bool;
  default_value : pyobj;
  validation : option FieldValidation;
  relationship : option RelationshipInfo;
  description : option string
}.

Record ModelDefinition : Type := mkModelDefinition {
  model_name : string;
  table_name : string;
  fields : list ModelField;
  relationships : list RelationshipInfo
}.

(** [TYPE_MAPPINGS] *)
Definition TYPE_MAPPINGS (o : pytype) : option FieldType :=
  match o with
  | TBuiltin Bstr => Some STRING
  | TBuiltin Bint => Some INTEGER
  | TBuiltin Bfloat => Some FLOAT
  | TBuiltin Bbool => Some BOOLEAN
  | TBuiltin Bdict => Some JSON
  | TBuiltin Blist => Some JSON
  | _ => None
  end.

(** [hasattr(o, '__name__') and o.__name__ == n] *)
Definition name_is (o : pytype) (n : string) : bool :=
  match attr_name o with
  | Some m => bool_decide (m = n)
  | None => false
  end.

(** The tail of [_get_base_type]: basic types, then name substrings,
    then the [STRING] default. *)
Definition base_type_by_name (field_type origin : pytype) : FieldType :=
  match TYPE_MAPPINGS origin with
  | Some ft => ft
  | None =>
      match attr_name field_type with
      | Some n =>
          let type_name := lower n in
          if contains "uuid" type_name then UUID
          else if contains "datetime" type_name then DATETIME
          else if contains "email" type_name then EMAIL
          else if contains "url" type_name then URL
          else STRING
      | None => STRING
      end
  end.

Fixpoint _get_base_type (field_type : pytype) : FieldType :=
  let origin := default field_type (attr_origin field_type) in
  let rest :=
    if is_list_class origin || name_is origin "List" then
      match field_type with
      | TAlias _ (a :: _) _ => _get_base_type a
      | _ => JSON
      end
    else base_type_by_name field_type origin in
  if is_Optional origin || name_is origin "Optional" then
    match field_type with
    | TAlias _ (a :: _) _ => _get_base_type a
    | _ => rest
    end
  else rest.

Definition _get_python_type_name (field_type : pytype) : type_text :=
  match attr_name field_type with
  | Some n => NameOf n
  | None => StrOf field_type
  end.

Definition _is_optional_type (field_type : pytype) : bool :=
  match attr_origin field_type with
  | Some o => is_Optional o
  | None => false
  end.

Definition _is_list_type (field_type : pytype) : bool :=
  match attr_origin field_type with
  | Some o => is_list_class o
  | None => false
  end.

Definition scalar_names : list string :=
  ["str"; "int"; "float"; "bool"; "dict"; "list"].

(** [hasattr(t, '__name__') and t.__name__[0].isupper()]; the outer [None]
    is the [IndexError] of an empty [__name__]. *)
Definition upper_named (t : pytype) : option (option string) :=
  match attr_name t with
  | None => Some None
  | Some n =>
      match first_isupper n with
      | None => None
      | Some true => Some (Some n)
      | Some false => Some None
      end
  end.

(** [_detect_relationship]; the outer [None] is an escaping [IndexError]. *)
Definition _detect_relationship (field_name : string) (field_type : pytype)
  : option (option RelationshipInfo) :=
  if endswith field_name "_id" then
    let related := capitalize (drop_last 3 field_name) in
    Some (Some (mkRelationshipInfo FOREIGN_KEY related (Some "id")
                  ("Foreign key to " +:+ related)))
  else
    let list_of_models :=
      match attr_origin field_type, attr_args field_type with
      | Some o, arg_type :: _ =>
          if is_list_class o then
            match upper_named arg_type with
            | None => None
            | Some (Some n) =>
                Some (Some (mkRelationshipInfo ONE_TO_MANY n None
                  ("One-to-many relationship with " +:+ n)))
            | Some None => Some None
            end
          else Some None
      | _, _ => Some None
      end in
    match upper_named field_type with
    | None => None
    | Some (Some n) =>
        if bool_decide (n ∈ scalar_names) then list_of_models
        else Some (Some (mkRelationshipInfo MANY_TO_ONE n None
                           ("Relationship to " +:+ n)))
    | Some None => list_of_models
    end.

(** Attribute assignments on a [FieldValidation] instance. *)
Definition set_required (b : bool) (v : FieldValidation) : FieldValidation :=
  mkFieldValidation b (min_length v) (max_length v) (min_value v)
    (max_value v) (pattern v) (allowed_values v).
Definition set_max_length (x : option Z) (v : FieldValidation) : FieldValidation :=
  mkFieldValidation (required v) (min_length v) x (min_value v)
    (max_value v) (pattern v) (allowed_values v).
Definition set_min_value (x : option Z) (v : FieldValidation) : FieldValidation :=
  mkFieldValidation (required v) (min_length v) (max_length v) x
    (max_value v) (pattern v) (allowed_values v).
Definition set_max_value (x : option Z) (v : FieldValidation) : FieldValidation :=
  mkFieldValidation (required v) (min_length v) (max_length v) (min_value v)
    x (pattern v) (allowed_values v).

(** [if hasattr(obj, a): validation.a = obj.a] *)
Definition assign_if_present {A} (attr : option A)
    (set : A -> FieldValidation -> FieldValidation) (v : FieldValidation)
  : FieldValidation :=
  match attr with
  | Some x => set x v
  | None => v
  end.

Definition _create_validation_rules (field_info : FieldInfo) (field_type : pytype)
  : FieldValidation :=
  let validation := FieldValidation_default in
  match fi_field_info field_info with
  | Some field_extra =>
      let validation :=
        set_required (is_None (default (Plain VNone) (fe_default field_extra)))
          validation in
      let validation :=
        assign_if_present (fe_max_length field_extra) set_max_length validation in
      let validation :=
        assign_if_present (fe_ge field_extra) set_min_value validation in
      assign_if_present (fe_le field_extra) set_max_value validation
  | None => validation
  end.

Definition descriptions : list (string * string) :=
  [("id", "Unique identifier"); ("created_at", "Creation timestamp");
   ("updated_at", "Last update timestamp"); ("is_deleted", "Soft delete flag");
   ("name", "Item name"); ("title", "Item title");
   ("description", "Item description"); ("email", "Email address");
   ("password", "User password")].

Definition _get_field_description (field_name : string) (field_type : pytype)
  : string :=
  match list_find (fun kv => fst kv = field_name) descriptions with
  | Some (_, kv) => snd kv
  | None => title (replace_c "_" " " field_name)
  end.

(** [bool(x)] for a default value *)
Definition obj_truthy (x : pyobj) : bool :=
  match x with
  | Plain v => truthy v
  | ArgHolder _ => true
  end.

(** [_parse_field]; [None] is the [IndexError] escaping from
    [_detect_relationship]. *)
Definition _parse_field (field_name : string) (field_type : pytype)
    (field_info : FieldInfo) : option ModelField :=
  let base_type := _get_base_type field_type in
  let python_type := _get_python_type_name field_type in
  relationship_info ← _detect_relationship field_name field_type;
  let is_optional := _is_optional_type field_type in
  let is_list := _is_list_type field_type in
  let default_value := default (Plain VNone) (fi_default field_info) in
  let default_value :=
    match default_value with
    | ArgHolder a => if obj_truthy default_value then Plain a else default_value
    | _ => default_value
    end in
  let validation := _create_validation_rules field_info field_type in
  Some (mkModelField field_name base_type python_type
          (negb is_optional && is_None default_value)
          (bool_decide (is_Some relationship_info))
          is_list default_value (Some validation) relationship_info
          (Some (_get_field_description field_name field_type))).

(** What [get_model_definition] reads off an entity class. *)
Record ModelClass : Type := mkModelClass {
  cls_name : string;                           (* [__name__] *)
  cls_tablename : option string;               (* [__tablename__], if declared *)
  cls_fields : list (string * FieldInfo);      (* [__fields__.items()] *)
  cls_type_hints : gmap string pytype          (* [get_type_hints(cls)] *)
}.

Definition is_internal (field_name : string) : bool :=
  startswith field_name "_" || bool_decide (field_name ∈ ["metadata"; "registry"]).

(** The loop of [get_model_definition], threading [fields] and
    [relationships]. *)
Fixpoint collect_fields (hints : gmap string pytype)
    (items : list (string * FieldInfo))
    (fields : list ModelField) (relationships : list RelationshipInfo)
  : option (list ModelField * list RelationshipInfo) :=
  match items with
  | [] => Some (fields, relationships)
  | (field_name, field_info) :: rest =>
      if is_internal field_name then collect_fields hints rest fields relationships
      else
        let field_type := default str_ (hints !! field_name) in
        field_def ← _parse_field field_name field_type field_info;
        let fields := fields ++ [field_def] in
        let relationships :=
          match is_relationship field_def, relationship field_def with
          | true, Some r => relationships ++ [r]
          | _, _ => relationships
          end in
        collect_fields hints rest fields relationships
  end.

Definition get_model_definition (model_class : ModelClass) : option ModelDefinition :=
  '(fields, relationships) ←
    collect_fields (cls_type_hints model_class) (cls_fields model_class) [] [];
  Some (mkModelDefinition (cls_name model_class)
          (default (lower (cls_name model_class) +:+ "s") (cls_tablename model_class))
          fields relationships).

Definition form_skipped : list string :=
  ["id"; "created_at"; "updated_at"; "is_deleted"].

(** [if x: d[k] = x] for an optional integer: [None] and [0] are falsy. *)
Definition put_if_truthy (k : string) (x : option Z) (d : gmap string pyval)
  : gmap string pyval :=
  match x with
  | Some n => if n =? 0 then d else <[k := VInt n]> d
  | None => d
  end.

(** [if x is not None: d[k] = x] *)
Definition put_if_not_None (k : string) (x : option Z) (d : gmap string pyval)
  : gmap string pyval :=
  match x with
  | Some n => <[k := VInt n]> d
  | None => d
  end.

(** [if x: d[k] = x] for an optional string *)
Definition put_if_nonempty (k : string) (x : option string) (d : gmap string pyval)
  : gmap string pyval :=
  match x with
  | Some s => if bool_decide (s = "") then d else <[k := VStr s]> d
  | None => d
  end.

Definition options_url (r : RelationshipInfo) : string :=
  "/api/v1/" +:+ lower (related_model r) +:+ "s".

(** One iteration of the loop of [_generate_form_layout], for a field that
    is not skipped. *)
Definition field_config_of (field : ModelField) : gmap string pyval :=
  let field_config : gmap string pyval :=
    <["placeholder" := VStr ("Enter " +:+ replace_c "_" " " (name field))]>
    (<["required" := VBool (is_required field)]>
    (<["label" := VStr (title (replace_c "_" " " (name field)))]>
    (<["type" := VStr (FieldType_value (type field))]>
    (<["name" := VStr (name field)]> ∅)))) in
  let field_config :=
    match validation field with
    | Some v =>
        put_if_not_None "max" (max_value v)
        (put_if_not_None "min" (min_value v)
        (put_if_truthy "maxLength" (max_length v)
        (put_if_truthy "minLength" (min_length v) field_config)))
    | None => field_config
    end in
  match is_relationship field, relationship field with
  | true, Some r =>
      match rel_type r with
      | FOREIGN_KEY =>
          <["options" := VStr (options_url r)]>
            (<["type" := VStr "select"]> field_config)
      | ONE_TO_MANY =>
          <["options" := VStr (options_url r)]>
            (<["type" := VStr "multiselect"]> field_config)
      | _ => field_config
      end
  | _, _ => field_config
  end.

Fixpoint _generate_form_layout (fields : list ModelField)
  : list (gmap string pyval) :=
  match fields with
  | [] => []
  | field :: rest =>
      if bool_decide (name field ∈ form_skipped)
      then _generate_form_layout rest
      else field_config_of field :: _generate_form_layout rest
  end.

(** The [field_rules] dict built for one field. *)
Definition field_rules_of (field : ModelField) : gmap string pyval :=
  let field_rules : gmap string pyval :=
    if is_required field then <["required" := VBool true]> ∅ else ∅ in
  match validation field with
  | Some v =>
      put_if_nonempty "pattern" (pattern v)
      (put_if_not_None "max" (max_value v)
      (put_if_not_None "min" (min_value v)
      (put_if_truthy "maxLength" (max_length v)
      (put_if_truthy "minLength" (min_length v) field_rules))))
  | None => field_rules
  end.

(** The loop of [_generate_validation_rules], threading [rules]. *)
Fixpoint validation_rules_from (fields : list ModelField)
    (rules : gmap string (gmap string pyval)) : gmap string (gmap string pyval) :=
  match fields with
  | [] => rules
  | field :: rest =>
      if bool_decide (name field ∈ form_skipped)
      then validation_rules_from rest rules
      else
        let field_rules := field_rules_of field in
        if bool_decide (field_rules = ∅)
        then validation_rules_from rest rules
        else validation_rules_from rest (<[name field := field_rules]> rules)
  end.

Definition _generate_validation_rules (fields : list ModelField)
  : gmap string (gmap string pyval) :=
  validation_rules_from fields ∅.

Record DynamicFormConfig : Type := mkDynamicFormConfig {
  form_model_name : string;
  form_fields : list ModelField;
  layout : list (gmap string pyval);
  validation_rules : gmap string (gmap string pyval)
}.

Definition get_dynamic_form_config (model_class : ModelClass)
  : option DynamicFormConfig :=
  model_def ← get_model_definition model_class;
  let layout := _generate_form_layout (fields model_def) in
  let validation_rules := _generate_validation_rules (fields model_def) in
  Some (mkDynamicFormConfig (model_name model_def) (fields model_def)
          layout validation_rules).

End FieldService.

(** ** [src/core/FieldParser.py]: relationship detection on type strings *)

Module FieldParser.
Import Py.

(** The dict returned by [_detect_relationship]. *)
Record relationship : Type := mkRelationship {
  r_type : string;
  r_related_model : string;
  r_relationship_type : string;
  r_description : string
}.

Definition ident_start (c : ascii) : bool :=
  isalpha_c c || bool_decide (c = "_"%char).
Definition ident_char (c : ascii) : bool :=
  isalpha_c c || isdigit_c c || bool_decide (c = "_"%char).

(** The longest prefix of characters satisfying [p], and what follows. *)
Fixpoint span (p : ascii -> bool) (l : list ascii) : list ascii * list ascii :=
  match l with
  | c :: r => if p c then let '(a, b) := span p r in (c :: a, b) else ([], l)
  | [] => ([], [])
  end.

(** [re.match] of the pattern made of [kw], a captured identifier (a
    letter or underscore, then letters, digits and underscores) and a
    closing bracket, under [re.IGNORECASE]; returns [group(1)].  [kw] is
    given in lower case.  The identifier
    class excludes the closing bracket, so the greedy star never has to
    give characters back. *)
Definition match_wrapped (kw : string) (s : string) : option string :=
  let l := s2l s in
  let n := length (s2l kw) in
  if bool_decide (map lower_c (take n l) = s2l kw) then
    match drop n l with
    | c :: r =>
        if ident_start c then
          let '(body, rest) := span ident_char r in
          match rest with
          | d :: _ => if bool_decide (d = "]"%char) then Some (l2s (c :: body)) else None
          | [] => None
          end
        else None
    | [] => None
    end
  else None.

(** [_detect_relationship]; the outer [None] is the [IndexError] raised by
    [field_type[0]] on an empty type string. *)
Definition _detect_relationship (field_name field_type : string)
  : option (option relationship) :=
  if endswith field_name "_id" && bool_decide (field_type ∈ ["int"; "integer"]) then
    let related_model := capitalize (drop_last 3 field_name) in
    Some (Some (mkRelationship "ForeignKey" related_model "ManyToOne"
                  ("Foreign key to " +:+ related_model)))
  else
    match first_isupper field_type with
    | None => None
    | Some up =>
        if up && negb (startswith field_type "List[" || startswith field_type "Optional[")
        then Some (Some (mkRelationship "ModelReference" field_type "ManyToOne"
                           ("Relationship to " +:+ field_type)))
        else
          match match_wrapped "list[" field_type with
          | Some related_model =>
              Some (Some (mkRelationship "OneToMany" related_model "OneToMany"
                            ("One-to-many relationship with " +:+ related_model)))
          | None =>
              match match_wrapped "optional[" field_type with
              | Some related_model =>
                  Some (Some (mkRelationship "ManyToOne" related_model "ManyToOne"
                                ("Many-to-one relationship with " +:+ related_model)))
              | None => Some None
              end
          end
    end.

(** The ['relationship'] entry computed by [_create_field_info], which
    cleans the type string first. *)
Definition field_info_relationship (field_name field_type : string)
  : option (option relationship) :=
  let field_type := lower (strip field_type) in
  _detect_relationship field_name field_type.

(** [FieldType] of this module and its [.value]. *)
Inductive FieldType : Type :=
| STRING | INTEGER | FLOAT | BOOLEAN | DATETIME | TEXT | JSON
| LIST | OPTIONAL | RELATIONSHIP.

Definition FieldType_value (t : FieldType) : string :=
  match t with
  | STRING => "str" | INTEGER => "int" | FLOAT => "float" | BOOLEAN => "bool"
  | DATETIME => "datetime" | TEXT => "text" | JSON => "json" | LIST => "list"
  | OPTIONAL => "optional" | RELATIONSHIP => "relationship"
  end.

Definition TYPE_MAPPINGS : list (string * FieldType) :=
  [("str", STRING); ("string", STRING); ("int", INTEGER); ("integer", INTEGER);
   ("float", FLOAT); ("bool", BOOLEAN); ("boolean", BOOLEAN);
   ("datetime", DATETIME); ("text", TEXT); ("json", JSON); ("dict", JSON)].

(** [re.sub] of the wrapper pattern by the empty string: scanning from the
    left, each occurrence of "List[", of "Optional[" or of a closing
    bracket is dropped.  [skip] counts the characters of a match still to
    be dropped. *)
Fixpoint strip_wrappers_go (skip : nat) (l : list ascii) : list ascii :=
  match l with
  | [] => []
  | c :: r =>
      match skip with
      | S k => strip_wrappers_go k r
      | O =>
          if bool_decide (s2l "List[" `prefix_of` l) then strip_wrappers_go 4 r
          else if bool_decide (s2l "Optional[" `prefix_of` l) then strip_wrappers_go 8 r
          else if bool_decide (c = "]"%char) then strip_wrappers_go 0 r
          else c :: strip_wrappers_go 0 r
      end
  end.

Definition _get_base_type (field_type : string) : option FieldType :=
  let clean_type := l2s (strip_wrappers_go 0 (s2l field_type)) in
  let clean_type := lower clean_type in
  (list_to_map TYPE_MAPPINGS : gmap string FieldType) !! clean_type.

Definition _is_optional_type (field_type : string) : bool :=
  startswith (lower field_type) "optional[".

Definition _is_list_type (field_type : string) : bool :=
  startswith (lower field_type) "list[".

(** [_create_field_info] and [parse_field].  Four entries of the dict come
    from [_get_python_type], [_get_sql_type], [_generate_field_definition]
    and [_generate_schema_definition]; what these methods return is taken
    as given, [None] standing for an exception they raise. *)
Section CreateFieldInfo.
Context {rendered : Type}.
Variable _get_python_type : string → option rendered.
Variable _get_sql_type : string → option rendered.
Variable _generate_field_definition : string → string → option string → option rendered.
Variable _generate_schema_definition : string → string → option string → option rendered.

(** The dict returned by [_create_field_info]. *)
Record field_info : Type := mkFieldInfo {
  fi_name : string;
  fi_original_type : string;
  fi_base_type : string;
  fi_python_type : rendered;
  fi_sql_type : rendered;
  fi_is_optional : bool;
  fi_is_list : bool;
  fi_is_relationship : bool;
  fi_relationship : option relationship;
  fi_default_value : option string;
  fi_field_definition : rendered;
  fi_schema_definition : rendered
}.

(** [_create_field_info]; [None] is the [IndexError] of
    [_detect_relationship] or an exception of one of the four methods. *)
Definition _create_field_info (field_name field_type : string)
    (default_value : option string) : option field_info :=
  let field_type := lower (strip field_type) in
  relationship_info ← _detect_relationship field_name field_type;
  let base_type := _get_base_type field_type in
  let is_optional := _is_optional_type field_type in
  let is_list := _is_list_type field_type in
  python_type ← _get_python_type field_type;
  sql_type ← _get_sql_type field_type;
  field_definition ← _generate_field_definition field_name field_type default_value;
  schema_definition ← _generate_schema_definition field_name field_type default_value;
  Some (mkFieldInfo field_name field_type
          (match base_type with
           | Some b => FieldType_value b
           | None => field_type
           end)
          python_type sql_type is_optional is_list
          (bool_decide (is_Some relationship_info)) relationship_info
          default_value field_definition schema_definition).

Definition parse_field (field_definition : string) : option field_info :=
  let field_definition := strip field_definition in
  match split_first ":" field_definition with
  | None => _create_field_info field_definition "str" None
  | Some (name_part, type_part) =>
      let field_name := strip name_part in
      match split_first "=" type_part with
      | Some (type_def, default_val) =>
          _create_field_info field_name (strip type_def) (Some (strip default_val))
      | None => _create_field_info field_name (strip type_part) None
      end
  end.

End CreateFieldInfo.

End FieldParser.

(** ** [src/core/bases/base_repository.py] *)

Module Repo.
Import Py.

(** A stored record: column name to value. *)
Abbreviation row := (gmap string pyval).

(** An error reported by the storage engine: [isinstance(e, IntegrityError)]
    and [str(e)]. *)
Record SQLAlchemyError : Type := mkSQLAlchemyError {
  is_integrity : bool;
  error_text : string
}.

(** [SetattrError] is the exception of an assignment that [setattr]
    refuses: pydantic's [ValueError] "object has no field" for a method
    or a class attribute such as [model_config]; it is no
    [SQLAlchemyError].  Its text is left out. *)
Inductive exception : Type :=
| DbExc (e : SQLAlchemyError)
| RepositoryError (msg : string) (cause : option SQLAlchemyError)
| AttributeError (msg : string)
| SetattrError.

(** An attribute of the entity class that is no column: a method it
    inherits ([copy], [dict], ...), [metadata], [model_config] and the
    like.
    - [ca_equals v]: the truth value of [getattr(cls, name) == v], a
      comparison of Python objects;
    - [ca_settable v]: [setattr(obj, name, v)] is accepted, and then
      touches no column; otherwise it raises. *)
Record class_attr : Type := mkClassAttr {
  ca_equals : pyval -> bool;
  ca_settable : pyval -> bool
}.

(** The entity type [self.model]:
    - [attrs], the names of its fields, which are its columns;
    - [others], everything else [hasattr] finds on the class;
    - [defaults], the values a fresh instance takes for the fields the
      caller leaves out.
    The identifier and the soft-delete flag, where the class has them,
    are fields. *)
Record Model : Type := mkModel {
  attrs : gset string;
  others : gmap string class_attr;
  defaults : row;
  columns_first : others !! "id" = None ∧ others !! "is_deleted" = None
}.

(** [hasattr(self.model, f)] and [hasattr(db_obj, f)]: true for a field
    and for any other attribute of the class. *)
Definition hasattr (model : Model) (f : string) : bool :=
  bool_decide (f ∈ attrs model) || bool_decide (is_Some (others model !! f)).

(** What the session was asked to do, in order. *)
Inductive event : Type :=
| Acquire | Exec | Get | Add | Delete | Commit | Refresh | Rollback | Release
| Fault (e : SQLAlchemyError).

(** The storage engine and the session opened on it.
    - [table]: the committed rows, in scan order;
    - [pending]: the persistent rows as the open session holds them;
    - [added]: the objects given to [db.add], not yet inserted;
    - [plan]: what the engine answers to the coming storage calls
      ([Some e] makes the call raise [e]; an exhausted plan answers
      normally);
    - [log]: the events so far. *)
Record World : Type := mkWorld {
  table : list row;
  pending : list row;
  added : list row;
  plan : list (option SQLAlchemyError);
  log : list event
}.

Inductive outcome (A : Type) : Type :=
| Done (a : A)
| Raised (e : exception).
Arguments Done {A} a.
Arguments Raised {A} e.

(** Computations that read and change the world and may raise. *)
Definition M (A : Type) : Type := World -> outcome A * World.

Definition ret {A} (a : A) : M A := fun w => (Done a, w).
Definition raise {A} (e : exception) : M A := fun w => (Raised e, w).
Definition bind {A B} (m : M A) (k : A -> M B) : M B :=
  fun w =>
    match m w with
    | (Done a, w') => k a w'
    | (Raised e, w') => (Raised e, w')
    end.

Declare Scope repo_scope.
Delimit Scope repo_scope with repo.
Notation "x <- m ;; k" := (bind m (fun x => k))
  (at level 100, m at next level, right associativity) : repo_scope.
Notation "m ;; k" := (bind m (fun _ => k))
  (at level 100, right associativity) : repo_scope.
Local Open Scope repo_scope.

(** [try: body  except SQLAlchemyError as e: handler(e)] *)
Definition try_except {A} (body : M A) (handler : SQLAlchemyError -> M A) : M A :=
  fun w =>
    match body w with
    | (Raised (DbExc e), w') => handler e w'
    | r => r
    end.

(** [try: body  finally: cleanup] *)
Definition finally {A} (body : M A) (cleanup : M unit) : M A :=
  fun w =>
    let '(r, w1) := body w in
    let '(_, w2) := cleanup w1 in
    (r, w2).

Definition emit (ev : event) : M unit :=
  fun w => (Done tt, mkWorld (table w) (pending w) (added w) (plan w) (log w ++ [ev])).

(** One awaited call on the session: the engine either performs it or
    raises the error planned for it. *)
Definition storage_call (ev : event) : M unit :=
  fun w =>
    match plan w with
    | Some e :: p =>
        (Raised (DbExc e),
         mkWorld (table w) (pending w) (added w) p (log w ++ [Fault e]))
    | None :: p =>
        (Done tt, mkWorld (table w) (pending w) (added w) p (log w ++ [ev]))
    | [] =>
        (Done tt, mkWorld (table w) (pending w) (added w) [] (log w ++ [ev]))
    end.

Definition read_pending : M (list row) := fun w => (Done (pending w), w).
Definition read_added : M (list row) := fun w => (Done (added w), w).
Definition read_table : M (list row) := fun w => (Done (table w), w).
Definition write_pending (rows : list row) : M unit :=
  fun w => (Done tt, mkWorld (table w) rows (added w) (plan w) (log w)).
Definition write_added (rows : list row) : M unit :=
  fun w => (Done tt, mkWorld (table w) (pending w) rows (plan w) (log w)).

(** The session forgets what it has not committed. *)
Definition discard : M unit :=
  fun w => (Done tt, mkWorld (table w) (table w) [] (plan w) (log w)).

(** The session's rows become the committed rows. *)
Definition persist (rows : list row) : M unit :=
  fun w => (Done tt, mkWorld rows rows [] (plan w) (log w)).

(** [async with self.get_session() as db: body]: the session starts from
    the committed rows and whatever it has not committed is dropped when
    it is released. *)
Definition get_session {A} (body : M A) : M A :=
  emit Acquire ;;
  discard ;;
  finally body (emit Release ;; discard).

(** *** Statements *)

Inductive cond : Type :=
| Eq (field : string) (value : pyval)       (* [column == value] *)
| In_ (field : string) (values : list pyval)   (* [column.in_(values)] *)
| Const (b : bool).   (* a Python bool: rendered as the constant true or false *)

Record Stmt : Type := mkStmt {
  wheres : list cond;
  offset_ : option Z;
  limit_ : option Z
}.

Definition select : Stmt := mkStmt [] None None.
Definition where_ (c : cond) (s : Stmt) : Stmt :=
  mkStmt (wheres s ++ [c]) (offset_ s) (limit_ s).
Definition offset (n : Z) (s : Stmt) : Stmt := mkStmt (wheres s) (Some n) (limit_ s).
Definition limit (n : Z) (s : Stmt) : Stmt := mkStmt (wheres s) (offset_ s) (Some n).

(** The value of a column in a row; a missing column reads as NULL. *)
Definition col (f : string) (r : row) : pyval := default VNone (r !! f).

(** [column == None] is rendered [IS NULL]; NULL is never [IN] a list. *)
Definition sat (r : row) (c : cond) : bool :=
  match c with
  | Eq f v => bool_decide (col f r = v)
  | In_ f vs => negb (bool_decide (col f r = VNone)) && bool_decide (col f r ∈ vs)
  | Const b => b
  end.

Definition matching (s : Stmt) (rows : list row) : list row :=
  List.filter (fun r => forallb (sat r) (wheres s)) rows.

Definition window (s : Stmt) (rows : list row) : list row :=
  let rows := match offset_ s with Some o => drop (Z.to_nat o) rows | None => rows end in
  match limit_ s with Some l => take (Z.to_nat l) rows | None => rows end.

Definition run_stmt (s : Stmt) (rows : list row) : list row :=
  window s (matching s rows).

(** *** Session operations *)

(** [await db.exec(stmt)] followed by [.all()] *)
Definition db_exec (s : Stmt) : M (list row) :=
  storage_call Exec ;; rows <- read_pending ;; ret (run_stmt s rows).

(** [await db.exec(select(func.count()).select_from(stmt.subquery()))]
    followed by [.one()] *)
Definition db_count (s : Stmt) : M Z :=
  storage_call Exec ;; rows <- read_pending ;;
  ret (Z.of_nat (length (run_stmt s rows))).

Definition find_pk (pk : pyval) (rows : list row) : option row :=
  if bool_decide (pk = VNone) then None
  else head (List.filter (fun r => bool_decide (col "id" r = pk)) rows).

(** [await db.get(self.model, item_id)] *)
Definition db_get (item_id : pyval) : M (option row) :=
  storage_call Get ;; rows <- read_pending ;; ret (find_pk item_id rows).

(** The write of [setattr(db_obj, key, value)] when [key] is a field of
    the object loaded under [pk]; the code's [setattr] is [setattr_]
    below, which also covers the names that are no field. *)
Definition db_setattr (pk : pyval) (key : string) (value : pyval) : M unit :=
  rows <- read_pending ;;
  write_pending
    (map (fun r => if bool_decide (col "id" r = pk) then <[key := value]> r else r) rows).

(** [db.add(obj)]; the result is the position the new object will have
    among the committed rows. *)
Definition db_add (obj : row) : M nat :=
  emit Add ;; rows <- read_pending ;; new <- read_added ;;
  write_added (new ++ [obj]) ;; ret (length rows + length new)%nat.

(** [await db.delete(db_obj)] *)
Definition db_delete (pk : pyval) : M unit :=
  storage_call Delete ;; rows <- read_pending ;;
  write_pending (List.filter (fun r => negb (bool_decide (col "id" r = pk))) rows).

Definition int_id (r : row) : Z :=
  match col "id" r with VInt z => z | _ => 0 end.
Definition max_id (rows : list row) : Z :=
  fold_right (fun r m => Z.max (int_id r) m) 0 rows.

(** New rows that reach the engine without an identifier receive the
    next free one, in order. *)
Fixpoint assign_ids (next : Z) (rows : list row) : list row :=
  match rows with
  | [] => []
  | r :: rest =>
      if bool_decide (col "id" r = VNone)
      then <["id" := VInt next]> r :: assign_ids (next + 1) rest
      else r :: assign_ids next rest
  end.

(** [await db.commit()] *)
Definition db_commit : M unit :=
  storage_call Commit ;; rows <- read_pending ;; new <- read_added ;;
  persist (rows ++ assign_ids (max_id (rows ++ new) + 1) new).

(** [await db.refresh(obj)] for the object loaded under [pk] *)
Definition db_refresh (pk : pyval) (obj : row) : M row :=
  storage_call Refresh ;; rows <- read_table ;;
  ret (default obj (find_pk pk rows)).

(** [await db.refresh(obj)] for an object added at position [i] *)
Definition db_refresh_at (i : nat) (obj : row) : M row :=
  storage_call Refresh ;; rows <- read_table ;;
  ret (default obj (rows !! i)).

(** [await db.rollback()]; the engine is taken to carry it out. *)
Definition db_rollback : M unit :=
  emit Rollback ;; discard.

(** [for x in xs: body(x)], collecting the results *)
Fixpoint for_each {A B} (xs : list A) (body : A -> M B) : M (list B) :=
  match xs with
  | [] => ret []
  | x :: rest => y <- body x ;; ys <- for_each rest body ;; ret (y :: ys)
  end.

(** Caller input: a dict, or a schema instance with the set of fields the
    caller assigned. *)
Inductive obj_in : Type :=
| Dict (d : row)
| Schema (values : row) (fields_set : gset string).

(** [obj.model_dump(exclude_unset=flag)] *)
Definition model_dump (exclude_unset : bool) (values : row) (fields_set : gset string)
  : row :=
  if exclude_unset then filter (fun kv => kv.1 ∈ fields_set) values else values.

Record PaginatedResponse : Type := mkPaginatedResponse {
  success : bool;
  data : list row;
  total : Z;
  page : Z;
  per_page : Z;
  pages : Z;
  message : string
}.

(** *** [BaseRepository] *)

Section BaseRepository.
Variable model : Model.

Definition db_error_message (error : SQLAlchemyError) (operation : string) : string :=
  if is_integrity error
  then "Database integrity error during " +:+ operation +:+ ": " +:+ error_text error
  else "Database error during " +:+ operation +:+ ": " +:+ error_text error.

(** [_handle_db_error]: always raises, [from error]. *)
Definition _handle_db_error {A} (error : SQLAlchemyError) (operation : string) : M A :=
  raise (RepositoryError (db_error_message error operation) (Some error)).

(** [getattr(self.model, field) == value] for a name [hasattr] finds: a
    comparison on the column when [field] is a field; for any other
    attribute the two Python objects are compared on the spot and the
    statement receives the resulting bool. *)
Definition getattr_eq (field : string) (value : pyval) : cond :=
  if bool_decide (field ∈ attrs model) then Eq field value
  else Const (from_option (fun a => ca_equals a value) false (others model !! field)).

Definition _build_select_stmt (include_deleted : bool) (filters : row) : Stmt :=
  let stmt := select in
  let stmt :=
    if negb include_deleted && hasattr model "is_deleted"
    then where_ (getattr_eq "is_deleted" (VBool false)) stmt
    else stmt in
  map_fold
    (fun field value stmt =>
       if hasattr model field then where_ (getattr_eq field value) stmt else stmt)
    stmt filters.

(** [_build_select_stmt] called with unpacked keywords: [include_deleted]
    binds to the parameter of that name, the rest are the filters. *)
Definition _build_select_stmt_kw (kwargs : row) : Stmt :=
  _build_select_stmt
    (from_option truthy false (kwargs !! "include_deleted"))
    (delete "include_deleted" kwargs).

Definition get (item_id : pyval) (include_deleted : bool) (filters : row)
  : M (option row) :=
  get_session
    (try_except
       (let stmt := _build_select_stmt include_deleted filters in
        let stmt := where_ (Eq "id" item_id) stmt in
        result <- db_exec stmt ;;
        ret (head result))
       (fun e => _handle_db_error e "get")).

Definition get_one (filters : row) : M (option row) :=
  get_session
    (try_except
       (let stmt := _build_select_stmt_kw filters in
        result <- db_exec stmt ;;
        ret (head result))
       (fun e => _handle_db_error e "get_one")).

Definition get_many (skip limit_n : Z) (include_deleted : bool) (filters : row)
  : M (list row) :=
  get_session
    (try_except
       (let stmt := _build_select_stmt include_deleted filters in
        let stmt := limit limit_n (offset skip stmt) in
        result <- db_exec stmt ;;
        ret result)
       (fun e => _handle_db_error e "get_many")).

Definition list_ (page per_page : Z) (include_deleted : bool) (filters : row)
  : M PaginatedResponse :=
  let page := if page <? 1 then 1 else page in
  let per_page := if (per_page <? 1) || (per_page >? 100) then 10 else per_page in
  get_session
    (try_except
       (let offset_n := (page - 1) * per_page in
        let stmt := _build_select_stmt include_deleted filters in
        total <- db_count stmt ;;
        items <- db_exec (limit per_page (offset offset_n stmt)) ;;
        let pages := (total + per_page - 1) / per_page in
        ret (mkPaginatedResponse true items total page per_page pages
               "Items retrieved successfully"))
       (fun e => _handle_db_error e "list")).

(** Building a [self.model] instance from a dict: declared attributes
    from the input, defaults
    for the others. *)
Definition new_object (data : row) : row :=
  filter (fun kv => kv.1 ∈ attrs model) data ∪ defaults model.

Definition dump (o : obj_in) (exclude_unset : bool) : row :=
  match o with
  | Schema values fields_set => model_dump exclude_unset values fields_set
  | Dict d => d
  end.

Definition create (o : obj_in) : M row :=
  let o := dump o true in
  get_session
    (try_except
       (let obj := new_object o in
        i <- db_add obj ;;
        db_commit ;;
        db_refresh_at i obj)
       (fun e =>
          if is_integrity e
          then db_rollback ;; _handle_db_error e "create"
          else db_rollback ;; _handle_db_error e "create")).

Definition create_many (objects_in : list obj_in) : M (list row) :=
  let objects_data := map (fun o => dump o true) objects_in in
  get_session
    (try_except
       (let objects := map new_object objects_data in
        handles <- for_each objects (fun obj => i <- db_add obj ;; ret (i, obj)) ;;
        db_commit ;;
        for_each handles (fun '(i, obj) => db_refresh_at i obj))
       (fun e => db_rollback ;; _handle_db_error e "create_many")).

(** [setattr(db_obj, key, value)] on the object loaded under [pk], for a
    name [hasattr] finds: a field is written; any other attribute
    accepts the value, leaving the columns alone, or refuses it. *)
Definition setattr_ (pk : pyval) (key : string) (value : pyval) : M unit :=
  if bool_decide (key ∈ attrs model) then db_setattr pk key value
  else if from_option (fun a => ca_settable a value) true (others model !! key)
       then ret tt
       else raise SetattrError.

(** The loop of [update] over [update_data.items()]. *)
Definition apply_update (pk : pyval) (update_data : row) : M unit :=
  map_fold
    (fun key value (acc : M unit) =>
       acc ;;
       if hasattr model key && negb (bool_decide (key = "id"))
       then setattr_ pk key value
       else ret tt)
    (ret tt) update_data.

Definition update (item_id : pyval) (o : obj_in) (exclude_unset : bool)
  : M (option row) :=
  let update_data := dump o exclude_unset in
  let update_data := delete "id" update_data in
  if bool_decide (update_data = ∅)
  then raise (RepositoryError "No data provided for update" None)
  else
    get_session
      (try_except
         (db_obj <- db_get item_id ;;
          match db_obj with
          | None => ret None
          | Some obj =>
              apply_update item_id update_data ;;
              db_commit ;;
              obj <- db_refresh item_id obj ;;
              ret (Some obj)
          end)
         (fun e => db_rollback ;; _handle_db_error e "update")).

Definition exists_ (item_id : pyval) (include_deleted : bool) : M bool :=
  get_session
    (try_except
       (let stmt := where_ (Eq "id" item_id) select in
        let stmt :=
          if negb include_deleted && hasattr model "is_deleted"
          then where_ (getattr_eq "is_deleted" (VBool false)) stmt
          else stmt in
        result <- db_exec stmt ;;
        ret (match head (map (col "id") result) with
             | Some v => negb (bool_decide (v = VNone))
             | None => false
             end))
       (fun e => _handle_db_error e "exists")).

Definition count (include_deleted : bool) (filters : row) : M Z :=
  get_session
    (try_except
       (let stmt := _build_select_stmt include_deleted filters in
        db_count stmt)
       (fun e => _handle_db_error e "count")).

Definition soft_delete (item_id : pyval) : M bool :=
  if negb (hasattr model "is_deleted")
  then raise (AttributeError "Model must have 'is_deleted' field for soft delete")
  else
    get_session
      (try_except
         (db_obj <- db_get item_id ;;
          match db_obj with
          | None => ret false
          | Some _ =>
              setattr_ item_id "is_deleted" (VBool true) ;;
              db_commit ;;
              ret true
          end)
         (fun e => db_rollback ;; _handle_db_error e "soft_delete")).

Definition restore (item_id : pyval) : M bool :=
  if negb (hasattr model "is_deleted")
  then raise (AttributeError "Model must have 'is_deleted' field for restore")
  else
    get_session
      (try_except
         (db_obj <- db_get item_id ;;
          match db_obj with
          | None => ret false
          | Some _ =>
              setattr_ item_id "is_deleted" (VBool false) ;;
              db_commit ;;
              ret true
          end)
         (fun e => db_rollback ;; _handle_db_error e "restore")).

Definition force_delete (item_id : pyval) : M bool :=
  get_session
    (try_except
       (db_obj <- db_get item_id ;;
        match db_obj with
        | None => ret false
        | Some _ =>
            db_delete item_id ;;
            db_commit ;;
            ret true
        end)
       (fun e => db_rollback ;; _handle_db_error e "force_delete")).

Definition force_delete_many (item_ids : list pyval) : M bool :=
  get_session
    (try_except
       (objects <- db_exec (where_ (In_ "id" item_ids) select) ;;
        for_each objects (fun obj => db_delete (col "id" obj)) ;;
        db_commit ;;
        ret true)
       (fun e => db_rollback ;; _handle_db_error e "force_delete_many")).

End BaseRepository.

End Repo.

(** ** [src/core/bases/base_router.py]: the schema skeletons of [/model/schemas] *)

Module Router.
Import Py Schemas FieldService.

(** The [field_def] dict built for one field; its values are Python
    objects: a string, a boolean, the field's default. *)
Definition field_def_of (field : ModelField) : gmap string pyobj :=
  let field_def : gmap string pyobj :=
    <["required" :=
        Plain (VBool (is_required field
                      && negb (bool_decide
                                 (name field ∈ ["id"; "created_at"; "updated_at"]))))]>
    (<["type" := Plain (VStr (FieldType_value (type field)))]> ∅) in
  if negb (is_None (default_value field))
  then <["default" := default_value field]> field_def
  else field_def.

(** The loop of [get_model_schemas], threading [create_schema] and
    [update_schema]. *)
Fixpoint schemas_from (fields : list ModelField)
    (create_schema update_schema : gmap string (gmap string pyobj))
  : gmap string (gmap string pyobj) * gmap string (gmap string pyobj) :=
  match fields with
  | [] => (create_schema, update_schema)
  | field :: rest =>
      if bool_decide (name field ∈ ["id"; "created_at"; "updated_at"; "is_deleted"])
      then schemas_from rest create_schema update_schema
      else
        let field_def := field_def_of field in
        let create_schema := <[name field := field_def]> create_schema in
        let update_field_def := <["required" := Plain (VBool false)]> field_def in
        let update_schema := <[name field := update_field_def]> update_schema in
        schemas_from rest create_schema update_schema
  end.

(** The [schemas] dict of [get_model_schemas]; [None] is the failure the
    handler turns into an error response. *)
Record ModelSchemas : Type := mkModelSchemas {
  create_schema : gmap string (gmap string pyobj);
  update_schema : gmap string (gmap string pyobj);
  schemas_model_name : string
}.

Definition get_model_schemas (model_class : ModelClass) : option ModelSchemas :=
  model_def ← get_model_definition model_class;
  let '(create_schema, update_schema) := schemas_from (fields model_def) ∅ ∅ in
  Some (mkModelSchemas create_schema update_schema (model_name model_def)).

End Router.

(** ** [src/core/utils/utils.py] *)

Module Utils.
Import Py.



End Utils.

(** ** [cli.py]: the field list of the [model] command *)

Module Cli.
Import Py.

(** One iteration of the loop over [fields.split(",")]: the pair appended
    to [field_list], if any. *)
Definition field_entry (field : string) : option (string * string) :=
  let field := strip field in
  match split_first ":" field with
  | Some (name, ftype) => Some (strip name, strip ftype)
  | None => None
  end.

(** [field_list] as the [model] command computes it from the [--fields]
    option. *)
Definition field_list (fields : option string) : list (string * string) :=
  match fields with
  | Some fields =>
      if bool_decide (fields = "") then []
      else omap field_entry (split "," fields)
  | None => []
  end.

End Cli.

(** * Vocabulary of the statements *)

Section Vocabulary.
Import Py Schemas Typing.


(** The descriptor the introspector builds for a foreign key. *)
Definition foreign_key_to (related : string) : RelationshipInfo :=
  mkRelationshipInfo FOREIGN_KEY related (Some "id") ("Foreign key to " +:+ related).

(** The result of [FieldService._detect_relationship] is a foreign key. *)
Definition is_foreign_key (r : option (option RelationshipInfo)) : bool :=
  match r with
  | Some (Some i) => bool_decide (rel_type i = FOREIGN_KEY)
  | _ => false
  end.

(** The same for the dict of [FieldParser._detect_relationship]. *)
Definition parser_foreign_key_to (related : string) : FieldParser.relationship :=
  FieldParser.mkRelationship "ForeignKey" related "ManyToOne"
    ("Foreign key to " +:+ related).

Definition parser_is_foreign_key (r : option (option FieldParser.relationship))
  : bool :=
  match r with
  | Some (Some i) => bool_decide (FieldParser.r_type i = "ForeignKey")
  | _ => false
  end.

(** The rule as the specification words it: an attribute is a foreign key
    exactly when its name ends in [_id] and its base type is an integer. *)
Definition foreign_key_rule_as_specified : Prop :=
  ∀ (field_name : string) (field_type : pytype),
    is_foreign_key (FieldService._detect_relationship field_name field_type)
    = endswith field_name "_id"
      && bool_decide (FieldService._get_base_type field_type = INTEGER).

(** [x] is falsy: [None] or [0]. *)
Definition falsy_int (x : option Z) : bool :=
  match x with Some n => n =? 0 | None => true end.

(** [x] is falsy: [None] or the empty string. *)
Definition falsy_str (x : option string) : bool :=
  match x with Some s => bool_decide (s = "") | None => true end.

(** A field descriptor carries no constraint: it is not required and no
    length, bound or pattern is set. *)
Definition no_constraints (f : FieldService.ModelField) : bool :=
  negb (FieldService.is_required f)
  && match FieldService.validation f with
     | Some v =>
         falsy_int (min_length v) && falsy_int (max_length v)
         && bool_decide (min_value v = None) && bool_decide (max_value v = None)
         && falsy_str (pattern v)
     | None => true
     end.

(** The entity of the specification's example: the identifier, a title,
    an author reference, the two timestamps and the soft-delete flag. *)
Definition example_entity : FieldService.ModelClass :=
  let plain := FieldService.mkFieldInfo None None in
  let with_default v := FieldService.mkFieldInfo (Some (FieldService.Plain v)) None in
  FieldService.mkModelClass "Book" None
    [("id", with_default VNone); ("title", plain); ("author_id", plain);
     ("created_at", plain); ("updated_at", plain);
     ("is_deleted", with_default (VBool false))]
    (list_to_map
       [("id", Optional_ int_); ("title", str_); ("author_id", int_);
        ("created_at", TClass "datetime"); ("updated_at", TClass "datetime");
        ("is_deleted", bool_)]).

(** The effective default of a field: [.arg] of a default object. *)
Definition effective_default (field_info : FieldService.FieldInfo)
  : FieldService.pyobj :=
  match default (FieldService.Plain VNone) (FieldService.fi_default field_info) with
  | FieldService.ArgHolder a => FieldService.Plain a
  | d => d
  end.

(** *** Repository *)

(** The soft-delete flag of a record is set. *)
Definition flagged (r : Repo.row) : bool :=
  bool_decide (Repo.col "is_deleted" r = VBool true).

(** A record passes the soft-delete filter. *)
Definition visible (model : Repo.Model) (include_deleted : bool) (r : Repo.row)
  : bool :=
  include_deleted || negb (Repo.hasattr model "is_deleted")
  || bool_decide (Repo.col "is_deleted" r = VBool false).

(** A record agrees with every filter that names a field; a filter that
    names another attribute of the class lets the record through when
    that attribute itself equals the value, and lets none through
    otherwise. *)
Definition fits (model : Repo.Model) (filters r : Repo.row) : bool :=
  bool_decide
    (map_Forall
       (λ k v,
          (k ∈ Repo.attrs model → Repo.col k r = v)
          ∧ (k ∉ Repo.attrs model →
             from_option (λ a, Repo.ca_equals a v) true (Repo.others model !! k)
             = true))
       filters).

(** The records a read operation may return or count. *)
Definition chosen (model : Repo.Model) (include_deleted : bool)
    (filters : Repo.row) (rows : list Repo.row) : list Repo.row :=
  List.filter (λ r, visible model include_deleted r && fits model filters r) rows.

Definition has_id (i : pyval) (r : Repo.row) : bool :=
  bool_decide (Repo.col "id" r = i).

(** A world whose engine answers every storage call normally. *)
Definition calm (t p a : list Repo.row) (l : list Repo.event) : Repo.World :=
  Repo.mkWorld t p a [] l.

(** The world a session leaves behind on a calm engine: the committed
    rows [t] and the events [evs] added to the log. *)
Definition after (t : list Repo.row) (l evs : list Repo.event) : Repo.World :=
  Repo.mkWorld t t [] [] (l ++ evs).

(** Normalisation of the paging arguments, as the specification words it. *)
Definition clamp_page (page : Z) : Z := Z.max 1 page.
Definition reset_per_page (per_page : Z) : Z :=
  if bool_decide (1 ≤ per_page ≤ 100) then per_page else 10.

(** The record [r] after the declared, non-identifier entries of a field
    map are written into it. *)
Definition patch (model : Repo.Model) (update_data r : Repo.row) : Repo.row :=
  filter (λ kv, kv.1 ∈ Repo.attrs model ∧ kv.1 ≠ "id") update_data ∪ r.

(** The assignment [update] makes of an entry of its field map is
    refused: the key names an attribute of the class that is no field
    and does not take the value. *)
Definition refused (model : Repo.Model) (k : string) (v : pyval) : bool :=
  negb (bool_decide (k ∈ Repo.attrs model)) && negb (bool_decide (k = "id"))
  && negb (from_option (λ a, Repo.ca_settable a v) true (Repo.others model !! k)).

(** No entry of the field map is refused. *)
Definition assignable (model : Repo.Model) (update_data : Repo.row) : Prop :=
  map_Forall (λ k v, refused model k v = false) update_data.

(** The table after the records stored under [i] are rewritten by [f]. *)
Definition rewrite_at (i : pyval) (f : Repo.row → Repo.row) (t : list Repo.row)
  : list Repo.row :=
  map (λ r, if has_id i r then f r else r) t.

(** The table without the records stored under [i]. *)
Definition without (i : pyval) (t : list Repo.row) : list Repo.row :=
  List.filter (λ r, negb (has_id i r)) t.

(** No stored record has identifier [i]. *)
Definition missing (i : pyval) (t : list Repo.row) : Prop :=
  Forall (λ r, Repo.col "id" r ≠ i) t.

(** Not-found as the specification words it: whatever else is passed, the
    four operations answer absent/false for an identifier that matches
    no stored record. *)
Definition not_found_as_specified : Prop :=
  ∀ (model : Repo.Model) (i : pyval) (o : Repo.obj_in) (exclude_unset : bool)
    (t p a : list Repo.row) (l : list Repo.event),
    missing i t →
    (Repo.update model i o exclude_unset (calm t p a l)).1 = Repo.Done None
    ∧ (Repo.soft_delete model i (calm t p a l)).1 = Repo.Done false
    ∧ (Repo.restore model i (calm t p a l)).1 = Repo.Done false
    ∧ (Repo.force_delete i (calm t p a l)).1 = Repo.Done false.

(** Undeclared filter keys as the specification words it: every read
    gives the same result with and without such a key. *)
Definition unknown_filter_ignored_as_specified : Prop :=
  ∀ (model : Repo.Model) (k : string) (filters : Repo.row) (w : Repo.World)
    (i : pyval) (include_deleted : bool) (skip lim page per_page : Z),
    k ∉ Repo.attrs model →
    Repo.get model i include_deleted filters w
    = Repo.get model i include_deleted (delete k filters) w
    ∧ Repo.get_one model filters w = Repo.get_one model (delete k filters) w
    ∧ Repo.get_many model skip lim include_deleted filters w
      = Repo.get_many model skip lim include_deleted (delete k filters) w
    ∧ Repo.list_ model page per_page include_deleted filters w
      = Repo.list_ model page per_page include_deleted (delete k filters) w
    ∧ Repo.count model include_deleted filters w
      = Repo.count model include_deleted (delete k filters) w.

(** The transactional write operations, with their arguments. *)
Inductive write_op : Type :=
| Create (o : Repo.obj_in)
| CreateMany (objects_in : list Repo.obj_in)
| Update (i : pyval) (o : Repo.obj_in) (exclude_unset : bool)
| SoftDelete (i : pyval)
| Restore (i : pyval)
| ForceDelete (i : pyval)
| ForceDeleteMany (item_ids : list pyval).

(** The operation name each of them passes to [_handle_db_error]. *)
Definition op_name (op : write_op) : string :=
  match op with
  | Create _ => "create"
  | CreateMany _ => "create_many"
  | Update _ _ _ => "update"
  | SoftDelete _ => "soft_delete"
  | Restore _ => "restore"
  | ForceDelete _ => "force_delete"
  | ForceDeleteMany _ => "force_delete_many"
  end.

(** The exception a run ended with, if any, and the world it left. *)
Definition ending {A} (x : Repo.outcome A * Repo.World)
  : option Repo.exception * Repo.World :=
  (match x.1 with Repo.Done _ => None | Repo.Raised e => Some e end, x.2).

Definition run_write (model : Repo.Model) (op : write_op) (w : Repo.World)
  : option Repo.exception * Repo.World :=
  match op with
  | Create o => ending (Repo.create model o w)
  | CreateMany os => ending (Repo.create_many model os w)
  | Update i o eu => ending (Repo.update model i o eu w)
  | SoftDelete i => ending (Repo.soft_delete model i w)
  | Restore i => ending (Repo.restore model i w)
  | ForceDelete i => ending (Repo.force_delete i w)
  | ForceDeleteMany ids => ending (Repo.force_delete_many ids w)
  end.

(** No event of the list is a storage failure. *)
Definition quiet (evs : list Repo.event) : Prop :=
  Forall (λ ev, ∀ e, ev ≠ Repo.Fault e) evs.

(** The events a run added to the log. *)
Definition new_events (w w' : Repo.World) : list Repo.event :=
  drop (length (Repo.log w)) (Repo.log w').

(** A computation that adds events to the log; it fails through a
    storage call, and then stops right after the failure, or through a
    refused assignment, which no storage failure precedes. *)
Definition orderly {A} (m : Repo.M A) : Prop :=
  ∀ w,
    match m w with
    | (Repo.Done _, w') => ∃ evs, Repo.log w' = Repo.log w ++ evs ∧ quiet evs
    | (Repo.Raised (Repo.DbExc e), w') =>
        ∃ evs, Repo.log w' = Repo.log w ++ evs ++ [Repo.Fault e] ∧ quiet evs
    | (Repo.Raised Repo.SetattrError, w') =>
        ∃ evs, Repo.log w' = Repo.log w ++ evs ∧ quiet evs
    | (Repo.Raised _, _) => False
    end.

(** *** Sample data *)

(** A method or a class-level object of an entity class: equal to no
    value a caller passes, and not assignable. *)
Definition inherited : Repo.class_attr :=
  Repo.mkClassAttr (λ _, false) (λ _, false).

(** An entity type with a title and the soft-delete flag, which also has
    what every entity class inherits, [copy] and [model_config] among it;
    one live and one soft-deleted record. *)
Definition example_model : Repo.Model :=
  Repo.mkModel {["id"; "title"; "is_deleted"]}
    {["copy" := inherited; "model_config" := inherited]}
    {["id" := VNone; "is_deleted" := VBool false]}
    (conj eq_refl eq_refl).

Definition live_row : Repo.row :=
  {["id" := VInt 1; "title" := VStr "a"; "is_deleted" := VBool false]}.

Definition deleted_row : Repo.row :=
  {["id" := VInt 2; "title" := VStr "b"; "is_deleted" := VBool true]}.

Definition example_rows : list Repo.row := [live_row; deleted_row].

(** An integrity failure of the engine. *)
Definition duplicate_key : Repo.SQLAlchemyError :=
  Repo.mkSQLAlchemyError true "duplicate key".


(** *** Further vocabulary for the repository *)

(** A computation that leaves the committed rows alone. *)
Definition keeps_table {A} (m : Repo.M A) : Prop :=
  ∀ w, Repo.table (m w).2 = Repo.table w.

(** A computation that only adds events to the log and changes the
    committed rows only in a run that logs a commit. *)
Definition frugal {A} (m : Repo.M A) : Prop :=
  ∀ w, ∃ evs,
    Repo.log (m w).2 = Repo.log w ++ evs
    ∧ (Repo.Commit ∈ evs ∨ Repo.table (m w).2 = Repo.table w).

(** The row the engine stores for a new object: an object without
    identifier receives the one after the largest in use. *)
Definition stored_as (t : list Repo.row) (obj : Repo.row) : Repo.row :=
  if bool_decide (Repo.col "id" obj = VNone)
  then <["id" := VInt (Repo.max_id (t ++ [obj]) + 1)]> obj
  else obj.

(** An entity type without the soft-delete flag. *)
Definition flagless_model : Repo.Model :=
  Repo.mkModel {["id"; "title"]} {["copy" := inherited]} {["id" := VNone]}
    (conj eq_refl eq_refl).

(** *** Further vocabulary for the field introspector *)

(** An annotation whose [__name__], if it has one, is not empty. *)
Definition named (t : pytype) : Prop := Typing.attr_name t ≠ Some "".

(** *** Further vocabulary for the field parser and the command line *)

(** [c.join(segs)] on lists of characters, and [",".join(entries)]. *)
Fixpoint joined_l (c : ascii) (segs : list (list ascii)) : list ascii :=
  match segs with
  | [] => []
  | [a] => a
  | a :: rest => a ++ c :: joined_l c rest
  end.
Definition comma_joined (entries : list string) : string :=
  l2s (joined_l ","%char (map s2l entries)).

(** The field definition [name:type] and [name:type=default]. *)
Definition typed (name type : string) : string := name +:+ ":" +:+ type.
Definition typed_with_default (name type default : string) : string :=
  name +:+ ":" +:+ type +:+ "=" +:+ default.

(** Renderers that answer with the type they are given, to run the parser
    on examples. *)
Definition echo_type (field_type : string) : option string := Some field_type.
Definition echo_definition (field_name field_type : string)
    (default_value : option string) : option string :=
  Some (field_name +:+ ": " +:+ field_type).

(** *** Further vocabulary for failing reads *)

(** The read operations, with their arguments. *)
Inductive read_op : Type :=
| ReadGet (i : pyval) (include_deleted : bool) (filters : Repo.row)
| ReadOne (kwargs : Repo.row)
| ReadMany (skip lim : Z) (include_deleted : bool) (filters : Repo.row)
| ReadPage (page per_page : Z) (include_deleted : bool) (filters : Repo.row)
| ReadCount (include_deleted : bool) (filters : Repo.row)
| ReadExists (i : pyval) (include_deleted : bool).

(** The operation name each of them passes to [_handle_db_error]. *)
Definition read_name (op : read_op) : string :=
  match op with
  | ReadGet _ _ _ => "get"
  | ReadOne _ => "get_one"
  | ReadMany _ _ _ _ => "get_many"
  | ReadPage _ _ _ _ => "list"
  | ReadCount _ _ => "count"
  | ReadExists _ _ => "exists"
  end.

Definition run_read (model : Repo.Model) (op : read_op) (w : Repo.World)
  : option Repo.exception * Repo.World :=
  match op with
  | ReadGet i incl filters => ending (Repo.get model i incl filters w)
  | ReadOne kwargs => ending (Repo.get_one model kwargs w)
  | ReadMany skip lim incl filters =>
      ending (Repo.get_many model skip lim incl filters w)
  | ReadPage page per_page incl filters =>
      ending (Repo.list_ model page per_page incl filters w)
  | ReadCount incl filters => ending (Repo.count model incl filters w)
  | ReadExists i incl => ending (Repo.exists_ model i incl w)
  end.

(** Every event of the list is a query. *)
Definition queries (evs : list Repo.event) : Prop :=
  Forall (λ ev, ev = Repo.Exec) evs.

(** The session state of [w'] is that of [w]. *)
Definition same_rows (w w' : Repo.World) : Prop :=
  Repo.table w' = Repo.table w ∧ Repo.pending w' = Repo.pending w
  ∧ Repo.added w' = Repo.added w.

(** A computation that only sends queries, fails only through one of them
    and then stops right after the failure. *)
Definition querying {A} (m : Repo.M A) : Prop :=
  ∀ w,
    match m w with
    | (Repo.Done _, w') =>
        ∃ evs, Repo.log w' = Repo.log w ++ evs ∧ queries evs ∧ same_rows w w'
    | (Repo.Raised (Repo.DbExc e), w') =>
        ∃ evs, Repo.log w' = Repo.log w ++ evs ++ [Repo.Fault e]
               ∧ queries evs ∧ same_rows w w'
    | (Repo.Raised _, _) => False
    end.

(** A field descriptor whose validation records no minimal length and no
    pattern. *)
Definition unconstrained_text (f : FieldService.ModelField) : Prop :=
  ∃ v, FieldService.validation f = Some v
       ∧ min_length v = None ∧ pattern v = None.

End Vocabulary.

(** * Properties *)

(** ** Strings *)

Section StringFacts.
Import Py.

Lemma s2l_l2s (l : list ascii) : s2l (l2s l) = l.
Proof. apply String.list_ascii_of_string_of_list_ascii. Qed.

Lemma l2s_s2l (s : string) : l2s (s2l s) = s.
Proof. apply String.string_of_list_ascii_of_string. Qed.

Lemma s2l_app (s t : string) : s2l (s +:+ t) = s2l s ++ s2l t.
Proof. induction s as [|c s IH]; simpl; [done | by rewrite IH]. Qed.

(** [name.endswith(suf)] holds exactly for the names [stem + suf]. *)
Lemma endswith_iff (s suf : string) :
  endswith s suf = true ↔ ∃ stem, s = stem +:+ suf.
Proof.
  unfold endswith. rewrite bool_decide_eq_true. split.
  - intros [k Hk]. exists (l2s k).
    rewrite <- (l2s_s2l s), Hk, <- (l2s_s2l (l2s k +:+ suf)).
    by rewrite s2l_app, s2l_l2s.
  - intros [stem ->]. exists (s2l stem). apply s2l_app.
Qed.

(** [(stem + suf)[:-len(suf)] == stem] *)
Lemma drop_last_app (stem suf : string) :
  drop_last (length (s2l suf)) (stem +:+ suf) = stem.
Proof.
  unfold drop_last. rewrite s2l_app, length_app.
  replace (length (s2l stem) + length (s2l suf) - length (s2l suf))%nat
    with (length (s2l stem)) by lia.
  by rewrite take_app_length, l2s_s2l.
Qed.

Lemma drop_last_id (stem : string) : drop_last 3 (stem +:+ "_id") = stem.
Proof. apply (drop_last_app stem "_id"). Qed.

End StringFacts.

(** ** Relationship detection (field introspector) *)

Section RelationshipDetection.
Import Py Schemas Typing.

Lemma service_not_suffix (field_name : string) (field_type : pytype) :
  endswith field_name "_id" = false →
  is_foreign_key (FieldService._detect_relationship field_name field_type) = false.
Proof.
  intros H. unfold FieldService._detect_relationship. rewrite H.
  destruct (FieldService.upper_named field_type) as [[n|]|]; [| |done].
  - case_bool_decide; [|done].
    destruct (attr_origin field_type), (attr_args field_type) as [|a ?]; try done.
    destruct (is_list_class _); [|done].
    by destruct (FieldService.upper_named a) as [[?|]|].
  - destruct (attr_origin field_type), (attr_args field_type) as [|a ?]; try done.
    destruct (is_list_class _); [|done].
    by destruct (FieldService.upper_named a) as [[?|]|].
Qed.

Lemma parser_not_foreign_key (field_name field_type : string) :
  endswith field_name "_id" && bool_decide (field_type ∈ ["int"; "integer"]) = false →
  parser_is_foreign_key (FieldParser._detect_relationship field_name field_type) = false.
Proof.
  intros H. unfold FieldParser._detect_relationship. rewrite H.
  destruct (first_isupper field_type) as [up|]; [|done].
  destruct (up && _); [done|].
  destruct (FieldParser.match_wrapped "list[" _); [done|].
  by destruct (FieldParser.match_wrapped "optional[" _).
Qed.

End RelationshipDetection.

(** C1, as worded, fails on the runtime introspector: [author_id] declared
    as a string is classified as a foreign key although its base type is
    not an integer. *)
Lemma C1_string_typed_id_is_foreign_key : ¬ foreign_key_rule_as_specified.
Proof.
  intros H. specialize (H "author_id" Typing.str_). vm_compute in H. done.
Qed.

(** C1 (amended): the runtime introspector classifies an attribute as a
    foreign key exactly when its name ends in [_id], whatever its declared
    type, so the rule also wins over the capitalised-type-name rule; the
    related entity is the name without the suffix, capitalised, and
    [author_id: int] gives "Author".  The command-line parser applies the
    same rule only to the literal type strings [int] and [integer]. *)
Theorem C1_foreign_key_rule :
  (∀ (stem : string) (field_type : Typing.pytype),
      FieldService._detect_relationship (stem +:+ "_id") field_type
      = Some (Some (foreign_key_to (Py.capitalize stem))))
  ∧ (∀ (field_name : string) (field_type : Typing.pytype),
      is_foreign_key (FieldService._detect_relationship field_name field_type)
      = Py.endswith field_name "_id")
  ∧ FieldService._detect_relationship "author_id" Typing.int_
    = Some (Some (foreign_key_to "Author"))
  ∧ (∀ (stem field_type : string),
      FieldParser._detect_relationship (stem +:+ "_id") field_type
      = if bool_decide (field_type ∈ ["int"; "integer"])
        then Some (Some (parser_foreign_key_to (Py.capitalize stem)))
        else FieldParser._detect_relationship "" field_type)
  ∧ (∀ (field_name field_type : string),
      parser_is_foreign_key (FieldParser._detect_relationship field_name field_type)
      = Py.endswith field_name "_id" && bool_decide (field_type ∈ ["int"; "integer"])).
Proof.
  assert (Hsuf : ∀ stem, Py.endswith (stem +:+ "_id") "_id" = true).
  { intros stem. apply endswith_iff. by exists stem. }
  split_and!.
  - intros stem field_type. unfold FieldService._detect_relationship.
    by rewrite Hsuf, drop_last_id.
  - intros field_name field_type.
    destruct (Py.endswith field_name "_id") eqn:E.
    + apply endswith_iff in E as [stem ->].
      unfold FieldService._detect_relationship. by rewrite Hsuf.
    + by apply service_not_suffix.
  - reflexivity.
  - intros stem field_type. unfold FieldParser._detect_relationship at 1.
    rewrite Hsuf, drop_last_id. simpl. case_bool_decide as Hty; [done|].
    unfold FieldParser._detect_relationship.
    cbn [andb]. replace (Py.endswith "" "_id") with false by (by vm_compute).
    done.
  - intros field_name field_type.
    destruct (Py.endswith field_name "_id" && _) eqn:E.
    + apply andb_true_iff in E as [E1 E2].
      unfold FieldParser._detect_relationship. by rewrite E1, E2.
    + by apply parser_not_foreign_key.
Qed.

(** ** Optionality and required-ness *)

Section Requiredness.
Import Py Schemas Typing FieldService.

(** No annotation the interpreter can build is recognised as optional. *)
Lemma constructible_not_optional (t : pytype) :
  constructible t = true → _is_optional_type t = false.
Proof.
  destruct t as [| | |o args nm]; try done.
  simpl. intros H. apply andb_true_iff in H as [H _].
  apply andb_true_iff in H as [H _]. by apply negb_true_iff in H.
Qed.

(** [is_required] is computed from the code's own optionality test and
    the effective default. *)
Lemma parse_field_required (field_name : string) (field_type : pytype)
    (field_info : FieldInfo) (f : ModelField) :
  _parse_field field_name field_type field_info = Some f →
  is_required f
  = negb (_is_optional_type field_type) && is_None (effective_default field_info).
Proof.
  unfold _parse_field, effective_default. intros H.
  destruct (_detect_relationship field_name field_type) as [r|]; [|done].
  simpl in H. injection H as <-. simpl.
  by destruct (default (Plain VNone) (fi_default field_info)).
Qed.

End Requiredness.

(** C4: at [bio: Optional[str]] the optionality test answers false, so the
    field is reported required (its semantic type is [string]); no
    annotation the interpreter builds is ever recognised as optional.
    [age: int] without a default is required. *)
Theorem C4_optional_annotation_not_recognised :
  FieldService._is_optional_type (Typing.Optional_ Typing.str_) = false
  ∧ FieldService.is_required
      <$> FieldService._parse_field "bio" (Typing.Optional_ Typing.str_)
            (FieldService.mkFieldInfo (Some (FieldService.Plain Py.VNone)) None)
    = Some true
  ∧ FieldService.type
      <$> FieldService._parse_field "bio" (Typing.Optional_ Typing.str_)
            (FieldService.mkFieldInfo (Some (FieldService.Plain Py.VNone)) None)
    = Some Schemas.STRING
  ∧ (∀ t, Typing.constructible t = true → FieldService._is_optional_type t = false)
  ∧ FieldService.is_required
      <$> FieldService._parse_field "age" Typing.int_
            (FieldService.mkFieldInfo None None)
    = Some true.
Proof.
  split_and!; try reflexivity. apply constructible_not_optional.
Qed.

(** ** Form configuration and validation rules *)

Section FormGeneration.
Import Py Schemas Typing FieldService.

Lemma lookup_put_if_truthy_ne k k' x (d : gmap string pyval) :
  k ≠ k' → put_if_truthy k x d !! k' = d !! k'.
Proof.
  intros. unfold put_if_truthy. destruct x as [n|]; [|done].
  destruct (n =? 0); [done|]. by rewrite lookup_insert_ne.
Qed.

Lemma lookup_put_if_not_None_ne k k' x (d : gmap string pyval) :
  k ≠ k' → put_if_not_None k x d !! k' = d !! k'.
Proof.
  intros. unfold put_if_not_None. destruct x; [|done]. by rewrite lookup_insert_ne.
Qed.

(** Every entry of the layout keeps the name of its field. *)
Lemma field_config_name (f : ModelField) :
  field_config_of f !! "name" = Some (VStr (name f)).
Proof.
  unfold field_config_of.
  assert (Hbase : ∀ d : gmap string pyval,
    d !! "name" = Some (VStr (name f)) →
    match is_relationship f, relationship f with
    | true, Some r =>
        match rel_type r with
        | FOREIGN_KEY =>
            <["options" := VStr (options_url r)]> (<["type" := VStr "select"]> d)
        | ONE_TO_MANY =>
            <["options" := VStr (options_url r)]> (<["type" := VStr "multiselect"]> d)
        | _ => d
        end
    | _, _ => d
    end !! "name" = Some (VStr (name f))).
  { intros d Hd. destruct (is_relationship f), (relationship f) as [r|]; try done.
    destruct (rel_type r); try done; by repeat (rewrite lookup_insert_ne by done). }
  apply Hbase. destruct (validation f).
  - rewrite !lookup_put_if_not_None_ne, !lookup_put_if_truthy_ne by done.
    repeat (rewrite lookup_insert_ne by done). apply lookup_insert_eq.
  - repeat (rewrite lookup_insert_ne by done). apply lookup_insert_eq.
Qed.

Lemma form_layout_names (fs : list ModelField) :
  (λ cfg : gmap string pyval, cfg !! "name") <$> _generate_form_layout fs
  = (λ f, Some (VStr (name f)))
      <$> List.filter (λ f, negb (bool_decide (name f ∈ form_skipped))) fs.
Proof.
  induction fs as [|f fs IH]; [done|].
  cbn [_generate_form_layout List.filter].
  case_bool_decide; cbn [negb]; [done|].
  rewrite !fmap_cons. by rewrite field_config_name, IH.
Qed.

Lemma put_if_truthy_empty k x (d : gmap string pyval) :
  put_if_truthy k x d = ∅ ↔ falsy_int x = true ∧ d = ∅.
Proof.
  unfold put_if_truthy, falsy_int. destruct x as [n|]; [|tauto].
  destruct (n =? 0); [tauto|]. split; [|by intros [? _]].
  intros H. by apply insert_non_empty in H.
Qed.

Lemma put_if_not_None_empty k x (d : gmap string pyval) :
  put_if_not_None k x d = ∅ ↔ x = None ∧ d = ∅.
Proof.
  unfold put_if_not_None. destruct x as [n|]; [|tauto].
  split; [|by intros [? _]]. intros H. by apply insert_non_empty in H.
Qed.

Lemma put_if_nonempty_empty k x (d : gmap string pyval) :
  put_if_nonempty k x d = ∅ ↔ falsy_str x = true ∧ d = ∅.
Proof.
  unfold put_if_nonempty, falsy_str. destruct x as [s|]; [|tauto].
  case_bool_decide; [tauto|]. split; [|by intros [? _]].
  intros Hi. by apply insert_non_empty in Hi.
Qed.

(** The rule dict of a field is empty exactly when the field carries no
    constraint. *)
Lemma field_rules_empty_iff (f : ModelField) :
  field_rules_of f = ∅ ↔ no_constraints f = true.
Proof.
  unfold field_rules_of, no_constraints.
  assert (Hreq : (if is_required f then <["required" := VBool true]> ∅ else ∅)
                 = (∅ : gmap string pyval) ↔ negb (is_required f) = true).
  { destruct (is_required f); simpl; [|done].
    split; [|done]. intros H. by apply insert_non_empty in H. }
  destruct (validation f) as [v|].
  - rewrite put_if_nonempty_empty, !put_if_not_None_empty, !put_if_truthy_empty, Hreq.
    rewrite !andb_true_iff, !bool_decide_eq_true. tauto.
  - rewrite Hreq, andb_true_iff. tauto.
Qed.

Lemma validation_rules_from_skipped fs (rules : gmap string (gmap string pyval)) k :
  k ∈ form_skipped → rules !! k = None → validation_rules_from fs rules !! k = None.
Proof.
  intros Hk. revert rules. induction fs as [|f fs IH]; intros rules Hr; [done|].
  simpl. case_bool_decide as Hn; [by apply IH|].
  case_bool_decide; [by apply IH|].
  apply IH. rewrite lookup_insert_ne; [done|]. by intros <-.
Qed.

Lemma validation_rules_from_nonempty fs (rules : gmap string (gmap string pyval)) k :
  rules !! k ≠ Some ∅ → validation_rules_from fs rules !! k ≠ Some ∅.
Proof.
  revert rules. induction fs as [|f fs IH]; intros rules Hr; [done|].
  simpl. case_bool_decide; [by apply IH|].
  case_bool_decide as He; [by apply IH|].
  apply IH. destruct (decide (name f = k)) as [->|].
  - rewrite lookup_insert_eq. congruence.
  - by rewrite lookup_insert_ne.
Qed.

Lemma validation_rules_from_absent fs (rules : gmap string (gmap string pyval)) k :
  (∀ g, g ∈ fs → name g = k → no_constraints g = true) →
  rules !! k = None → validation_rules_from fs rules !! k = None.
Proof.
  revert rules. induction fs as [|f fs IH]; intros rules Hall Hr; [done|].
  assert (Hrest : ∀ g, g ∈ fs → name g = k → no_constraints g = true).
  { intros g Hg. apply Hall. by right. }
  simpl. case_bool_decide; [by apply IH|].
  case_bool_decide as He; [by apply IH|].
  apply IH; [done|]. rewrite lookup_insert_ne; [done|].
  intros Hn. apply He, field_rules_empty_iff, Hall; [by left | done].
Qed.

End FormGeneration.

(** C8: the form layout has one entry per field other than [id],
    [created_at], [updated_at] and [is_deleted], in order; the validation
    rule map has no key among those four, never maps a field to an empty
    rule object, and has no entry at all for a field without constraints.
    For the example entity the layout lists [title] and [author_id] and
    the rule map has exactly those two keys. *)
Theorem C8_form_and_rules_skip_ambient_fields :
  (∀ fs : list FieldService.ModelField,
      (λ cfg : gmap string Py.pyval, cfg !! "name") <$> FieldService._generate_form_layout fs
      = (λ f, Some (Py.VStr (FieldService.name f)))
          <$> List.filter
                (λ f, negb (bool_decide (FieldService.name f ∈ ["id"; "created_at"; "updated_at"; "is_deleted"])))
                fs)
  ∧ (∀ (fs : list FieldService.ModelField) (k : string),
      k ∈ ["id"; "created_at"; "updated_at"; "is_deleted"] →
      FieldService._generate_validation_rules fs !! k = None)
  ∧ (∀ (fs : list FieldService.ModelField) (k : string),
      FieldService._generate_validation_rules fs !! k ≠ Some ∅)
  ∧ (∀ (fs : list FieldService.ModelField) (f : FieldService.ModelField),
      f ∈ fs →
      (∀ g, g ∈ fs → FieldService.name g = FieldService.name f → no_constraints g = true) →
      FieldService._generate_validation_rules fs !! FieldService.name f = None)
  ∧ (form ← FieldService.get_dynamic_form_config example_entity;
     Some ((λ cfg : gmap string Py.pyval, cfg !! "name") <$> FieldService.layout form,
           dom (FieldService.validation_rules form)))
    = Some ([Some (Py.VStr "title"); Some (Py.VStr "author_id")],
            ({["title"; "author_id"]} : gset string)).
Proof.
  split_and!.
  - apply form_layout_names.
  - intros fs k Hk. by apply validation_rules_from_skipped.
  - intros fs k. by apply validation_rules_from_nonempty.
  - intros fs f _ Hall. by apply validation_rules_from_absent.
  - by vm_compute.
Qed.

(** ** Repository: statements and calm runs *)

Section ClassAttributes.
Import Py Repo.
Variable model : Model.

(** The soft-delete flag of a class that has one is a field. *)
Lemma flag_is_field :
  hasattr model "is_deleted" = true → "is_deleted" ∈ attrs model.
Proof.
  unfold hasattr. intros H. apply orb_true_iff in H as [H|H].
  - by apply bool_decide_eq_true in H.
  - apply bool_decide_eq_true in H. destruct (columns_first model) as [_ Hf].
    rewrite Hf in H. by destruct H.
Qed.

Lemma getattr_eq_flag (v : pyval) :
  hasattr model "is_deleted" = true →
  getattr_eq model "is_deleted" v = Eq "is_deleted" v.
Proof.
  intros H. unfold getattr_eq. by rewrite bool_decide_eq_true_2 by by apply flag_is_field.
Qed.

Lemma setattr_flag (pk v : pyval) :
  hasattr model "is_deleted" = true →
  setattr_ model pk "is_deleted" v = db_setattr pk "is_deleted" v.
Proof.
  intros H. unfold setattr_. by rewrite bool_decide_eq_true_2 by by apply flag_is_field.
Qed.

Lemma hasattr_false (k : string) :
  hasattr model k = false ↔ (k ∉ attrs model) ∧ others model !! k = None.
Proof.
  unfold hasattr. rewrite orb_false_iff, !bool_decide_eq_false.
  split; intros [H1 H2]; (split; [done|]).
  - destruct (others model !! k); [|done]. exfalso. by apply H2.
  - rewrite H2. by intros [? ?].
Qed.

Lemma hasattr_field (k : string) : k ∈ attrs model → hasattr model k = true.
Proof. intros H. unfold hasattr. by rewrite bool_decide_eq_true_2. Qed.

(** What a filter the statement applies asks of a row. *)
Lemma sat_getattr_eq (r : row) (k : string) (v : pyval) :
  negb (hasattr model k) || sat r (getattr_eq model k v) = true
  ↔ (k ∈ attrs model → col k r = v)
    ∧ (k ∉ attrs model →
       from_option (λ a, ca_equals a v) true (others model !! k) = true).
Proof.
  unfold hasattr, getattr_eq.
  destruct (decide (k ∈ attrs model)) as [Hin|Hin].
  - rewrite (bool_decide_eq_true_2 _ Hin). simpl. rewrite bool_decide_eq_true.
    tauto.
  - rewrite (bool_decide_eq_false_2 _ Hin). simpl.
    destruct (others model !! k) as [a|]; simpl; tauto.
Qed.

End ClassAttributes.

Section Statements.
Import Py Repo.
Variable model : Model.

Lemma forallb_snoc {A} (f : A → bool) (l : list A) (x : A) :
  forallb f (l ++ [x]) = forallb f l && f x.
Proof. rewrite forallb_app. simpl. by rewrite andb_true_r. Qed.

(** The statement built by [_build_select_stmt] has no window, and a row
    satisfies its conditions exactly when it passes the soft-delete
    filter and fits the filters on the names the class has. *)
Lemma build_select_stmt_spec (include_deleted : bool) (filters : row) :
  offset_ (_build_select_stmt model include_deleted filters) = None
  ∧ limit_ (_build_select_stmt model include_deleted filters) = None
  ∧ ∀ r, forallb (sat r) (wheres (_build_select_stmt model include_deleted filters))
         = visible model include_deleted r && fits model filters r.
Proof.
  unfold _build_select_stmt.
  apply (map_fold_weak_ind
           (λ s m, offset_ s = None ∧ limit_ s = None
                   ∧ ∀ r, forallb (sat r) (wheres s)
                          = visible model include_deleted r && fits model m r)).
  - assert (Hfit : ∀ r, fits model ∅ r = true).
    { intros r. apply bool_decide_eq_true. apply map_Forall_empty. }
    unfold visible.
    destruct include_deleted, (hasattr model "is_deleted") eqn:Hflag; simpl;
      rewrite ?(getattr_eq_flag model _ Hflag);
      split_and!; try done; intros r; rewrite Hfit; simpl;
      by rewrite ?andb_true_r.
  - intros k v m s Hk (Ho & Hl & Hs).
    assert (Hfit : ∀ r, fits model (<[k:=v]> m) r
                        = fits model m r
                          && (negb (hasattr model k) || sat r (getattr_eq model k v))).
    { intros r. apply eq_true_iff_eq.
      rewrite andb_true_iff, sat_getattr_eq. unfold fits.
      rewrite !bool_decide_eq_true, map_Forall_insert by done. tauto. }
    destruct (hasattr model k) eqn:Hattr; simpl; split_and!; try done.
    + intros r. rewrite forallb_snoc, Hs, Hfit. simpl.
      by rewrite andb_assoc.
    + intros r. rewrite Hs, Hfit. simpl. by rewrite andb_true_r.
Qed.

Lemma run_build_select_stmt (include_deleted : bool) (filters : row) rows :
  run_stmt (_build_select_stmt model include_deleted filters) rows
  = chosen model include_deleted filters rows.
Proof.
  destruct (build_select_stmt_spec include_deleted filters) as (Ho & Hl & Hs).
  unfold run_stmt, window, matching, chosen. rewrite Ho, Hl.
  by apply filter_ext.
Qed.

Lemma run_build_select_stmt_id (include_deleted : bool) (filters : row) i rows :
  run_stmt (where_ (Eq "id" i) (_build_select_stmt model include_deleted filters)) rows
  = List.filter (has_id i) (chosen model include_deleted filters rows).
Proof.
  destruct (build_select_stmt_spec include_deleted filters) as (Ho & Hl & Hs).
  unfold run_stmt, window, matching, chosen. simpl. rewrite Ho, Hl.
  induction rows as [|r rows IH]; [done|]. simpl.
  rewrite forallb_snoc, Hs. simpl.
  destruct (visible _ _ _ && fits _ _ _); simpl; [|done].
  unfold has_id at 1. destruct (bool_decide _); simpl; by rewrite IH.
Qed.

Lemma run_build_select_stmt_window (include_deleted : bool) (filters : row)
    (skip lim : Z) rows :
  run_stmt (limit lim (offset skip (_build_select_stmt model include_deleted filters))) rows
  = take (Z.to_nat lim) (drop (Z.to_nat skip) (chosen model include_deleted filters rows)).
Proof.
  rewrite <- run_build_select_stmt.
  destruct (build_select_stmt_spec include_deleted filters) as (Ho & Hl & _).
  unfold run_stmt at 1. unfold window, matching. simpl.
  unfold run_stmt, window. by rewrite Ho, Hl.
Qed.

(** What a flagged record means for the soft-delete filter. *)
Lemma visible_flagged (r : row) :
  hasattr model "is_deleted" = true → flagged r = true →
  visible model false r = false ∧ visible model true r = true.
Proof.
  unfold visible, flagged. intros -> H. simpl. split; [|done].
  apply bool_decide_eq_true in H. apply bool_decide_eq_false. congruence.
Qed.

Lemma chosen_not_flagged (filters : row) rows (r : row) :
  hasattr model "is_deleted" = true →
  r ∈ chosen model false filters rows → flagged r = false.
Proof.
  intros Hattr Hin. apply list_elem_of_In, filter_In in Hin as [_ H].
  apply andb_true_iff in H as [H _].
  destruct (flagged r) eqn:E; [|done].
  destruct (visible_flagged r Hattr E). congruence.
Qed.

Lemma chosen_include_deleted (filters : row) rows (r : row) :
  r ∈ rows → fits model filters r = true → r ∈ chosen model true filters rows.
Proof.
  intros Hin Hfit. apply list_elem_of_In, filter_In. split.
  - by apply list_elem_of_In.
  - by rewrite Hfit.
Qed.

End Statements.

(** Unfolding a session on a calm engine. *)
Ltac run_session :=
  unfold calm, after, Repo.get_session, Repo.try_except, Repo.finally,
    Repo.db_exec, Repo.db_count, Repo.db_get, Repo.db_commit, Repo.db_delete,
    Repo.db_refresh, Repo.db_setattr, Repo.db_rollback, Repo._handle_db_error,
    Repo.discard, Repo.persist, Repo.bind, Repo.emit, Repo.storage_call,
    Repo.read_table, Repo.read_pending, Repo.read_added, Repo.write_pending,
    Repo.write_added, Repo.ret, Repo.raise;
  simpl; rewrite <- ?app_assoc; simpl.

Section CalmReads.
Import Py Repo.
Variable model : Model.

Lemma get_calm (i : pyval) (incl : bool) (filters : row) t p a l :
  get model i incl filters (calm t p a l)
  = (Done (head (List.filter (has_id i) (chosen model incl filters t))),
     after t l [Acquire; Exec; Release]).
Proof.
  unfold get. run_session. by rewrite run_build_select_stmt_id.
Qed.

Lemma get_one_calm (kwargs : row) t p a l :
  get_one model kwargs (calm t p a l)
  = (Done (head (chosen model
                   (from_option truthy false (kwargs !! "include_deleted"))
                   (delete "include_deleted" kwargs) t)),
     after t l [Acquire; Exec; Release]).
Proof.
  unfold get_one, _build_select_stmt_kw. run_session.
  by rewrite run_build_select_stmt.
Qed.

Lemma get_many_calm (skip lim : Z) (incl : bool) (filters : row) t p a l :
  get_many model skip lim incl filters (calm t p a l)
  = (Done (take (Z.to_nat lim) (drop (Z.to_nat skip) (chosen model incl filters t))),
     after t l [Acquire; Exec; Release]).
Proof.
  unfold get_many. run_session. by rewrite run_build_select_stmt_window.
Qed.

Lemma count_calm (incl : bool) (filters : row) t p a l :
  count model incl filters (calm t p a l)
  = (Done (Z.of_nat (length (chosen model incl filters t))),
     after t l [Acquire; Exec; Release]).
Proof.
  unfold count. run_session. by rewrite run_build_select_stmt.
Qed.

Lemma list_calm (page per_page : Z) (incl : bool) (filters : row) t p a l :
  let pg := if page <? 1 then 1 else page in
  let pp := if (per_page <? 1) || (per_page >? 100) then 10 else per_page in
  let sel := chosen model incl filters t in
  list_ model page per_page incl filters (calm t p a l)
  = (Done (mkPaginatedResponse true
             (take (Z.to_nat pp) (drop (Z.to_nat ((pg - 1) * pp)) sel))
             (Z.of_nat (length sel)) pg pp
             ((Z.of_nat (length sel) + pp - 1) / pp)
             "Items retrieved successfully"),
     after t l [Acquire; Exec; Exec; Release]).
Proof.
  intros pg pp sel. unfold list_. fold pg pp. run_session.
  by rewrite run_build_select_stmt_window, run_build_select_stmt.
Qed.

Lemma head_ids_filter (i : pyval) (q : row → bool) (t : list row) :
  head (map (col "id") (List.filter (λ r, has_id i r && q r) t))
  = if existsb (λ r, has_id i r && q r) t then Some i else None.
Proof.
  induction t as [|r t IH]; [done|]. simpl.
  destruct (has_id i r) eqn:E; simpl; [|done].
  destruct (q r); simpl; [|done].
  apply bool_decide_eq_true in E. by rewrite E.
Qed.

Lemma exists_calm (i : pyval) (incl : bool) t p a l :
  exists_ model i incl (calm t p a l)
  = (Done (negb (bool_decide (i = VNone))
           && existsb (λ r, has_id i r && visible model incl r) t),
     after t l [Acquire; Exec; Release]).
Proof.
  unfold exists_. run_session. f_equal. f_equal.
  assert (Hrun :
    run_stmt (if negb incl && hasattr model "is_deleted"
              then where_ (getattr_eq model "is_deleted" (VBool false))
                     (where_ (Eq "id" i) select)
              else where_ (Eq "id" i) select) t
    = List.filter (λ r, has_id i r && visible model incl r) t).
  { unfold run_stmt, window, matching, visible, has_id.
    destruct incl, (hasattr model "is_deleted") eqn:Hflag; simpl;
      rewrite ?(getattr_eq_flag model _ Hflag);
      apply filter_ext; intros r; simpl; by rewrite ?andb_true_r. }
  rewrite Hrun, head_ids_filter.
  destruct (existsb _ t); [|by rewrite andb_false_r].
  by rewrite andb_true_r.
Qed.

End CalmReads.

(** C2: [list] clamps a page below 1 to 1 and resets a page size outside
    1..100 to 10; on an engine that answers normally it returns the window
    of at most [per_page] records that starts at offset
    [(page - 1) * per_page] of the selected records, their total number,
    and [pages], the ceiling of [total / per_page]. *)
Theorem C2_list_pagination (model : Repo.Model) (page per_page : Z)
    (include_deleted : bool) (filters : Repo.row)
    (t p a : list Repo.row) (l : list Repo.event) :
  let pg := clamp_page page in
  let pp := reset_per_page per_page in
  let sel := chosen model include_deleted filters t in
  ∃ resp,
    (Repo.list_ model page per_page include_deleted filters (calm t p a l)).1
    = Repo.Done resp
    ∧ Repo.page resp = pg ∧ Repo.per_page resp = pp
    ∧ (page < 1 → pg = 1) ∧ (1 ≤ page → pg = page)
    ∧ (per_page < 1 ∨ 100 < per_page → pp = 10)
    ∧ (1 ≤ per_page ≤ 100 → pp = per_page)
    ∧ reset_per_page 0 = 10 ∧ reset_per_page 101 = 10 ∧ reset_per_page (-1) = 10
    ∧ Repo.total resp = Z.of_nat (length sel)
    ∧ Repo.data resp = take (Z.to_nat pp) (drop (Z.to_nat ((pg - 1) * pp)) sel)
    ∧ Z.of_nat (length (Repo.data resp)) ≤ pp
    ∧ (Repo.pages resp - 1) * pp < Repo.total resp ≤ Repo.pages resp * pp.
Proof.
  intros pg pp sel.
  assert (Hpg : (if page <? 1 then 1 else page) = pg).
  { unfold pg, clamp_page. destruct (Z.ltb_spec page 1); lia. }
  assert (Hpp : (if (per_page <? 1) || (per_page >? 100) then 10 else per_page) = pp).
  { unfold pp, reset_per_page. case_bool_decide;
      destruct (Z.ltb_spec per_page 1), (Z.gtb_spec per_page 100); simpl; lia. }
  assert (Hrange : 1 ≤ pp ≤ 100).
  { unfold pp, reset_per_page. case_bool_decide; lia. }
  eexists. rewrite list_calm, Hpg, Hpp. split; [reflexivity|]. simpl.
  split_and!; try done.
  - unfold pg, clamp_page. lia.
  - unfold pg, clamp_page. lia.
  - unfold pp, reset_per_page. case_bool_decide; lia.
  - unfold pp, reset_per_page. case_bool_decide; lia.
  - rewrite length_take. lia.
  - fold sel. pose proof (Z.div_mod (Z.of_nat (length sel) + pp - 1) pp ltac:(lia)).
    pose proof (Z.mod_pos_bound (Z.of_nat (length sel) + pp - 1) pp ltac:(lia)). nia.
  - fold sel. pose proof (Z.div_mod (Z.of_nat (length sel) + pp - 1) pp ltac:(lia)).
    pose proof (Z.mod_pos_bound (Z.of_nat (length sel) + pp - 1) pp ltac:(lia)). nia.
Qed.

(** ** Repository: writes on a calm engine *)

Section CalmWrites.
Import Py Repo.
Variable model : Model.

Lemma find_pk_missing (i : pyval) (t : list row) :
  missing i t → find_pk i t = None.
Proof.
  intros Hm. unfold find_pk. case_bool_decide as Hn; [done|].
  induction Hm as [|r t Hr _ IH]; [done|]. simpl.
  by rewrite bool_decide_eq_false_2.
Qed.

Lemma find_pk_Some (i : pyval) (t : list row) (r : row) :
  find_pk i t = Some r → i ≠ VNone ∧ r ∈ t ∧ col "id" r = i.
Proof.
  unfold find_pk. case_bool_decide as Hn; [done|]. intros Hh. split; [done|].
  induction t as [|r' t IH]; [done|]. simpl in Hh.
  case_bool_decide as E.
  - injection Hh as <-. split; [by left | done].
  - destruct (IH Hh). split; [by right | done].
Qed.

Lemma col_insert_same (k : string) (v : pyval) (r : row) :
  v ≠ VNone → col k r = v → <[k := v]> r = r.
Proof.
  unfold col. intros Hv H. apply insert_id.
  destruct (r !! k); simpl in H; congruence.
Qed.

Lemma update_empty_raises i o eu w :
  delete "id" (dump o eu) = ∅ →
  update model i o eu w
  = (Raised (RepositoryError "No data provided for update" None), w).
Proof. intros H. unfold update. by rewrite bool_decide_eq_true_2. Qed.

Lemma update_calm_missing i o eu t p a l :
  find_pk i t = None → delete "id" (dump o eu) ≠ ∅ →
  update model i o eu (calm t p a l) = (Done None, after t l [Acquire; Get; Release]).
Proof.
  intros Hf He. unfold update. rewrite bool_decide_eq_false_2 by done.
  run_session. rewrite Hf. simpl. by rewrite <- ?app_assoc.
Qed.

Lemma soft_delete_calm_missing i t p a l :
  hasattr model "is_deleted" = true → find_pk i t = None →
  soft_delete model i (calm t p a l) = (Done false, after t l [Acquire; Get; Release]).
Proof. intros Ha Hf. unfold soft_delete. rewrite Ha. run_session. rewrite Hf. simpl. by rewrite <- ?app_assoc. Qed.

Lemma restore_calm_missing i t p a l :
  hasattr model "is_deleted" = true → find_pk i t = None →
  restore model i (calm t p a l) = (Done false, after t l [Acquire; Get; Release]).
Proof. intros Ha Hf. unfold restore. rewrite Ha. run_session. rewrite Hf. simpl. by rewrite <- ?app_assoc. Qed.

Lemma force_delete_calm_missing i t p a l :
  find_pk i t = None →
  force_delete i (calm t p a l) = (Done false, after t l [Acquire; Get; Release]).
Proof. intros Hf. unfold force_delete. run_session. rewrite Hf. simpl. by rewrite <- ?app_assoc. Qed.

Lemma force_delete_calm_found i r t p a l :
  find_pk i t = Some r →
  force_delete i (calm t p a l)
  = (Done true, after (without i t) l [Acquire; Get; Delete; Commit; Release]).
Proof.
  intros Hf. unfold force_delete. run_session. rewrite Hf. simpl.
  rewrite <- ?app_assoc. simpl. by rewrite app_nil_r.
Qed.

Lemma restore_calm_found i r t p a l :
  hasattr model "is_deleted" = true → find_pk i t = Some r →
  restore model i (calm t p a l)
  = (Done true,
     after (rewrite_at i (λ r, <["is_deleted" := VBool false]> r) t) l
       [Acquire; Get; Commit; Release]).
Proof.
  intros Ha Hf. unfold restore, setattr_. rewrite Ha.
  rewrite (bool_decide_eq_true_2 _ (flag_is_field model Ha)).
  run_session. rewrite Hf. simpl.
  rewrite <- ?app_assoc. simpl. by rewrite app_nil_r.
Qed.

Lemma soft_delete_calm_found i r t p a l :
  hasattr model "is_deleted" = true → find_pk i t = Some r →
  soft_delete model i (calm t p a l)
  = (Done true,
     after (rewrite_at i (λ r, <["is_deleted" := VBool true]> r) t) l
       [Acquire; Get; Commit; Release]).
Proof.
  intros Ha Hf. unfold soft_delete, setattr_. rewrite Ha.
  rewrite (bool_decide_eq_true_2 _ (flag_is_field model Ha)).
  run_session. rewrite Hf. simpl.
  rewrite <- ?app_assoc. simpl. by rewrite app_nil_r.
Qed.

Lemma without_no_id i t : missing i (without i t).
Proof.
  unfold missing, without. apply Forall_forall. intros r Hin.
  apply list_elem_of_In, filter_In in Hin as [_ Hn]. apply negb_true_iff in Hn.
  by apply bool_decide_eq_false in Hn.
Qed.

(** Rewriting with a function that fixes the records it meets changes
    nothing. *)
Lemma rewrite_at_fixed i (f : row → row) t :
  (∀ r, r ∈ t → col "id" r = i → f r = r) → rewrite_at i f t = t.
Proof.
  intros H. unfold rewrite_at. induction t as [|r t IH]; [done|]. simpl.
  rewrite IH by (intros; apply H; [by right | done]). f_equal.
  unfold has_id. case_bool_decide; [|done]. apply H; [by left | done].
Qed.

Lemma find_pk_rewrite_at i (f : row → row) t :
  (∀ r, col "id" (f r) = col "id" r) →
  find_pk i (rewrite_at i f t) = f <$> find_pk i t.
Proof.
  intros Hf. unfold find_pk. case_bool_decide; [done|].
  unfold rewrite_at. induction t as [|r t IH]; [done|]. simpl.
  destruct (has_id i r) eqn:E.
  - rewrite Hf. unfold has_id in E. by rewrite E.
  - unfold has_id in E. by rewrite E.
Qed.

Lemma rewrite_at_twice i (f : row → row) t :
  (∀ r, col "id" (f r) = col "id" r) → (∀ r, f (f r) = f r) →
  rewrite_at i f (rewrite_at i f t) = rewrite_at i f t.
Proof.
  intros Hid Hf. unfold rewrite_at. rewrite map_map. apply map_ext.
  intros r. destruct (has_id i r) eqn:E.
  - unfold has_id in *. by rewrite Hid, E, Hf.
  - by rewrite E.
Qed.

End CalmWrites.

(** C3: for an entity type that declares the soft-delete flag, on an engine
    that answers normally, [get], [get_one], [get_many], [list], [count]
    and [exists] work on the selected records only; the selection never
    contains a flagged record when [include_deleted] is false and contains
    every record that fits the filters, flagged or not, when it is true;
    [force_delete] removes the records stored under the identifier whatever
    their flag. *)
Theorem C3_soft_delete_filter (model : Repo.Model)
    (t p a : list Repo.row) (l : list Repo.event) :
  Repo.hasattr model "is_deleted" = true →
  (∀ i incl filters,
      (Repo.get model i incl filters (calm t p a l)).1
      = Repo.Done (head (List.filter (has_id i) (chosen model incl filters t))))
  ∧ (∀ kwargs,
      (Repo.get_one model kwargs (calm t p a l)).1
      = Repo.Done (head (chosen model
                           (from_option Py.truthy false (kwargs !! "include_deleted"))
                           (delete "include_deleted" kwargs) t)))
  ∧ (∀ (skip lim : nat) incl filters,
      (Repo.get_many model (Z.of_nat skip) (Z.of_nat lim) incl filters (calm t p a l)).1
      = Repo.Done (take lim (drop skip (chosen model incl filters t))))
  ∧ (∀ page per_page incl filters,
      ∃ resp,
        (Repo.list_ model page per_page incl filters (calm t p a l)).1 = Repo.Done resp
        ∧ Repo.total resp = Z.of_nat (length (chosen model incl filters t))
        ∧ Repo.data resp ⊆ chosen model incl filters t)
  ∧ (∀ incl filters,
      (Repo.count model incl filters (calm t p a l)).1
      = Repo.Done (Z.of_nat (length (chosen model incl filters t))))
  ∧ (∀ i incl,
      (Repo.exists_ model i incl (calm t p a l)).1
      = Repo.Done (negb (bool_decide (i = Py.VNone))
                   && existsb (λ r, has_id i r && visible model incl r) t))
  ∧ (∀ filters r, r ∈ chosen model false filters t → flagged r = false)
  ∧ (∀ filters r, r ∈ t → fits model filters r = true →
                  r ∈ chosen model true filters t)
  ∧ (∀ r, flagged r = true →
          visible model false r = false ∧ visible model true r = true)
  ∧ (∀ i r, Repo.find_pk i t = Some r →
            Repo.force_delete i (calm t p a l)
            = (Repo.Done true,
               after (without i t) l
                 [Repo.Acquire; Repo.Get; Repo.Delete; Repo.Commit; Repo.Release])
            ∧ missing i (without i t)).
Proof.
  intros Hattr. split_and!.
  - intros. by rewrite get_calm.
  - intros. by rewrite get_one_calm.
  - intros. by rewrite get_many_calm, !Nat2Z.id.
  - intros. eexists. rewrite list_calm. simpl. split_and!; [done..|].
    intros r Hr. by eapply subseteq_drop, subseteq_take.
  - intros. by rewrite count_calm.
  - intros. by rewrite exists_calm.
  - intros filters r. by apply chosen_not_flagged.
  - intros filters r. by apply chosen_include_deleted.
  - intros r. by apply visible_flagged.
  - intros i r Hf. split; [by eapply force_delete_calm_found | apply without_no_id].
Qed.

(** C5: [update] with a change-set that is empty once the identifier key
    is removed raises [RepositoryError] and leaves the world as it was: no
    session is acquired, nothing is read or written. *)
Theorem C5_update_empty_change_set (model : Repo.Model) (i : Py.pyval)
    (o : Repo.obj_in) (exclude_unset : bool) (w : Repo.World) :
  delete "id" (Repo.dump o exclude_unset) = ∅ →
  Repo.update model i o exclude_unset w
  = (Repo.Raised (Repo.RepositoryError "No data provided for update" None), w)
  ∧ Repo.log (Repo.update model i o exclude_unset w).2 = Repo.log w
  ∧ Repo.table (Repo.update model i o exclude_unset w).2 = Repo.table w.
Proof.
  intros H. by rewrite update_empty_raises.
Qed.

(** C6, as worded, fails: with an empty change-set [update] raises for an
    identifier that matches nothing. *)
Lemma C6_update_raises_on_empty_change_set : ¬ not_found_as_specified.
Proof.
  intros H.
  destruct (H example_model (Py.VInt 1) (Repo.Dict ∅) true [] [] [] [])
    as [Hu _]; [by constructor|].
  vm_compute in Hu. discriminate.
Qed.

(** C6 (amended): for an identifier that matches no stored record, on an
    engine that answers normally, [update] with a non-empty change-set
    returns absent, [soft_delete] and [restore] on an entity type that
    declares the flag return false, and [force_delete] returns false; none
    raises and the committed rows are unchanged. *)
Theorem C6_missing_id_is_not_found (model : Repo.Model) (i : Py.pyval)
    (t p a : list Repo.row) (l : list Repo.event) :
  missing i t →
  (∀ o exclude_unset,
      delete "id" (Repo.dump o exclude_unset) ≠ ∅ →
      Repo.update model i o exclude_unset (calm t p a l)
      = (Repo.Done None, after t l [Repo.Acquire; Repo.Get; Repo.Release]))
  ∧ (Repo.hasattr model "is_deleted" = true →
     Repo.soft_delete model i (calm t p a l)
     = (Repo.Done false, after t l [Repo.Acquire; Repo.Get; Repo.Release])
     ∧ Repo.restore model i (calm t p a l)
       = (Repo.Done false, after t l [Repo.Acquire; Repo.Get; Repo.Release]))
  ∧ Repo.force_delete i (calm t p a l)
    = (Repo.Done false, after t l [Repo.Acquire; Repo.Get; Repo.Release]).
Proof.
  intros Hm. apply find_pk_missing in Hm. split_and!.
  - intros. by apply update_calm_missing.
  - intros Ha. split; [by apply soft_delete_calm_missing | by apply restore_calm_missing].
  - by apply force_delete_calm_missing.
Qed.

(** C9: [restore] on a stored record whose flag is already false returns
    true and leaves the committed rows as they were; restoring twice
    leaves the rows as restoring once does. *)
Theorem C9_restore_idempotent (model : Repo.Model) (i : Py.pyval) (r : Repo.row)
    (t p a : list Repo.row) (l : list Repo.event) :
  Repo.hasattr model "is_deleted" = true →
  Repo.find_pk i t = Some r →
  ((∀ r', r' ∈ t → Repo.col "id" r' = i → Repo.col "is_deleted" r' = Py.VBool false) →
   Repo.restore model i (calm t p a l)
   = (Repo.Done true,
      after t l [Repo.Acquire; Repo.Get; Repo.Commit; Repo.Release]))
  ∧ (let once := Repo.restore model i (calm t p a l) in
     let twice := Repo.restore model i once.2 in
     once.1 = Repo.Done true ∧ twice.1 = Repo.Done true
     ∧ Repo.table twice.2 = Repo.table once.2).
Proof.
  intros Ha Hf. split.
  - intros Hflag. rewrite (restore_calm_found model i r) by done.
    rewrite rewrite_at_fixed; [done|].
    intros r' Hin Hid. apply col_insert_same; [done | by apply Hflag].
  - cbn zeta. rewrite (restore_calm_found model i r) by done. simpl.
    unfold after.
    assert (Hid : ∀ r0 : Repo.row,
      Repo.col "id" (<["is_deleted" := Py.VBool false]> r0) = Repo.col "id" r0).
    { intros r0. unfold Repo.col. by rewrite lookup_insert_ne. }
    pose proof (find_pk_rewrite_at i (λ r, <["is_deleted" := Py.VBool false]> r) t Hid)
      as Hf'.
    rewrite Hf in Hf'. simpl in Hf'.
    pose proof (restore_calm_found model i _
                  (rewrite_at i (λ r, <["is_deleted" := Py.VBool false]> r) t)
                  (rewrite_at i (λ r, <["is_deleted" := Py.VBool false]> r) t)
                  [] (l ++ [Repo.Acquire; Repo.Get; Repo.Commit; Repo.Release])
                  Ha Hf') as Hrun.
    unfold calm in Hrun. rewrite Hrun. simpl. split_and!; [done..|].
    apply rewrite_at_twice; [done|]. intros r0. apply insert_insert_eq.
Qed.

(** ** Repository: keys that name nothing the class has *)

Section UndeclaredKeys.
Import Py Repo.
Variable model : Model.

Lemma fits_delete (k : string) (filters r : row) :
  hasattr model k = false → fits model (delete k filters) r = fits model filters r.
Proof.
  intros Hk. apply hasattr_false in Hk as [Hk Ho]. unfold fits.
  apply bool_decide_ext. split.
  - intros H j v Hj. destruct (decide (j = k)) as [->|Hne].
    + rewrite Ho. done.
    + apply (H j v). by rewrite lookup_delete_ne.
  - apply map_Forall_delete.
Qed.

Lemma chosen_delete (k : string) (incl : bool) (filters : row) rows :
  hasattr model k = false →
  chosen model incl (delete k filters) rows = chosen model incl filters rows.
Proof.
  intros Hk. unfold chosen. apply filter_ext. intros r. by rewrite fits_delete.
Qed.

(** Statements that select the same rows run alike. *)
Lemma db_exec_ext (s1 s2 : Stmt) :
  (∀ rows, run_stmt s1 rows = run_stmt s2 rows) → ∀ w, db_exec s1 w = db_exec s2 w.
Proof.
  intros H w. unfold db_exec, bind, read_pending, ret.
  destruct (storage_call Exec w) as [[[]|e] w']; [|done]. by rewrite H.
Qed.

Lemma db_count_ext (s1 s2 : Stmt) :
  (∀ rows, run_stmt s1 rows = run_stmt s2 rows) → ∀ w, db_count s1 w = db_count s2 w.
Proof.
  intros H w. unfold db_count, bind, read_pending, ret.
  destruct (storage_call Exec w) as [[[]|e] w']; [|done]. by rewrite H.
Qed.

Lemma patch_id (data r : row) : col "id" (patch model data r) = col "id" r.
Proof.
  unfold col, patch. rewrite lookup_union_r; [done|].
  apply map_lookup_filter_None. right. intros v _ [_ H]. by apply H.
Qed.

Lemma patch_insert_declared (k : string) (v : pyval) (data r : row) :
  k ∈ attrs model → k ≠ "id" →
  patch model (<[k := v]> data) r = <[k := v]> (patch model data r).
Proof.
  intros Hk Hne. unfold patch.
  by rewrite map_filter_insert_True, insert_union_l.
Qed.

Lemma patch_insert_skipped (k : string) (v : pyval) (data r : row) :
  ¬ (k ∈ attrs model ∧ k ≠ "id") →
  patch model (<[k := v]> data) r = patch model (delete k data) r.
Proof.
  intros Hk. unfold patch. by rewrite map_filter_insert_False.
Qed.

Lemma patch_delete (k : string) (data r : row) :
  hasattr model k = false → patch model (delete k data) r = patch model data r.
Proof.
  intros Hk. apply hasattr_false in Hk as [Hk _]. unfold patch.
  rewrite map_filter_delete_not; [done|]. intros y _ [Ha _]. done.
Qed.

Lemma patch_delete_id (data r : row) :
  patch model (delete "id" data) r = patch model data r.
Proof.
  unfold patch. rewrite map_filter_delete_not; [done|]. intros y _ [_ Hne]. done.
Qed.

Lemma patch_empty (r : row) : patch model ∅ r = r.
Proof. unfold patch. by rewrite map_filter_empty, (left_id_L ∅ (∪)). Qed.

Lemma refused_id (v : pyval) : refused model "id" v = false.
Proof. unfold refused. by rewrite andb_false_r. Qed.

Lemma refused_unknown (k : string) (v : pyval) :
  hasattr model k = false → refused model k v = false.
Proof.
  intros Hk. apply hasattr_false in Hk as [_ Ho]. unfold refused.
  rewrite Ho. simpl. by rewrite andb_false_r.
Qed.

Lemma assignable_delete (k : string) (data : row) :
  (∀ v, refused model k v = false) →
  assignable model (delete k data) ↔ assignable model data.
Proof.
  intros Hk. unfold assignable. split; [|apply map_Forall_delete].
  intros H j v Hj. destruct (decide (j = k)) as [->|Hne]; [apply Hk|].
  apply (H j v). by rewrite lookup_delete_ne.
Qed.

(** The world [apply_update] leaves when it completes. *)
Lemma patched_empty (pk : pyval) (w : World) :
  mkWorld (table w) (rewrite_at pk (patch model ∅) (pending w))
    (added w) (plan w) (log w) = w.
Proof.
  destruct w as [t p a pl l]. unfold rewrite_at. simpl. f_equal.
  rewrite <- (map_id p) at 2. apply map_ext. intros r.
  rewrite patch_empty. by destruct (has_id pk r).
Qed.

(** The loop of [update] rewrites the loaded record by [patch], unless
    an assignment is refused: then it raises, having changed at most
    what the session holds. *)
Lemma apply_update_spec (pk : pyval) (data : row) (w : World) :
  (assignable model data
   ∧ apply_update model pk data w
     = (Done tt,
        mkWorld (table w) (rewrite_at pk (patch model data) (pending w))
          (added w) (plan w) (log w)))
  ∨ (¬ assignable model data
     ∧ ∃ p', apply_update model pk data w
             = (Raised SetattrError,
                mkWorld (table w) p' (added w) (plan w) (log w))).
Proof.
  unfold apply_update. revert w.
  apply (map_fold_weak_ind
           (λ (acc : M unit) (m : row), ∀ w,
              (assignable model m
               ∧ acc w = (Done tt,
                          mkWorld (table w) (rewrite_at pk (patch model m) (pending w))
                            (added w) (plan w) (log w)))
              ∨ (¬ assignable model m
                 ∧ ∃ p', acc w = (Raised SetattrError,
                                  mkWorld (table w) p' (added w) (plan w) (log w))))).
  - intros w. left. split; [apply map_Forall_empty|].
    unfold ret. by rewrite patched_empty.
  - intros k v m acc Hk IH w. unfold bind.
    destruct (IH w) as [[Hm Hacc]|[Hm (p' & Hacc)]]; rewrite Hacc.
    2:{ right. split; [|by exists p'].
        intros H. apply Hm. by apply map_Forall_insert_1_2 in H. }
    unfold assignable. rewrite map_Forall_insert by done.
    destruct (hasattr model k && negb (bool_decide (k = "id"))) eqn:E.
    + apply andb_true_iff in E as [Ha Hne].
      apply negb_true_iff, bool_decide_eq_false in Hne.
      unfold setattr_, refused. case_bool_decide as Hin; simpl.
      * left. split; [done|].
        unfold db_setattr, bind, read_pending, write_pending. simpl.
        do 2 f_equal. unfold rewrite_at. rewrite map_map. apply map_ext.
        intros r. destruct (has_id pk r) eqn:Hid.
        -- unfold has_id in Hid. rewrite patch_id, Hid.
           by rewrite patch_insert_declared.
        -- unfold has_id in Hid. by rewrite Hid.
      * rewrite (bool_decide_eq_false_2 (k = "id")) by done. simpl.
        destruct (from_option _ true (others model !! k)); simpl.
        -- left. split; [done|]. unfold ret. do 2 f_equal.
           unfold rewrite_at. apply map_ext. intros r.
           rewrite patch_insert_skipped by tauto. by rewrite delete_id.
        -- right. split; [by intros [? _]|]. by eexists.
    + left. split.
      * split; [|done]. apply andb_false_iff in E as [E|E].
        -- by apply refused_unknown.
        -- apply negb_false_iff, bool_decide_eq_true in E as ->. apply refused_id.
      * unfold ret. do 2 f_equal. unfold rewrite_at. apply map_ext. intros r.
        rewrite patch_insert_skipped; [by rewrite delete_id|].
        intros [Hin Hne]. apply andb_false_iff in E as [E|E].
        -- apply hasattr_false in E as [E _]. done.
        -- by apply negb_false_iff, bool_decide_eq_true in E.
Qed.

Lemma apply_update_done (pk : pyval) (data : row) (w : World) :
  assignable model data →
  apply_update model pk data w
  = (Done tt,
     mkWorld (table w) (rewrite_at pk (patch model data) (pending w))
       (added w) (plan w) (log w)).
Proof. intros H. by destruct (apply_update_spec pk data w) as [[_ ?]|[? _]]. Qed.

Lemma apply_update_refused (pk : pyval) (data : row) (w : World) :
  ¬ assignable model data →
  ∃ p', apply_update model pk data w
        = (Raised SetattrError, mkWorld (table w) p' (added w) (plan w) (log w)).
Proof. intros H. by destruct (apply_update_spec pk data w) as [[? _]|[_ ?]]. Qed.

Lemma update_calm_found i o eu r t p a l :
  find_pk i t = Some r → delete "id" (dump o eu) ≠ ∅ →
  assignable model (dump o eu) →
  update model i o eu (calm t p a l)
  = (Done (Some (patch model (dump o eu) r)),
     after (rewrite_at i (patch model (dump o eu)) t) l
       [Acquire; Get; Commit; Refresh; Release]).
Proof.
  intros Hf He Hok. unfold update. rewrite bool_decide_eq_false_2 by done.
  unfold calm, after, get_session, try_except, finally, bind at 1 2 3.
  unfold emit, discard. simpl. unfold db_get, bind at 1 2 3, storage_call, read_pending, ret.
  simpl. rewrite Hf. unfold bind at 1.
  rewrite apply_update_done
    by (by apply (proj2 (assignable_delete "id" _ refused_id))).
  simpl.
  unfold db_commit, db_refresh, bind, storage_call, read_pending, read_added,
    read_table, persist, ret. simpl.
  rewrite app_nil_r, <- !app_assoc. simpl.
  assert (Heq : rewrite_at i (patch model (delete "id" (dump o eu))) t
                = rewrite_at i (patch model (dump o eu)) t).
  { unfold rewrite_at. apply map_ext. intros r0. by rewrite patch_delete_id. }
  rewrite Heq, find_pk_rewrite_at by apply patch_id. by rewrite Hf.
Qed.

(** A refused assignment ends [update] before anything is committed;
    nothing is rolled back and the session is released. *)
Lemma update_calm_refused i o eu r t p a l :
  find_pk i t = Some r → delete "id" (dump o eu) ≠ ∅ →
  ¬ assignable model (dump o eu) →
  update model i o eu (calm t p a l)
  = (Raised SetattrError, after t l [Acquire; Get; Release]).
Proof.
  intros Hf He Hno. unfold update. rewrite bool_decide_eq_false_2 by done.
  unfold calm, after, get_session, try_except, finally, bind at 1 2 3.
  unfold emit, discard. simpl. unfold db_get, bind at 1 2 3, storage_call, read_pending, ret.
  simpl. rewrite Hf. unfold bind at 1.
  match goal with
  | |- context [apply_update model i ?d ?w0] =>
      destruct (apply_update_refused i d w0) as [p' ->]
  end.
  { intros H. apply Hno. by apply (proj1 (assignable_delete "id" _ refused_id)). }
  simpl. by rewrite <- !app_assoc.
Qed.

End UndeclaredKeys.

Section UndeclaredFilters.
Import Py Repo.
Variable model : Model.
Variable k : string.
Hypothesis Hk : hasattr model k = false.

Lemma run_delete incl filters rows :
  run_stmt (_build_select_stmt model incl (delete k filters)) rows
  = run_stmt (_build_select_stmt model incl filters) rows.
Proof using Hk. by rewrite !run_build_select_stmt, chosen_delete. Qed.

Lemma run_delete_id incl filters i rows :
  run_stmt (where_ (Eq "id" i) (_build_select_stmt model incl (delete k filters))) rows
  = run_stmt (where_ (Eq "id" i) (_build_select_stmt model incl filters)) rows.
Proof using Hk. by rewrite !run_build_select_stmt_id, chosen_delete. Qed.

Lemma run_delete_window incl filters skip lim rows :
  run_stmt (limit lim (offset skip (_build_select_stmt model incl (delete k filters)))) rows
  = run_stmt (limit lim (offset skip (_build_select_stmt model incl filters))) rows.
Proof using Hk. by rewrite !run_build_select_stmt_window, chosen_delete. Qed.

Lemma get_delete i incl filters w :
  get model i incl (delete k filters) w = get model i incl filters w.
Proof using Hk.
  unfold get, get_session, try_except, finally, bind.
  destruct (emit Acquire w) as [[[]|?] w1]; [|done].
  destruct (discard w1) as [[[]|?] w2]; [|done].
  by rewrite (db_exec_ext _ _ (run_delete_id incl filters i)).
Qed.

Lemma get_many_delete skip lim incl filters w :
  get_many model skip lim incl (delete k filters) w
  = get_many model skip lim incl filters w.
Proof using Hk.
  unfold get_many, get_session, try_except, finally, bind.
  destruct (emit Acquire w) as [[[]|?] w1]; [|done].
  destruct (discard w1) as [[[]|?] w2]; [|done].
  by rewrite (db_exec_ext _ _ (run_delete_window incl filters skip lim)).
Qed.

Lemma count_delete incl filters w :
  count model incl (delete k filters) w = count model incl filters w.
Proof using Hk.
  unfold count, get_session, try_except, finally, bind.
  destruct (emit Acquire w) as [[[]|?] w1]; [|done].
  destruct (discard w1) as [[[]|?] w2]; [|done].
  by rewrite (db_count_ext _ _ (run_delete incl filters)).
Qed.

Lemma list_delete page per_page incl filters w :
  list_ model page per_page incl (delete k filters) w
  = list_ model page per_page incl filters w.
Proof using Hk.
  unfold list_, get_session, try_except, finally, bind.
  destruct (emit Acquire w) as [[[]|?] w1]; [|done].
  destruct (discard w1) as [[[]|?] w2]; [|done].
  rewrite (db_count_ext _ _ (run_delete incl filters)).
  destruct (db_count _ w2) as [[total|?] w3]; [|done].
  by rewrite (db_exec_ext _ _ (run_delete_window incl filters _ _)).
Qed.

Lemma get_one_delete kwargs w :
  k ≠ "include_deleted" →
  get_one model (delete k kwargs) w = get_one model kwargs w.
Proof using Hk.
  intros Hne.
  unfold get_one, _build_select_stmt_kw, get_session, try_except, finally, bind.
  destruct (emit Acquire w) as [[[]|?] w1]; [|done].
  destruct (discard w1) as [[[]|?] w2]; [|done].
  rewrite lookup_delete_ne by done. rewrite delete_delete.
  by rewrite (db_exec_ext _ _ (run_delete _ _)).
Qed.

Lemma update_delete_table i d eu t p a l :
  table (update model i (Dict (delete k d)) eu (calm t p a l)).2
  = table (update model i (Dict d) eu (calm t p a l)).2.
Proof using Hk.
  assert (Hrw : ∀ data : row, hasattr model k = false →
            rewrite_at i (patch model (delete k data)) t
            = rewrite_at i (patch model data) t).
  { intros data Hh. unfold rewrite_at. apply map_ext. intros r.
    by rewrite patch_delete. }
  assert (Hsame : ∀ data : row, filter (λ kv : string * pyval,
                      kv.1 ∈ attrs model ∧ kv.1 ≠ "id") data = ∅ →
            rewrite_at i (patch model data) t = t).
  { intros data He. apply rewrite_at_fixed. intros r _ _. unfold patch.
    by rewrite He, (left_id_L ∅ (∪)). }
  pose (ok := λ data : row,
          bool_decide (map_Forall (λ j v, refused model j v = false) data)).
  assert (Htab : ∀ data : row,
            table (update model i (Dict data) eu (calm t p a l)).2
            = if bool_decide (delete "id" data = ∅) then t
              else match find_pk i t with
                   | Some _ => if ok data then rewrite_at i (patch model data) t else t
                   | None => t
                   end).
  { intros data. case_bool_decide as He.
    - by rewrite update_empty_raises.
    - destruct (find_pk i t) as [r|] eqn:Hf.
      + unfold ok. case_bool_decide as Hok.
        * by rewrite (update_calm_found model i (Dict data) eu r t p a l Hf He Hok).
        * by rewrite (update_calm_refused model i (Dict data) eu r t p a l Hf He Hok).
      + by rewrite (update_calm_missing model i (Dict data) eu t p a l Hf He). }
  rewrite !Htab.
  assert (Hok : ok (delete k d) = ok d).
  { apply bool_decide_ext, assignable_delete. intros v. by apply refused_unknown. }
  assert (Hempty : ∀ data : row, delete "id" data = ∅ →
            filter (λ kv : string * pyval, kv.1 ∈ attrs model ∧ kv.1 ≠ "id") data = ∅).
  { intros data He. apply map_empty. intros j.
    apply map_lookup_filter_None. right. intros v Hv [_ Hne].
    assert (delete "id" data !! j = Some v) as Hd by (by rewrite lookup_delete_ne).
    rewrite He in Hd. done. }
  destruct (find_pk i t) as [r|]; [|by repeat case_bool_decide].
  rewrite Hrw, Hok by done.
  destruct (ok d); [|by repeat case_bool_decide].
  case_bool_decide as HA; case_bool_decide as HB; try done.
  - rewrite <- (Hrw d) by done. rewrite Hsame; [done|]. by apply Hempty.
  - rewrite Hsame; [done|]. by apply Hempty.
Qed.

(** A key that names no attribute at all does not change a run of
    [update], whatever the engine answers, as long as it is not the only
    key. *)
Lemma update_delete i o eu w :
  delete "id" (delete k (dump o eu)) ≠ ∅ →
  update model i o eu w = update model i (Dict (delete k (dump o eu))) eu w.
Proof using Hk.
  intros He.
  assert (He' : delete "id" (dump o eu) ≠ ∅).
  { intros H. apply He. rewrite delete_delete, H. apply delete_empty. }
  unfold update. cbn [dump].
  rewrite !bool_decide_eq_false_2 by done.
  unfold get_session, try_except, finally, bind.
  destruct (emit Acquire w) as [[[]|?] w1]; [|done].
  destruct (discard w1) as [[[]|?] w2]; [|done].
  destruct (db_get i w2) as [[[obj|]|e] w3]; [|done|done].
  assert (Hiff : assignable model (delete "id" (delete k (dump o eu)))
                 ↔ assignable model (delete "id" (dump o eu))).
  { rewrite (delete_delete _ "id" k). apply assignable_delete.
    intros v. by apply refused_unknown. }
  assert (Hpatch : ∀ r, patch model (delete "id" (delete k (dump o eu))) r
                        = patch model (delete "id" (dump o eu)) r).
  { intros r. by rewrite (delete_delete _ "id" k), patch_delete. }
  destruct (apply_update_spec model i (delete "id" (dump o eu)) w3)
    as [[Hok ->]|[Hno (p1 & ->)]].
  - rewrite apply_update_done by (by apply Hiff).
    assert (Hrw : rewrite_at i (patch model (delete "id" (delete k (dump o eu))))
                    (pending w3)
                  = rewrite_at i (patch model (delete "id" (dump o eu))) (pending w3)).
    { unfold rewrite_at. apply map_ext. intros r. by rewrite Hpatch. }
    by rewrite Hrw.
  - destruct (apply_update_refused model i
                (delete "id" (delete k (dump o eu))) w3) as [p2 ->].
    { intros H. by apply Hno, Hiff. }
    done.
Qed.

End UndeclaredFilters.

(** C10, as worded, fails on [get_one]: the keyword [include_deleted] names
    no declared attribute of the entity, yet passing it changes the
    result. *)
Lemma C10_get_one_include_deleted_not_ignored : ¬ unknown_filter_ignored_as_specified.
Proof.
  intros H.
  destruct (H example_model "include_deleted"
              {["include_deleted" := Py.VBool true]}
              (calm [deleted_row] [] [] [])
              (Py.VInt 2) false 0 10 1 10) as (_ & Hone & _);
    [compute_done|].
  vm_compute in Hone. discriminate.
Qed.

(** C10 (amended): a key for which [hasattr] is false on the entity
    class, that is a name that is neither a field nor anything else the
    class has or inherits, changes nothing as a filter in [get],
    [get_many], [list] and [count], whatever the engine answers, nor in
    [get_one] unless the key is [include_deleted], which [get_one] hands
    over as the soft-delete switch; no error is raised on its account.
    In [update] such a key leaves the committed rows as they would be
    without it, and when it is not the only key the whole run, result and
    session included, is the run without it. *)
Theorem C10_undeclared_keys_ignored (model : Repo.Model) (k : string) :
  Repo.hasattr model k = false →
  (∀ i incl filters w,
      Repo.get model i incl filters w = Repo.get model i incl (delete k filters) w)
  ∧ (∀ kwargs w,
      k ≠ "include_deleted" →
      Repo.get_one model kwargs w = Repo.get_one model (delete k kwargs) w)
  ∧ (∀ skip lim incl filters w,
      Repo.get_many model skip lim incl filters w
      = Repo.get_many model skip lim incl (delete k filters) w)
  ∧ (∀ page per_page incl filters w,
      Repo.list_ model page per_page incl filters w
      = Repo.list_ model page per_page incl (delete k filters) w)
  ∧ (∀ incl filters w,
      Repo.count model incl filters w = Repo.count model incl (delete k filters) w)
  ∧ (∀ i d exclude_unset t p a l,
      Repo.table (Repo.update model i (Repo.Dict d) exclude_unset (calm t p a l)).2
      = Repo.table
          (Repo.update model i (Repo.Dict (delete k d)) exclude_unset (calm t p a l)).2)
  ∧ (∀ i o exclude_unset w,
      delete "id" (delete k (Repo.dump o exclude_unset)) ≠ ∅ →
      Repo.update model i o exclude_unset w
      = Repo.update model i (Repo.Dict (delete k (Repo.dump o exclude_unset)))
          exclude_unset w).
Proof.
  intros Hk. split_and!.
  - intros. symmetry. by apply get_delete.
  - intros. symmetry. by apply get_one_delete.
  - intros. symmetry. by apply get_many_delete.
  - intros. symmetry. by apply list_delete.
  - intros. symmetry. by apply count_delete.
  - intros. symmetry. by apply update_delete_table.
  - intros. by apply update_delete.
Qed.

(** ** Repository: storage failures during writes *)

Section Failures.
Import Py Repo.
Local Open Scope repo_scope.

Lemma quiet_nil : quiet [].
Proof. constructor. Qed.

Lemma quiet_app evs1 evs2 : quiet evs1 → quiet evs2 → quiet (evs1 ++ evs2).
Proof. apply Forall_app_2. Qed.

Lemma quiet_one ev : (∀ e, ev ≠ Fault e) → quiet [ev].
Proof. intros H. by repeat constructor. Qed.

Lemma orderly_ret {A} (a : A) : orderly (ret a).
Proof. intros w. exists []. split; [by rewrite app_nil_r | apply quiet_nil]. Qed.

Lemma orderly_bind {A B} (m : M A) (k : A → M B) :
  orderly m → (∀ a, orderly (k a)) → orderly (bind m k).
Proof.
  intros Hm Hk w. unfold bind. specialize (Hm w).
  destruct (m w) as [[a|[e| | |]] w1]; try done.
  specialize (Hk a w1). destruct Hm as (evs1 & Hl1 & Hq1).
  destruct (k a w1) as [[b|[e| | |]] w2]; try done.
  - destruct Hk as (evs2 & Hl2 & Hq2). exists (evs1 ++ evs2).
    split; [by rewrite Hl2, Hl1, app_assoc | by apply quiet_app].
  - destruct Hk as (evs2 & Hl2 & Hq2). exists (evs1 ++ evs2).
    split; [by rewrite Hl2, Hl1, !app_assoc | by apply quiet_app].
  - destruct Hk as (evs2 & Hl2 & Hq2). exists (evs1 ++ evs2).
    split; [by rewrite Hl2, Hl1, app_assoc | by apply quiet_app].
Qed.

Lemma orderly_refusal {A} : orderly (@raise A SetattrError).
Proof. intros w. exists []. split; [by rewrite app_nil_r | apply quiet_nil]. Qed.

Lemma orderly_storage_call ev : (∀ e, ev ≠ Fault e) → orderly (storage_call ev).
Proof.
  intros Hev w. unfold storage_call. destruct (plan w) as [|[e|] pl]; simpl.
  - exists [ev]. split; [done | by apply quiet_one].
  - exists []. split; [done | apply quiet_nil].
  - exists [ev]. split; [done | by apply quiet_one].
Qed.

Lemma orderly_emit ev : (∀ e, ev ≠ Fault e) → orderly (emit ev).
Proof. intros Hev w. exists [ev]. split; [done | by apply quiet_one]. Qed.

(** Steps that leave the log alone. *)
Lemma orderly_silent {A} (m : M A) :
  (∀ w, ∃ a w', m w = (Done a, w') ∧ log w' = log w) → orderly m.
Proof.
  intros H w. destruct (H w) as (a & w' & -> & Hl).
  exists []. split; [by rewrite app_nil_r | apply quiet_nil].
Qed.

Lemma orderly_read_pending : orderly read_pending.
Proof. apply orderly_silent. intros w. by eexists _, _. Qed.
Lemma orderly_read_added : orderly read_added.
Proof. apply orderly_silent. intros w. by eexists _, _. Qed.
Lemma orderly_read_table : orderly read_table.
Proof. apply orderly_silent. intros w. by eexists _, _. Qed.
Lemma orderly_write_pending rows : orderly (write_pending rows).
Proof. apply orderly_silent. intros w. by eexists _, _. Qed.
Lemma orderly_write_added rows : orderly (write_added rows).
Proof. apply orderly_silent. intros w. by eexists _, _. Qed.
Lemma orderly_persist rows : orderly (persist rows).
Proof. apply orderly_silent. intros w. by eexists _, _. Qed.

Create HintDb orderly.
Hint Resolve orderly_ret orderly_read_pending orderly_read_added
  orderly_read_table orderly_write_pending orderly_write_added
  orderly_persist : orderly.
Hint Extern 1 (orderly (bind _ _)) => apply orderly_bind; [|intros] : orderly.
Hint Extern 1 (orderly (storage_call _)) =>
  apply orderly_storage_call; intros; discriminate : orderly.
Hint Extern 1 (orderly (emit _)) =>
  apply orderly_emit; intros; discriminate : orderly.

Lemma orderly_db_exec s : orderly (db_exec s).
Proof. unfold db_exec. auto 10 with orderly. Qed.
Lemma orderly_db_get i : orderly (db_get i).
Proof. unfold db_get. auto 10 with orderly. Qed.
Lemma orderly_db_setattr pk k v : orderly (db_setattr pk k v).
Proof. unfold db_setattr. auto 10 with orderly. Qed.
Lemma orderly_db_add obj : orderly (db_add obj).
Proof. unfold db_add. auto 10 with orderly. Qed.
Lemma orderly_db_delete pk : orderly (db_delete pk).
Proof. unfold db_delete. auto 10 with orderly. Qed.
Lemma orderly_db_commit : orderly db_commit.
Proof. unfold db_commit. auto 10 with orderly. Qed.
Lemma orderly_db_refresh pk obj : orderly (db_refresh pk obj).
Proof. unfold db_refresh. auto 10 with orderly. Qed.
Lemma orderly_db_refresh_at i obj : orderly (db_refresh_at i obj).
Proof. unfold db_refresh_at. auto 10 with orderly. Qed.

Hint Resolve orderly_db_exec orderly_db_get orderly_db_setattr orderly_db_add
  orderly_db_delete orderly_db_commit orderly_db_refresh orderly_db_refresh_at
  : orderly.

Lemma orderly_for_each {A B} (xs : list A) (body : A → M B) :
  (∀ x, orderly (body x)) → orderly (for_each xs body).
Proof.
  intros H. induction xs as [|x xs IH]; simpl; auto 10 with orderly.
Qed.

Lemma orderly_setattr model pk key value : orderly (setattr_ model pk key value).
Proof.
  unfold setattr_. case_bool_decide; [auto with orderly|].
  destruct (from_option _ true _); [auto with orderly | apply orderly_refusal].
Qed.

Hint Resolve orderly_setattr : orderly.

Lemma orderly_apply_update model pk data : orderly (apply_update model pk data).
Proof.
  unfold apply_update.
  apply (map_fold_weak_ind (λ (acc : M unit) (_ : row), orderly acc));
    [auto with orderly|].
  intros k v m acc _ IH. apply orderly_bind; [done|]. intros _.
  destruct (hasattr model k && _); auto with orderly.
Qed.

(** A session around an orderly body whose handler rolls back and
    translates: either the body's result, or the translated error after
    fault, rollback and release, or a refused assignment, which the
    handler does not catch. *)
Lemma guarded_session {A} (body : M A) (handler : SQLAlchemyError → M A)
    (operation : string) (w : World) :
  orderly body →
  (∀ e w', handler e w' = (db_rollback ;; _handle_db_error e operation) w') →
  let res := get_session (try_except body handler) w in
  (∃ a evs, res.1 = Done a
            ∧ log res.2 = log w ++ Acquire :: evs ++ [Release] ∧ quiet evs)
  ∨ (∃ e evs,
       res.1 = Raised (RepositoryError (db_error_message e operation) (Some e))
       ∧ log res.2 = log w ++ Acquire :: evs ++ [Fault e; Rollback; Release]
       ∧ quiet evs
       ∧ pending res.2 = table res.2 ∧ added res.2 = [])
  ∨ (∃ evs, res.1 = Raised SetattrError
            ∧ log res.2 = log w ++ Acquire :: evs ++ [Release] ∧ quiet evs).
Proof.
  intros Hb Hh res.
  assert (Hres : res = get_session (try_except body handler) w) by done.
  clearbody res.
  unfold get_session, try_except, finally, bind at 1 2, emit, discard in Hres.
  simpl in Hres.
  match type of Hres with
  | context [body ?w0] =>
      specialize (Hb w0); destruct (body w0) as [[a|[e| | |]] w1]
  end; try done; simpl in Hb; destruct Hb as (evs & Hl & Hq);
    rewrite ?Hh in Hres;
    unfold db_rollback, _handle_db_error, raise, bind, emit, discard in Hres;
    simpl in Hres; subst res; simpl.
  - left. exists a, evs. rewrite Hl, <- !app_assoc. by simpl.
  - right. left. exists e, evs. rewrite Hl, <- !app_assoc. by simpl.
  - right. right. exists evs. rewrite Hl, <- !app_assoc. by simpl.
Qed.

Hint Resolve orderly_apply_update : orderly.

(** How a write operation can end: stopped before any session is
    opened, completed, failed in a storage call, rolled back and
    translated, or ended by a refused assignment, with no storage
    failure. *)
Lemma write_outcome (model : Model) (op : write_op) (w : World) :
  let res := run_write model op w in
  log res.2 = log w
  ∨ (∃ evs, res.1 = None
            ∧ log res.2 = log w ++ Acquire :: evs ++ [Release] ∧ quiet evs)
  ∨ (∃ e evs,
       res.1 = Some (RepositoryError (db_error_message e (op_name op)) (Some e))
       ∧ log res.2 = log w ++ Acquire :: evs ++ [Fault e; Rollback; Release]
       ∧ quiet evs
       ∧ pending res.2 = table res.2 ∧ added res.2 = [])
  ∨ (∃ evs, res.1 = Some SetattrError
            ∧ log res.2 = log w ++ Acquire :: evs ++ [Release] ∧ quiet evs).
Proof.
  assert (Hshape : ∀ A (body : M A) handler,
    orderly body →
    (∀ e w', handler e w' = (db_rollback ;; _handle_db_error e (op_name op)) w') →
    let res := ending (get_session (try_except body handler) w) in
    log res.2 = log w
    ∨ (∃ evs, res.1 = None
              ∧ log res.2 = log w ++ Acquire :: evs ++ [Release] ∧ quiet evs)
    ∨ (∃ e evs,
         res.1 = Some (RepositoryError (db_error_message e (op_name op)) (Some e))
         ∧ log res.2 = log w ++ Acquire :: evs ++ [Fault e; Rollback; Release]
         ∧ quiet evs
         ∧ pending res.2 = table res.2 ∧ added res.2 = [])
    ∨ (∃ evs, res.1 = Some SetattrError
              ∧ log res.2 = log w ++ Acquire :: evs ++ [Release] ∧ quiet evs)).
  { intros A body handler Hb Hh. right.
    destruct (guarded_session body handler (op_name op) w Hb Hh)
      as [(a & evs & Hr & Hl & Hq)|[(e & evs & Hr & Hl & Hq & Hp & Ha)
                                   |(evs & Hr & Hl & Hq)]].
    - left. exists evs. unfold ending. simpl. by rewrite Hr.
    - right. left. exists e, evs. unfold ending. simpl. by rewrite Hr.
    - right. right. exists evs. unfold ending. simpl. by rewrite Hr. }
  destruct op as [o|os|i o eu|i|i|i|ids]; simpl.
  - unfold create. apply Hshape; [auto 10 with orderly|].
    intros e w'. by destruct (is_integrity e).
  - unfold create_many. apply Hshape; [|done].
    apply orderly_bind; [apply orderly_for_each; auto 10 with orderly|].
    intros handles. apply orderly_bind; [auto with orderly|]. intros _.
    apply orderly_for_each. intros [j obj]. auto with orderly.
  - unfold update. case_bool_decide; [by left|].
    apply Hshape; [|done].
    apply orderly_bind; [auto with orderly|]. intros [obj|]; auto 10 with orderly.
  - unfold soft_delete. destruct (negb _); [by left|].
    apply Hshape; [|done].
    apply orderly_bind; [auto with orderly|]. intros [obj|]; auto 10 with orderly.
  - unfold restore. destruct (negb _); [by left|].
    apply Hshape; [|done].
    apply orderly_bind; [auto with orderly|]. intros [obj|]; auto 10 with orderly.
  - unfold force_delete. apply Hshape; [|done].
    apply orderly_bind; [auto with orderly|]. intros [obj|]; auto 10 with orderly.
  - unfold force_delete_many. apply Hshape; [|done].
    apply orderly_bind; [auto with orderly|]. intros objects.
    apply orderly_bind; [apply orderly_for_each; auto with orderly|].
    auto 10 with orderly.
Qed.

End Failures.

(** C7: whenever a storage call fails during [create], [create_many],
    [update], [soft_delete], [restore], [force_delete] or
    [force_delete_many], the operation ends with a [RepositoryError] that
    carries the engine's error as its cause and whose message names the
    operation and quotes the error, with the prefix "Database integrity
    error" for an integrity failure and "Database error" otherwise; the
    rollback comes right after the failure and before the session is
    released, and nothing uncommitted is left. *)
Theorem C7_failed_write_is_rolled_back_and_translated (model : Repo.Model)
    (op : write_op) (w : Repo.World) (e : Repo.SQLAlchemyError) :
  let res := run_write model op w in
  Repo.Fault e ∈ new_events w res.2 →
  res.1 = Some (Repo.RepositoryError
                  ((if Repo.is_integrity e
                    then "Database integrity error during "
                    else "Database error during ")
                   +:+ op_name op +:+ ": " +:+ Repo.error_text e)
                  (Some e))
  ∧ (∃ evs, Repo.log res.2
            = Repo.log w ++ evs ++ [Repo.Fault e; Repo.Rollback; Repo.Release]
            ∧ quiet evs)
  ∧ Repo.pending res.2 = Repo.table res.2 ∧ Repo.added res.2 = [].
Proof.
  intros res Hin. unfold new_events in Hin.
  assert (Hnone : ∀ evs, quiet evs →
            Repo.log res.2 = Repo.log w ++ Repo.Acquire :: evs ++ [Repo.Release] →
            False).
  { intros evs Hq Hl. rewrite Hl, drop_app_length in Hin.
    apply elem_of_cons in Hin as [Hin|Hin]; [done|].
    apply elem_of_app in Hin as [Hin|Hin].
    - unfold quiet in Hq. rewrite Forall_forall in Hq. by destruct (Hq _ Hin e).
    - apply list_elem_of_singleton in Hin. done. }
  destruct (write_outcome model op w)
    as [Hl|[(evs & Hr & Hl & Hq)|[(e' & evs & Hr & Hl & Hq & Hp & Ha)
                                 |(evs & Hr & Hl & Hq)]]];
    fold res in Hl |- *; [| by destruct (Hnone evs Hq Hl) | | by destruct (Hnone evs Hq Hl)].
  - rewrite Hl, drop_all in Hin. by apply elem_of_nil in Hin.
  - fold res in Hr, Hp, Ha. rewrite Hl, drop_app_length in Hin.
    assert (e' = e) as ->.
    { apply elem_of_cons in Hin as [Hin|Hin]; [done|].
      apply elem_of_app in Hin as [Hin|Hin].
      - unfold quiet in Hq. rewrite Forall_forall in Hq. by destruct (Hq _ Hin e).
      - apply elem_of_cons in Hin as [Hin|Hin]; [congruence|].
        apply elem_of_cons in Hin as [Hin|Hin]; [done|].
        apply list_elem_of_singleton in Hin. done. }
    split_and!; try done.
    + rewrite Hr. unfold Repo.db_error_message. by destruct (Repo.is_integrity e).
    + exists (Repo.Acquire :: evs). split; [done|].
      constructor; [done | exact Hq].
Qed.

(** ** The theorems at sample inputs *)

Lemma C3_soft_delete_filter_witness :
  Repo.hasattr example_model "is_deleted" = true
  ∧ (Repo.get example_model (Py.VInt 2) false ∅ (calm example_rows [] [] [])).1
    = Repo.Done None
  ∧ (Repo.get example_model (Py.VInt 2) true ∅ (calm example_rows [] [] [])).1
    = Repo.Done (Some deleted_row)
  ∧ (Repo.count example_model false ∅ (calm example_rows [] [] [])).1 = Repo.Done 1
  ∧ (Repo.count example_model true ∅ (calm example_rows [] [] [])).1 = Repo.Done 2
  ∧ (Repo.exists_ example_model (Py.VInt 2) false (calm example_rows [] [] [])).1
    = Repo.Done false
  ∧ Repo.table (Repo.force_delete (Py.VInt 2) (calm example_rows [] [] [])).2
    = [live_row].
Proof.
  assert (H : Repo.hasattr example_model "is_deleted" = true)
    by (vm_compute; reflexivity).
  destruct (C3_soft_delete_filter example_model example_rows [] [] [] H)
    as (Hget & _ & _ & _ & Hcount & Hex & _ & _ & _ & Hforce).
  destruct (Hforce (Py.VInt 2) deleted_row) as [Hf _]; [vm_compute; reflexivity|].
  rewrite !Hget, !Hcount, Hex, Hf.
  split_and!; vm_compute; reflexivity.
Defined.

Lemma C5_update_empty_change_set_witness :
  delete "id" (Repo.dump (Repo.Dict {["id" := Py.VInt 7]}) true) = ∅
  ∧ Repo.update example_model (Py.VInt 1) (Repo.Dict {["id" := Py.VInt 7]}) true
      (calm example_rows [] [] [])
    = (Repo.Raised (Repo.RepositoryError "No data provided for update" None),
       calm example_rows [] [] []).
Proof.
  assert (H : delete "id" (Repo.dump (Repo.Dict {["id" := Py.VInt 7]}) true) = ∅)
    by (vm_compute; reflexivity).
  split; [exact H|].
  apply (C5_update_empty_change_set example_model (Py.VInt 1)
           (Repo.Dict {["id" := Py.VInt 7]}) true (calm example_rows [] [] []) H).
Defined.

Lemma C6_missing_id_is_not_found_witness :
  missing (Py.VInt 9) example_rows
  ∧ (Repo.update example_model (Py.VInt 9) (Repo.Dict {["title" := Py.VStr "z"]}) true
       (calm example_rows [] [] [])).1 = Repo.Done None
  ∧ (Repo.soft_delete example_model (Py.VInt 9) (calm example_rows [] [] [])).1
    = Repo.Done false
  ∧ (Repo.restore example_model (Py.VInt 9) (calm example_rows [] [] [])).1
    = Repo.Done false
  ∧ (Repo.force_delete (Py.VInt 9) (calm example_rows [] [] [])).1 = Repo.Done false.
Proof.
  assert (H : missing (Py.VInt 9) example_rows).
  { repeat constructor; vm_compute; discriminate. }
  destruct (C6_missing_id_is_not_found example_model (Py.VInt 9) example_rows [] [] [] H)
    as (Hu & Hs & Hf).
  destruct Hs as [Hs Hr]; [vm_compute; reflexivity|].
  rewrite Hu, Hs, Hr, Hf; [by split_and!|].
  vm_compute. discriminate.
Defined.

Lemma C7_failed_write_witness :
  Repo.Fault duplicate_key
    ∈ new_events (Repo.mkWorld example_rows [] [] [Some duplicate_key] [])
        (run_write example_model (Create (Repo.Dict {["title" := Py.VStr "z"]}))
           (Repo.mkWorld example_rows [] [] [Some duplicate_key] [])).2
  ∧ (run_write example_model (Create (Repo.Dict {["title" := Py.VStr "z"]}))
       (Repo.mkWorld example_rows [] [] [Some duplicate_key] [])).1
    = Some (Repo.RepositoryError
              "Database integrity error during create: duplicate key"
              (Some duplicate_key)).
Proof.
  assert (H : Repo.Fault duplicate_key
    ∈ new_events (Repo.mkWorld example_rows [] [] [Some duplicate_key] [])
        (run_write example_model (Create (Repo.Dict {["title" := Py.VStr "z"]}))
           (Repo.mkWorld example_rows [] [] [Some duplicate_key] [])).2).
  { vm_compute. right. right. left. }
  split; [exact H|].
  apply (C7_failed_write_is_rolled_back_and_translated example_model
           (Create (Repo.Dict {["title" := Py.VStr "z"]}))
           (Repo.mkWorld example_rows [] [] [Some duplicate_key] [])
           duplicate_key H).
Defined.

Lemma C9_restore_idempotent_witness :
  Repo.hasattr example_model "is_deleted" = true
  ∧ Repo.find_pk (Py.VInt 1) example_rows = Some live_row
  ∧ Repo.restore example_model (Py.VInt 1) (calm example_rows [] [] [])
    = (Repo.Done true,
       after example_rows []
         [Repo.Acquire; Repo.Get; Repo.Commit; Repo.Release]).
Proof.
  assert (H1 : Repo.hasattr example_model "is_deleted" = true)
    by (vm_compute; reflexivity).
  assert (H2 : Repo.find_pk (Py.VInt 1) example_rows = Some live_row)
    by (vm_compute; reflexivity).
  split_and!; [exact H1 | exact H2 |].
  apply (C9_restore_idempotent example_model (Py.VInt 1) live_row
           example_rows [] [] [] H1 H2).
  intros r' Hin Hid.
  apply elem_of_cons in Hin as [->|Hin]; [vm_compute; reflexivity|].
  apply list_elem_of_singleton in Hin as ->. vm_compute in Hid. discriminate.
Defined.

Lemma C10_undeclared_keys_ignored_witness :
  Repo.hasattr example_model "colour" = false
  ∧ Repo.get example_model (Py.VInt 1) false {["colour" := Py.VStr "red"]}
      (calm example_rows [] [] [])
    = Repo.get example_model (Py.VInt 1) false ∅ (calm example_rows [] [] [])
  ∧ Repo.count example_model false {["colour" := Py.VStr "red"]}
      (calm example_rows [] [] [])
    = Repo.count example_model false ∅ (calm example_rows [] [] []).
Proof.
  assert (H : Repo.hasattr example_model "colour" = false)
    by (vm_compute; reflexivity).
  destruct (C10_undeclared_keys_ignored example_model "colour" H)
    as (Hget & _ & _ & _ & Hcount & _).
  split_and!; [exact H | |].
  - rewrite (Hget (Py.VInt 1) false {["colour" := Py.VStr "red"]}).
    by rewrite delete_singleton_eq.
  - rewrite (Hcount false {["colour" := Py.VStr "red"]}).
    by rewrite delete_singleton_eq.
Defined.

(** ** Repository: what reads and failed writes leave behind *)

Section TableKept.
Import Py Repo.
Local Open Scope repo_scope.

Lemma keeps_ret {A} (a : A) : keeps_table (ret a).
Proof. by intros w. Qed.

Lemma keeps_raise {A} e : keeps_table (@raise A e).
Proof. by intros w. Qed.

Lemma keeps_bind {A B} (m : M A) (k : A → M B) :
  keeps_table m → (∀ a, keeps_table (k a)) → keeps_table (bind m k).
Proof.
  intros Hm Hk w. unfold bind. specialize (Hm w).
  destruct (m w) as [[a|e] w1]; [|done]. simpl in Hm. by rewrite Hk.
Qed.

Lemma keeps_try_except {A} (body : M A) handler :
  keeps_table body → (∀ e, keeps_table (handler e)) →
  keeps_table (try_except body handler).
Proof.
  intros Hb Hh w. unfold try_except. specialize (Hb w).
  destruct (body w) as [[a|[e| | |]] w1]; try done. simpl in Hb. by rewrite Hh.
Qed.

Lemma keeps_finally {A} (body : M A) (cleanup : M unit) :
  keeps_table body → keeps_table cleanup → keeps_table (finally body cleanup).
Proof.
  intros Hb Hc w. unfold finally. specialize (Hb w).
  destruct (body w) as [r w1]. specialize (Hc w1).
  destruct (cleanup w1) as [u w2]. simpl in *. congruence.
Qed.

Lemma keeps_emit ev : keeps_table (emit ev).
Proof. by intros w. Qed.
Lemma keeps_discard : keeps_table discard.
Proof. by intros w. Qed.
Lemma keeps_read_pending : keeps_table read_pending.
Proof. by intros w. Qed.
Lemma keeps_storage_call ev : keeps_table (storage_call ev).
Proof. intros w. unfold storage_call. by destruct (plan w) as [|[e|] pl]. Qed.

Lemma keeps_get_session {A} (body : M A) :
  keeps_table body → keeps_table (get_session body).
Proof.
  intros Hb. unfold get_session.
  repeat first [apply keeps_bind; [|intros] | apply keeps_finally
               | apply keeps_emit | apply keeps_discard | done].
Qed.

Lemma keeps_db_exec s : keeps_table (db_exec s).
Proof.
  unfold db_exec.
  repeat first [apply keeps_bind; [|intros] | apply keeps_storage_call
               | apply keeps_read_pending | apply keeps_ret].
Qed.

Lemma keeps_db_count s : keeps_table (db_count s).
Proof.
  unfold db_count.
  repeat first [apply keeps_bind; [|intros] | apply keeps_storage_call
               | apply keeps_read_pending | apply keeps_ret].
Qed.

(** A read: a session around a body of queries, with a handler that only
    translates. *)
Lemma keeps_read {A} (body : M A) (operation : string) :
  keeps_table body →
  keeps_table (get_session (try_except body (λ e, _handle_db_error e operation))).
Proof.
  intros Hb. apply keeps_get_session, keeps_try_except; [done|].
  intros e. apply keeps_raise.
Qed.

End TableKept.

(** X1: whatever the storage engine answers, [get], [get_one], [get_many],
    [list], [count] and [exists] leave the committed rows as they were. *)
Theorem X1_reads_keep_rows (model : Repo.Model) (w : Repo.World)
    (i : Py.pyval) (incl : bool) (filters : Repo.row) (skip lim page per_page : Z) :
  Repo.table (Repo.get model i incl filters w).2 = Repo.table w
  ∧ Repo.table (Repo.get_one model filters w).2 = Repo.table w
  ∧ Repo.table (Repo.get_many model skip lim incl filters w).2 = Repo.table w
  ∧ Repo.table (Repo.list_ model page per_page incl filters w).2 = Repo.table w
  ∧ Repo.table (Repo.count model incl filters w).2 = Repo.table w
  ∧ Repo.table (Repo.exists_ model i incl w).2 = Repo.table w.
Proof.
  split_and!.
  - apply keeps_read, keeps_bind; [apply keeps_db_exec | intros; apply keeps_ret].
  - apply keeps_read, keeps_bind; [apply keeps_db_exec | intros; apply keeps_ret].
  - apply keeps_read, keeps_bind; [apply keeps_db_exec | intros; apply keeps_ret].
  - apply keeps_read, keeps_bind; [apply keeps_db_count | intros].
    apply keeps_bind; [apply keeps_db_exec | intros; apply keeps_ret].
  - apply keeps_read, keeps_db_count.
  - apply keeps_read, keeps_bind; [apply keeps_db_exec | intros; apply keeps_ret].
Qed.

Section Frugal.
Import Py Repo.
Local Open Scope repo_scope.

Lemma frugal_silent {A} (m : M A) :
  (∀ w, log (m w).2 = log w ∧ table (m w).2 = table w) → frugal m.
Proof.
  intros H w. destruct (H w) as [Hl Ht]. exists [].
  split; [by rewrite app_nil_r | by right].
Qed.

Lemma frugal_ret {A} (a : A) : frugal (ret a).
Proof. by apply frugal_silent. Qed.
Lemma frugal_raise {A} e : frugal (@raise A e).
Proof. by apply frugal_silent. Qed.
Lemma frugal_discard : frugal discard.
Proof. by apply frugal_silent. Qed.
Lemma frugal_read_pending : frugal read_pending.
Proof. by apply frugal_silent. Qed.
Lemma frugal_read_added : frugal read_added.
Proof. by apply frugal_silent. Qed.
Lemma frugal_read_table : frugal read_table.
Proof. by apply frugal_silent. Qed.
Lemma frugal_write_pending rows : frugal (write_pending rows).
Proof. by apply frugal_silent. Qed.
Lemma frugal_write_added rows : frugal (write_added rows).
Proof. by apply frugal_silent. Qed.

Lemma frugal_emit ev : frugal (emit ev).
Proof. intros w. exists [ev]. split; [done | by right]. Qed.

Lemma frugal_storage_call ev : frugal (storage_call ev).
Proof.
  intros w. unfold storage_call. destruct (plan w) as [|[e|] pl]; simpl.
  - exists [ev]. split; [done | by right].
  - exists [Fault e]. split; [done | by right].
  - exists [ev]. split; [done | by right].
Qed.

Lemma frugal_bind {A B} (m : M A) (k : A → M B) :
  frugal m → (∀ a, frugal (k a)) → frugal (bind m k).
Proof.
  intros Hm Hk w. unfold bind. destruct (Hm w) as (evs1 & Hl1 & Ht1).
  destruct (m w) as [[a|e] w1]; simpl in *; [|by exists evs1].
  destruct (Hk a w1) as (evs2 & Hl2 & Ht2). exists (evs1 ++ evs2). split.
  - by rewrite Hl2, Hl1, app_assoc.
  - rewrite elem_of_app. destruct Ht1 as [?|Ht1]; [by left; left|].
    destruct Ht2 as [?|Ht2]; [by left; right|]. right. congruence.
Qed.

Lemma frugal_try_except {A} (body : M A) handler :
  frugal body → (∀ e, frugal (handler e)) → frugal (try_except body handler).
Proof.
  intros Hb Hh w. unfold try_except. destruct (Hb w) as (evs1 & Hl1 & Ht1).
  destruct (body w) as [[a|[e| | |]] w1]; simpl in *; try by exists evs1.
  destruct (Hh e w1) as (evs2 & Hl2 & Ht2). exists (evs1 ++ evs2). split.
  - by rewrite Hl2, Hl1, app_assoc.
  - rewrite elem_of_app. destruct Ht1 as [?|Ht1]; [by left; left|].
    destruct Ht2 as [?|Ht2]; [by left; right|]. right. congruence.
Qed.

Lemma frugal_finally {A} (body : M A) (cleanup : M unit) :
  frugal body → frugal cleanup → frugal (finally body cleanup).
Proof.
  intros Hb Hc w. unfold finally. destruct (Hb w) as (evs1 & Hl1 & Ht1).
  destruct (body w) as [r w1]. destruct (Hc w1) as (evs2 & Hl2 & Ht2).
  destruct (cleanup w1) as [u w2]. simpl in *. exists (evs1 ++ evs2). split.
  - by rewrite Hl2, Hl1, app_assoc.
  - rewrite elem_of_app. destruct Ht1 as [?|Ht1]; [by left; left|].
    destruct Ht2 as [?|Ht2]; [by left; right|]. right. congruence.
Qed.

(** The commit is the one step that changes the committed rows, and it
    logs itself when it does. *)
Lemma frugal_db_commit : frugal db_commit.
Proof.
  intros w. unfold db_commit, bind, storage_call, read_pending, read_added, persist.
  destruct (plan w) as [|[e|] pl]; simpl.
  - exists [Commit]. split; [done | left; by left].
  - exists [Fault e]. split; [done | by right].
  - exists [Commit]. split; [done | left; by left].
Qed.

Create HintDb frugal.
Hint Resolve frugal_ret frugal_raise frugal_discard frugal_read_pending
  frugal_read_added frugal_read_table frugal_write_pending frugal_write_added
  frugal_emit frugal_storage_call frugal_db_commit : frugal.
Hint Extern 1 (frugal (bind _ _)) => apply frugal_bind; [|intros] : frugal.
Hint Extern 1 (frugal (try_except _ _)) =>
  apply frugal_try_except; [|intros] : frugal.
Hint Extern 1 (frugal (finally _ _)) => apply frugal_finally : frugal.

Lemma frugal_get_session {A} (body : M A) : frugal body → frugal (get_session body).
Proof. intros Hb. unfold get_session. auto 10 with frugal. Qed.

Lemma frugal_handler {A} e operation :
  frugal (db_rollback ;; @_handle_db_error A e operation).
Proof. unfold db_rollback, _handle_db_error. auto 10 with frugal. Qed.

Lemma frugal_db_get i : frugal (db_get i).
Proof. unfold db_get. auto 10 with frugal. Qed.
Lemma frugal_db_exec s : frugal (db_exec s).
Proof. unfold db_exec. auto 10 with frugal. Qed.
Lemma frugal_db_setattr pk k v : frugal (db_setattr pk k v).
Proof. unfold db_setattr. auto 10 with frugal. Qed.
Lemma frugal_db_add obj : frugal (db_add obj).
Proof. unfold db_add. auto 10 with frugal. Qed.
Lemma frugal_db_delete pk : frugal (db_delete pk).
Proof. unfold db_delete. auto 10 with frugal. Qed.
Lemma frugal_db_refresh pk obj : frugal (db_refresh pk obj).
Proof. unfold db_refresh. auto 10 with frugal. Qed.
Lemma frugal_db_refresh_at i obj : frugal (db_refresh_at i obj).
Proof. unfold db_refresh_at. auto 10 with frugal. Qed.

Hint Resolve frugal_get_session frugal_handler frugal_db_get frugal_db_exec
  frugal_db_setattr frugal_db_add frugal_db_delete frugal_db_refresh
  frugal_db_refresh_at : frugal.

Lemma frugal_for_each {A B} (xs : list A) (body : A → M B) :
  (∀ x, frugal (body x)) → frugal (for_each xs body).
Proof. intros H. induction xs as [|x xs IH]; simpl; auto 10 with frugal. Qed.

Lemma frugal_setattr model pk key value : frugal (setattr_ model pk key value).
Proof.
  unfold setattr_. case_bool_decide; [auto with frugal|].
  destruct (from_option _ true _); auto with frugal.
Qed.

Hint Resolve frugal_setattr : frugal.

Lemma frugal_apply_update model pk data : frugal (apply_update model pk data).
Proof.
  unfold apply_update.
  apply (map_fold_weak_ind (λ (acc : M unit) (_ : row), frugal acc));
    [auto with frugal|].
  intros k v m acc _ IH. apply frugal_bind; [done|]. intros _.
  destruct (hasattr model k && _); auto with frugal.
Qed.

Hint Resolve frugal_apply_update : frugal.

Lemma frugal_write (model : Model) (op : write_op) (w : World) :
  ∃ evs, log (run_write model op w).2 = log w ++ evs
         ∧ (Commit ∈ evs ∨ table (run_write model op w).2 = table w).
Proof.
  assert (Hend : ∀ A (m : M A), frugal m →
    ∃ evs, log (ending (m w)).2 = log w ++ evs
           ∧ (Commit ∈ evs ∨ table (ending (m w)).2 = table w)).
  { intros A m Hm. apply (Hm w). }
  destruct op as [o|os|i o eu|i|i|i|ids]; simpl; apply Hend.
  - unfold create. apply frugal_get_session, frugal_try_except; [auto 10 with frugal|].
    intros e. destruct (is_integrity e); auto with frugal.
  - unfold create_many. apply frugal_get_session, frugal_try_except; [|auto with frugal].
    apply frugal_bind; [apply frugal_for_each; auto 10 with frugal|].
    intros handles. apply frugal_bind; [auto with frugal|]. intros _.
    apply frugal_for_each. intros [j obj]. auto with frugal.
  - unfold update. case_bool_decide; [auto with frugal|].
    apply frugal_get_session, frugal_try_except; [|auto with frugal].
    apply frugal_bind; [auto with frugal|]. intros [obj|]; auto 10 with frugal.
  - unfold soft_delete. destruct (negb _); [auto with frugal|].
    apply frugal_get_session, frugal_try_except; [|auto with frugal].
    apply frugal_bind; [auto with frugal|]. intros [obj|]; auto 10 with frugal.
  - unfold restore. destruct (negb _); [auto with frugal|].
    apply frugal_get_session, frugal_try_except; [|auto with frugal].
    apply frugal_bind; [auto with frugal|]. intros [obj|]; auto 10 with frugal.
  - unfold force_delete.
    apply frugal_get_session, frugal_try_except; [|auto with frugal].
    apply frugal_bind; [auto with frugal|]. intros [obj|]; auto 10 with frugal.
  - unfold force_delete_many.
    apply frugal_get_session, frugal_try_except; [|auto with frugal].
    apply frugal_bind; [auto with frugal|]. intros objects.
    apply frugal_bind; [apply frugal_for_each; auto with frugal|].
    auto 10 with frugal.
Qed.

End Frugal.

(** X2: a write operation ([create], [create_many], [update], [soft_delete],
    [restore], [force_delete], [force_delete_many]) whose run logs no
    commit leaves the committed rows as they were, whatever the engine
    answered: a failure before or in the commit stores nothing. *)
Theorem X2_no_commit_no_change (model : Repo.Model) (op : write_op) (w : Repo.World) :
  Repo.Commit ∉ new_events w (run_write model op w).2 →
  Repo.table (run_write model op w).2 = Repo.table w.
Proof.
  intros Hn. destruct (frugal_write model op w) as (evs & Hl & [Hc|Ht]); [|done].
  unfold new_events in Hn. rewrite Hl, drop_app_length in Hn. done.
Qed.

Lemma X2_no_commit_no_change_witness :
  (Repo.Commit
     ∉ new_events (Repo.mkWorld example_rows [] [] [None; Some duplicate_key] [])
         (run_write example_model (ForceDelete (Py.VInt 1))
            (Repo.mkWorld example_rows [] [] [None; Some duplicate_key] [])).2)
  ∧ Repo.table
      (run_write example_model (ForceDelete (Py.VInt 1))
         (Repo.mkWorld example_rows [] [] [None; Some duplicate_key] [])).2
    = example_rows.
Proof.
  assert (H : Repo.Commit
    ∉ new_events (Repo.mkWorld example_rows [] [] [None; Some duplicate_key] [])
        (run_write example_model (ForceDelete (Py.VInt 1))
           (Repo.mkWorld example_rows [] [] [None; Some duplicate_key] [])).2).
  { vm_compute. intros Hin. repeat (apply elem_of_cons in Hin as [Hin|Hin]; [discriminate|]).
    by apply elem_of_nil in Hin. }
  split; [exact H|].
  apply (X2_no_commit_no_change example_model (ForceDelete (Py.VInt 1))
           (Repo.mkWorld example_rows [] [] [None; Some duplicate_key] []) H).
Defined.

(** ** Repository: creating records *)

Section Creating.
Import Py Repo.
Variable model : Model.

Lemma max_id_ge (t : list row) (r : row) (z : Z) :
  r ∈ t → col "id" r = VInt z → z ≤ max_id t.
Proof.
  intros Hin Hz. induction t as [|r' t IH]; [by apply elem_of_nil in Hin|].
  simpl. apply elem_of_cons in Hin as [->|Hin].
  - unfold int_id. rewrite Hz. lia.
  - specialize (IH Hin). lia.
Qed.

Lemma max_id_app (t1 t2 : list row) : max_id t1 ≤ max_id (t1 ++ t2).
Proof. induction t1 as [|r t1 IH]; simpl; [|lia]. induction t2; simpl; lia. Qed.

(** The identifier handed out to a new row is in use by no stored row. *)
Lemma fresh_id_missing (t : list row) (obj : row) :
  missing (VInt (max_id (t ++ [obj]) + 1)) t.
Proof.
  apply Forall_forall. intros r Hin Heq.
  pose proof (max_id_ge t r _ Hin Heq). pose proof (max_id_app t [obj]). lia.
Qed.

Lemma filter_has_id_missing (i : pyval) (t : list row) :
  missing i t → List.filter (has_id i) t = [].
Proof.
  intros H. induction H as [|r t Hr _ IH]; [done|]. simpl.
  unfold has_id at 1. by rewrite bool_decide_eq_false_2.
Qed.

Lemma fits_empty (r : row) : fits model ∅ r = true.
Proof. apply bool_decide_eq_true, map_Forall_empty. Qed.

Lemma chosen_all (rows : list row) : chosen model true ∅ rows = rows.
Proof.
  unfold chosen. induction rows as [|r rows IH]; [done|].
  cbn [List.filter]. rewrite IH, fits_empty. done.
Qed.

Lemma create_calm (o : obj_in) t p a l :
  create model o (calm t p a l)
  = (Done (stored_as t (new_object model (dump o true))),
     after (t ++ [stored_as t (new_object model (dump o true))]) l
       [Acquire; Add; Commit; Refresh; Release]).
Proof.
  unfold create. run_session. unfold db_add, db_refresh_at.
  run_session. rewrite Nat.add_0_r.
  rewrite lookup_app_r, Nat.sub_diag by done. simpl.
  unfold stored_as. by case_bool_decide.
Qed.

(** A failure of the commit stores nothing; a failure of the refresh that
    follows a successful commit leaves the new row stored. *)
Lemma create_failing (o : obj_in) t p a l e rest :
  create model o (mkWorld t p a (Some e :: rest) l)
  = (Raised (RepositoryError (db_error_message e "create") (Some e)),
     mkWorld t t [] rest (l ++ [Acquire; Add; Fault e; Rollback; Release]))
  ∧ create model o (mkWorld t p a (None :: Some e :: rest) l)
    = (Raised (RepositoryError (db_error_message e "create") (Some e)),
       mkWorld (t ++ [stored_as t (new_object model (dump o true))])
         (t ++ [stored_as t (new_object model (dump o true))]) [] rest
         (l ++ [Acquire; Add; Commit; Fault e; Rollback; Release])).
Proof.
  split.
  - unfold create. run_session. unfold db_add. run_session.
    destruct (is_integrity e); run_session; reflexivity.
  - unfold create. run_session. unfold db_add, db_refresh_at. run_session.
    unfold stored_as.
    destruct (is_integrity e); run_session; by case_bool_decide.
Qed.

Lemma get_after (i : pyval) (incl : bool) (filters : row) t l evs :
  (get model i incl filters (after t l evs)).1
  = Done (head (List.filter (has_id i) (chosen model incl filters t))).
Proof.
  change (after t l evs) with (calm t t [] (l ++ evs)). by rewrite get_calm.
Qed.

Lemma missing_filter (i : pyval) (f : row → bool) (t : list row) :
  missing i t → missing i (List.filter f t).
Proof.
  unfold missing. rewrite !Forall_forall. intros H r Hin.
  apply list_elem_of_In, filter_In in Hin as [Hin _].
  apply H. by apply list_elem_of_In.
Qed.

(** A visible row appended under an identifier no other row has is the one
    [get] selects. *)
Lemma get_appended (i : pyval) (incl : bool) (t : list row) (r : row) :
  missing i t → col "id" r = i → visible model incl r = true →
  head (List.filter (has_id i) (chosen model incl ∅ (t ++ [r]))) = Some r.
Proof.
  intros Hm Hid Hvis. unfold chosen.
  rewrite List.filter_app, List.filter_app.
  rewrite (filter_has_id_missing i) by by apply missing_filter.
  cbn [List.filter app]. rewrite Hvis, fits_empty. cbn [andb List.filter].
  unfold has_id. by rewrite bool_decide_eq_true_2.
Qed.

Lemma stored_as_lookup (t : list row) (data : row) (k : string) (v : pyval) :
  k ∈ attrs model → k ≠ "id" → data !! k = Some v →
  stored_as t (new_object model data) !! k = Some v.
Proof.
  intros Hk Hne Hd.
  assert (new_object model data !! k = Some v) as Hobj.
  { unfold new_object. apply lookup_union_Some_l.
    by apply map_lookup_filter_Some. }
  unfold stored_as. case_bool_decide; [|done]. by rewrite lookup_insert_ne.
Qed.

End Creating.

(** X3: on an engine that answers normally, [create] of an object without
    identifier appends exactly one row and returns it; the row carries a
    fresh identifier, every declared attribute the caller supplied, and
    [get] with that identifier finds it again. *)
Theorem X3_create_then_get (model : Repo.Model) (o : Repo.obj_in)
    (t p a : list Repo.row) (l : list Repo.event) :
  Repo.col "id" (Repo.new_object model (Repo.dump o true)) = Py.VNone →
  ∃ r,
    (Repo.create model o (calm t p a l)).1 = Repo.Done r
    ∧ Repo.table (Repo.create model o (calm t p a l)).2 = t ++ [r]
    ∧ missing (Repo.col "id" r) t
    ∧ (∀ k v, k ∈ Repo.attrs model → k ≠ "id" →
              Repo.dump o true !! k = Some v → r !! k = Some v)
    ∧ (Repo.get model (Repo.col "id" r) true ∅
         (Repo.create model o (calm t p a l)).2).1 = Repo.Done (Some r)
    ∧ (Repo.col "is_deleted" r = Py.VBool false →
       (Repo.get model (Repo.col "id" r) false ∅
          (Repo.create model o (calm t p a l)).2).1 = Repo.Done (Some r)).
Proof.
  intros Hid. eexists. rewrite create_calm. cbn [fst snd].
  set (obj := Repo.new_object model (Repo.dump o true)) in *.
  assert (Hr : Repo.col "id" (stored_as t obj)
               = Py.VInt (Repo.max_id (t ++ [obj]) + 1)).
  { unfold stored_as. rewrite bool_decide_eq_true_2 by done.
    unfold Repo.col. by rewrite lookup_insert_eq. }
  assert (Hmiss : missing (Repo.col "id" (stored_as t obj)) t).
  { rewrite Hr. apply fresh_id_missing. }
  split_and!; try done.
  - intros k v. by apply stored_as_lookup.
  - rewrite get_after. f_equal. by apply get_appended.
  - intros Hlive. rewrite get_after. f_equal. apply get_appended; [done..|].
    unfold visible. by rewrite (bool_decide_eq_true_2 _ Hlive), orb_true_r.
Qed.

Lemma X3_create_then_get_witness :
  Repo.col "id"
    (Repo.new_object example_model
       (Repo.dump (Repo.Dict {["title" := Py.VStr "z"]}) true)) = Py.VNone
  ∧ ∃ r,
      (Repo.create example_model (Repo.Dict {["title" := Py.VStr "z"]})
         (calm example_rows [] [] [])).1 = Repo.Done r
      ∧ r !! "title" = Some (Py.VStr "z").
Proof.
  assert (H : Repo.col "id"
    (Repo.new_object example_model
       (Repo.dump (Repo.Dict {["title" := Py.VStr "z"]}) true)) = Py.VNone)
    by (vm_compute; reflexivity).
  split; [exact H|].
  destruct (X3_create_then_get example_model (Repo.Dict {["title" := Py.VStr "z"]})
              example_rows [] [] [] H) as (r & Hres & _ & _ & Hkeep & _).
  exists r. split; [exact Hres|].
  apply Hkeep; [|done|by vm_compute]. vm_compute. set_solver.
Defined.

(** X4: when the commit of [create] fails, nothing is stored; when the
    commit succeeds and the refresh that follows fails, the caller gets
    the translated error although the new row is stored. *)
Theorem X4_create_error_after_commit (model : Repo.Model) (o : Repo.obj_in)
    (t p a : list Repo.row) (l : list Repo.event)
    (e : Repo.SQLAlchemyError) (rest : list (option Repo.SQLAlchemyError)) :
  let r := stored_as t (Repo.new_object model (Repo.dump o true)) in
  let failed := Repo.Raised
                  (Repo.RepositoryError (Repo.db_error_message e "create") (Some e)) in
  (Repo.create model o (Repo.mkWorld t p a (Some e :: rest) l)).1 = failed
  ∧ Repo.table (Repo.create model o (Repo.mkWorld t p a (Some e :: rest) l)).2 = t
  ∧ (Repo.create model o (Repo.mkWorld t p a (None :: Some e :: rest) l)).1 = failed
  ∧ Repo.table (Repo.create model o (Repo.mkWorld t p a (None :: Some e :: rest) l)).2
    = t ++ [r].
Proof.
  intros r failed.
  destruct (create_failing model o t p a l e rest) as [H1 H2].
  by rewrite H1, H2.
Qed.

(** ** Repository: soft deletion and restoring *)

Section SoftDeleting.
Import Py Repo.
Variable model : Model.
Hypothesis Hflag : hasattr model "is_deleted" = true.

Lemma col_insert_eq (k : string) (v : pyval) (r : row) : col k (<[k := v]> r) = v.
Proof. unfold col. by rewrite lookup_insert_eq. Qed.

Lemma col_insert_ne (k k' : string) (v : pyval) (r : row) :
  k ≠ k' → col k' (<[k := v]> r) = col k' r.
Proof. intros. unfold col. by rewrite lookup_insert_ne. Qed.

(** After rewriting the rows under [i] with a function that hides them,
    the selection under [i] is empty. *)
Lemma selection_hidden (i : pyval) (f : row → row) (incl : bool) (t : list row) :
  (∀ r, col "id" (f r) = col "id" r) →
  (∀ r, visible model incl (f r) = false) →
  List.filter (has_id i) (chosen model incl ∅ (rewrite_at i f t)) = [].
Proof using Type.
  intros Hid Hvis. unfold chosen, rewrite_at.
  induction t as [|r t IH]; [done|]. cbn [map List.filter].
  destruct (has_id i r) eqn:E.
  - by rewrite Hvis.
  - destruct (visible model incl r && fits model ∅ r); [|done].
    cbn [List.filter]. by rewrite E.
Qed.

Lemma exists_hidden (i : pyval) (f : row → row) (incl : bool) (t : list row) :
  (∀ r, col "id" (f r) = col "id" r) →
  (∀ r, visible model incl (f r) = false) →
  existsb (λ r, has_id i r && visible model incl r) (rewrite_at i f t) = false.
Proof using Type.
  intros Hid Hvis. unfold rewrite_at.
  induction t as [|r t IH]; [done|]. cbn [map existsb]. rewrite IH.
  destruct (has_id i r) eqn:E.
  - by rewrite Hvis, andb_false_r.
  - by rewrite E.
Qed.

(** After rewriting the rows under [i] with a function that shows them,
    the selection under [i] is what is stored under [i]. *)
Lemma selection_shown (i : pyval) (f : row → row) (incl : bool) (t : list row) :
  (∀ r, col "id" (f r) = col "id" r) →
  (∀ r, visible model incl (f r) = true) →
  List.filter (has_id i) (chosen model incl ∅ (rewrite_at i f t))
  = List.filter (has_id i) (rewrite_at i f t).
Proof using Type.
  intros Hid Hvis. unfold chosen, rewrite_at.
  induction t as [|r t IH]; [done|]. cbn [map List.filter].
  destruct (has_id i r) eqn:E.
  - rewrite Hvis, fits_empty. cbn [andb List.filter]. by rewrite IH.
  - destruct (visible model incl r && fits model ∅ r); cbn [List.filter];
      by rewrite E, IH.
Qed.

Lemma visible_after_restore (r : row) :
  visible model false (<["is_deleted" := VBool false]> r) = true.
Proof using Type.
  unfold visible. rewrite col_insert_eq.
  rewrite (bool_decide_eq_true_2 (VBool false = VBool false)) by done.
  by rewrite orb_true_r.
Qed.

Lemma visible_after_flag (r : row) :
  visible model false (<["is_deleted" := VBool true]> r) = false.
Proof using Hflag.
  unfold visible. rewrite Hflag, col_insert_eq. done.
Qed.

Lemma rewrite_at_compose (i : pyval) (f g : row → row) (t : list row) :
  (∀ r, col "id" (g r) = col "id" r) →
  rewrite_at i f (rewrite_at i g t) = rewrite_at i (f ∘ g) t.
Proof using Type.
  intros Hid. unfold rewrite_at. rewrite map_map. apply map_ext. intros r.
  destruct (has_id i r) eqn:E.
  - unfold has_id in *. by rewrite Hid, E.
  - by rewrite E.
Qed.

Lemma exists_after (i : pyval) (incl : bool) t l evs :
  (exists_ model i incl (after t l evs)).1
  = Done (negb (bool_decide (i = VNone))
          && existsb (λ r, has_id i r && visible model incl r) t).
Proof using Type.
  change (after t l evs) with (calm t t [] (l ++ evs)). by rewrite exists_calm.
Qed.

Lemma restore_after (i : pyval) (r : row) t l evs :
  find_pk i t = Some r →
  table (restore model i (after t l evs)).2
  = rewrite_at i (λ r, <["is_deleted" := VBool false]> r) t.
Proof using Hflag.
  intros Hf. change (after t l evs) with (calm t t [] (l ++ evs)).
  by rewrite (restore_calm_found model i r).
Qed.

End SoftDeleting.

(** X5: on an engine that answers normally and an entity type with the
    flag, after [soft_delete] of a stored record [get] and [exists] no
    longer see it unless [include_deleted] is set, [get] with
    [include_deleted] returns it with the flag set, and after a [restore]
    that follows [get] finds it again, with the flag cleared. *)
Theorem X5_soft_delete_hides_restore_undoes (model : Repo.Model) (i : Py.pyval)
    (r : Repo.row) (t p a : list Repo.row) (l : list Repo.event) :
  Repo.hasattr model "is_deleted" = true →
  Repo.find_pk i t = Some r →
  let w1 := (Repo.soft_delete model i (calm t p a l)).2 in
  let w2 := (Repo.restore model i w1).2 in
  (Repo.soft_delete model i (calm t p a l)).1 = Repo.Done true
  ∧ (Repo.get model i false ∅ w1).1 = Repo.Done None
  ∧ (Repo.exists_ model i false w1).1 = Repo.Done false
  ∧ (∃ r', (Repo.get model i true ∅ w1).1 = Repo.Done (Some r')
           ∧ Repo.col "id" r' = i ∧ Repo.col "is_deleted" r' = Py.VBool true)
  ∧ (Repo.restore model i w1).1 = Repo.Done true
  ∧ (∃ r', (Repo.get model i false ∅ w2).1 = Repo.Done (Some r')
           ∧ Repo.col "id" r' = i ∧ Repo.col "is_deleted" r' = Py.VBool false).
Proof.
  intros Hflag Hf w1 w2. unfold w2, w1.
  rewrite (soft_delete_calm_found model i r) by done. cbn [fst snd].
  assert (Hi : i ≠ Py.VNone ∧ Repo.col "id" r = i).
  { apply find_pk_Some in Hf as (? & _ & ?). done. }
  assert (Hid : ∀ r0 : Repo.row,
    Repo.col "id" (<["is_deleted" := Py.VBool true]> r0) = Repo.col "id" r0).
  { intros r0. by apply col_insert_ne. }
  assert (Hf' : Repo.find_pk i
                  (rewrite_at i (λ r, <["is_deleted" := Py.VBool true]> r) t)
                = Some (<["is_deleted" := Py.VBool true]> r)).
  { rewrite find_pk_rewrite_at by done. by rewrite Hf. }
  split_and!; try done.
  - rewrite get_after, selection_hidden; [done..|].
    intros r0. by apply visible_after_flag.
  - rewrite exists_after, exists_hidden; [by rewrite andb_false_r|done|].
    intros r0. by apply visible_after_flag.
  - exists (<["is_deleted" := Py.VBool true]> r).
    rewrite get_after, chosen_all. split_and!.
    + f_equal. unfold Repo.find_pk in Hf'. by case_bool_decide.
    + rewrite Hid. apply Hi.
    + apply col_insert_eq.
  - change (after ?t ?l ?evs) with (calm t t [] (l ++ evs)).
    by rewrite (restore_calm_found model i _ _ _ _ _ Hflag Hf').
  - exists (<["is_deleted" := Py.VBool false]> (<["is_deleted" := Py.VBool true]> r)).
    change (after ?t ?l ?evs) with (calm t t [] (l ++ evs)).
    rewrite (restore_calm_found model i _ _ _ _ _ Hflag Hf'). cbn [snd].
    rewrite get_after, rewrite_at_compose by done.
    rewrite selection_shown.
    + split_and!.
      * f_equal.
        assert (Hf'' : Repo.find_pk i
                  (rewrite_at i
                     ((λ r, <["is_deleted" := Py.VBool false]> r)
                      ∘ (λ r, <["is_deleted" := Py.VBool true]> r)) t)
                = Some (<["is_deleted" := Py.VBool false]>
                          (<["is_deleted" := Py.VBool true]> r))).
        { rewrite find_pk_rewrite_at; [by rewrite Hf|].
          intros r0. simpl. by rewrite !col_insert_ne. }
        unfold Repo.find_pk in Hf''. by case_bool_decide.
      * rewrite !col_insert_ne by done. apply Hi.
      * apply col_insert_eq.
    + intros r0. simpl. by rewrite !col_insert_ne.
    + intros r0. apply visible_after_restore.
Qed.

Lemma X5_soft_delete_witness :
  Repo.hasattr example_model "is_deleted" = true
  ∧ Repo.find_pk (Py.VInt 1) example_rows = Some live_row
  ∧ (Repo.get example_model (Py.VInt 1) false ∅
       (Repo.soft_delete example_model (Py.VInt 1) (calm example_rows [] [] [])).2).1
    = Repo.Done None.
Proof.
  assert (H1 : Repo.hasattr example_model "is_deleted" = true)
    by (vm_compute; reflexivity).
  assert (H2 : Repo.find_pk (Py.VInt 1) example_rows = Some live_row)
    by (vm_compute; reflexivity).
  split_and!; [exact H1 | exact H2 |].
  apply (X5_soft_delete_hides_restore_undoes example_model (Py.VInt 1) live_row
           example_rows [] [] [] H1 H2).
Defined.

(** ** Repository: deleting many records *)

Section DeletingMany.
Import Py Repo.

Lemma filter_all_true {A} (f : A → bool) (l : list A) :
  (∀ x, f x = true) → List.filter f l = l.
Proof.
  intros H. induction l as [|x l IH]; [done|]. simpl. by rewrite H, IH.
Qed.

Lemma filter_filter_andb {A} (f g : A → bool) (l : list A) :
  List.filter g (List.filter f l) = List.filter (λ x, f x && g x) l.
Proof.
  induction l as [|x l IH]; [done|]. cbn [List.filter].
  destruct (f x); cbn [List.filter andb]; [|done]. by rewrite IH.
Qed.

(** The loop of deletions on an engine that answers normally. *)
Lemma delete_each_calm (objects : list row) t p a l :
  for_each objects (λ obj, db_delete (col "id" obj)) (mkWorld t p a [] l)
  = (Done (map (λ _, tt) objects),
     mkWorld t
       (List.filter (λ r, negb (bool_decide (col "id" r ∈ map (col "id") objects))) p)
       a [] (l ++ map (λ _, Delete) objects)).
Proof.
  revert p l. induction objects as [|o objects IH]; intros p l.
  - cbn [for_each map]. unfold ret. rewrite app_nil_r. do 2 f_equal.
    symmetry. apply filter_all_true. intros r.
    by rewrite bool_decide_eq_false_2 by apply not_elem_of_nil.
  - cbn [for_each]. unfold bind at 1. unfold db_delete at 1.
    unfold bind, storage_call, read_pending, write_pending, ret.
    cbn [plan table pending added log fst snd]. rewrite IH.
    rewrite <- app_assoc. cbn [map app]. do 2 f_equal.
    rewrite filter_filter_andb. apply filter_ext. intros r.
    apply eq_true_iff_eq.
    rewrite andb_true_iff, !negb_true_iff, !bool_decide_eq_false, elem_of_cons.
    tauto.
Qed.

(** A row has the identifier of a selected row exactly when it is
    selected itself. *)
Lemma id_of_selected (ids : list pyval) (t : list row) (r : row) :
  r ∈ t →
  bool_decide (col "id" r ∈ map (col "id") (List.filter (λ r, sat r (In_ "id" ids)) t))
  = sat r (In_ "id" ids).
Proof.
  intros Hin. apply eq_true_iff_eq. rewrite bool_decide_eq_true. split.
  - intros H. apply list_elem_of_In, in_map_iff in H as (o & Ho & Hsel).
    apply filter_In in Hsel as [_ Hsat]. simpl in *. by rewrite <- Ho.
  - intros Hsat. apply list_elem_of_In, in_map_iff. exists r. split; [done|].
    apply filter_In. split; [by apply list_elem_of_In | done].
Qed.

Lemma bind_done {A B} (m : M A) (k : A → M B) (w w' : World) (x : A) :
  m w = (Done x, w') → bind m k w = k x w'.
Proof. intros H. unfold bind. by rewrite H. Qed.

Lemma force_delete_many_calm (ids : list pyval) t p a l :
  (force_delete_many ids (calm t p a l)).1 = Done true
  ∧ table (force_delete_many ids (calm t p a l)).2
    = List.filter (λ r, negb (sat r (In_ "id" ids))) t.
Proof.
  assert (Hsel : run_stmt (where_ (In_ "id" ids) select) t
                 = List.filter (λ r, sat r (In_ "id" ids)) t).
  { unfold run_stmt, window, matching. simpl. apply filter_ext.
    intros r. by rewrite andb_true_r. }
  unfold force_delete_many, get_session, finally, try_except, calm.
  do 3 (erewrite bind_done by reflexivity).
  cbn [table pending added plan log]. rewrite Hsel.
  erewrite bind_done by apply delete_each_calm.
  erewrite bind_done by reflexivity.
  unfold emit, discard, bind, ret.
  cbn [fst snd table pending added plan log app assign_ids].
  split; [done|]. rewrite app_nil_r.
  apply filter_ext_in. intros r Hin.
  rewrite id_of_selected by by apply list_elem_of_In. done.
Qed.

End DeletingMany.

(** X6: on an engine that answers normally [force_delete_many] returns
    true whether or not any identifier matched, and removes exactly the
    rows whose identifier is in the list; a row without identifier is
    never removed, and an empty list removes nothing. *)
Theorem X6_force_delete_many (ids : list Py.pyval)
    (t p a : list Repo.row) (l : list Repo.event) :
  (Repo.force_delete_many ids (calm t p a l)).1 = Repo.Done true
  ∧ (∀ r, r ∈ Repo.table (Repo.force_delete_many ids (calm t p a l)).2
          ↔ r ∈ t ∧ (Repo.col "id" r = Py.VNone ∨ Repo.col "id" r ∉ ids))
  ∧ Repo.table (Repo.force_delete_many [] (calm t p a l)).2 = t.
Proof.
  destruct (force_delete_many_calm ids t p a l) as [Hres Htab].
  split_and!; [done| |].
  - intros r. rewrite Htab, list_elem_of_In, filter_In, <- list_elem_of_In.
    simpl. rewrite negb_true_iff, andb_false_iff, negb_false_iff.
    rewrite bool_decide_eq_true, bool_decide_eq_false. done.
  - destruct (force_delete_many_calm [] t p a l) as [_ ->].
    apply filter_all_true. intros r. cbn [Repo.sat].
    rewrite (bool_decide_eq_false_2 (_ ∈ [])) by apply not_elem_of_nil.
    by rewrite andb_false_r.
Qed.

(** ** Repository: what an update writes *)

Section Updating.
Import Py Repo.
Variable model : Model.

Lemma patch_lookup_written (data r : row) (k : string) (v : pyval) :
  k ∈ attrs model → k ≠ "id" → data !! k = Some v → patch model data r !! k = Some v.
Proof.
  intros Hk Hne Hd. unfold patch. apply lookup_union_Some_l.
  by apply map_lookup_filter_Some.
Qed.

Lemma patch_lookup_kept (data r : row) (k : string) :
  k ∉ attrs model ∨ k = "id" ∨ data !! k = None → patch model data r !! k = r !! k.
Proof.
  intros H. unfold patch. apply lookup_union_r, map_lookup_filter_None.
  destruct H as [H|[H|H]]; [right|right|by left]; intros v _ [? ?]; done.
Qed.

Lemma rewrite_at_ids (i : pyval) (f : row → row) (t : list row) :
  (∀ r, col "id" (f r) = col "id" r) →
  map (col "id") (rewrite_at i f t) = map (col "id") t.
Proof.
  intros Hid. unfold rewrite_at. rewrite map_map. apply map_ext.
  intros r. by destruct (has_id i r).
Qed.

Lemma rewrite_at_other (i : pyval) (f : row → row) (t : list row) (n : nat) (r : row) :
  t !! n = Some r → col "id" r ≠ i → rewrite_at i f t !! n = Some r.
Proof.
  intros Hn Hne. unfold rewrite_at. rewrite list_lookup_fmap_Some. exists r.
  split; [|done]. unfold has_id. by rewrite bool_decide_eq_false_2.
Qed.

End Updating.

(** X7: on an engine that answers normally, [update] of a stored record
    with a non-empty change-set none of whose assignments is refused
    returns the record with every entry of the change-set that names a
    field written; the identifier is kept and no entry is stored under a
    key that names no field; the other rows, the order of the rows and
    their identifiers are unchanged. *)
Theorem X7_update_writes_declared_entries (model : Repo.Model) (i : Py.pyval)
    (o : Repo.obj_in) (exclude_unset : bool) (r : Repo.row)
    (t p a : list Repo.row) (l : list Repo.event) :
  Repo.find_pk i t = Some r →
  delete "id" (Repo.dump o exclude_unset) ≠ ∅ →
  assignable model (Repo.dump o exclude_unset) →
  ∃ r',
    (Repo.update model i o exclude_unset (calm t p a l)).1 = Repo.Done (Some r')
    ∧ Repo.col "id" r' = i
    ∧ (∀ k v, k ∈ Repo.attrs model → k ≠ "id" →
              Repo.dump o exclude_unset !! k = Some v → r' !! k = Some v)
    ∧ (∀ k, k ∉ Repo.attrs model ∨ k = "id" → r' !! k = r !! k)
    ∧ map (Repo.col "id") (Repo.table (Repo.update model i o exclude_unset (calm t p a l)).2)
      = map (Repo.col "id") t
    ∧ (∀ n r0, t !! n = Some r0 → Repo.col "id" r0 ≠ i →
               Repo.table (Repo.update model i o exclude_unset (calm t p a l)).2 !! n
               = Some r0).
Proof.
  intros Hf Hne Hok. exists (patch model (Repo.dump o exclude_unset) r).
  rewrite (update_calm_found model i o exclude_unset r) by done. cbn [fst snd].
  split_and!; [done| | | | |].
  - rewrite patch_id. by apply find_pk_Some in Hf as (_ & _ & ?).
  - intros k v. by apply patch_lookup_written.
  - intros k Hk. apply patch_lookup_kept. tauto.
  - apply rewrite_at_ids. intros r0. apply patch_id.
  - intros n r0. by apply rewrite_at_other.
Qed.

Lemma X7_update_witness :
  Repo.find_pk (Py.VInt 1) example_rows = Some live_row
  ∧ delete "id" (Repo.dump (Repo.Dict {["title" := Py.VStr "z"]}) true) ≠ ∅
  ∧ assignable example_model (Repo.dump (Repo.Dict {["title" := Py.VStr "z"]}) true)
  ∧ ∃ r',
      (Repo.update example_model (Py.VInt 1) (Repo.Dict {["title" := Py.VStr "z"]}) true
         (calm example_rows [] [] [])).1 = Repo.Done (Some r')
      ∧ Repo.col "id" r' = Py.VInt 1.
Proof.
  assert (H1 : Repo.find_pk (Py.VInt 1) example_rows = Some live_row)
    by (vm_compute; reflexivity).
  assert (H2 : delete "id" (Repo.dump (Repo.Dict {["title" := Py.VStr "z"]}) true) ≠ ∅)
    by (vm_compute; discriminate).
  assert (H3 : assignable example_model
                 (Repo.dump (Repo.Dict {["title" := Py.VStr "z"]}) true)).
  { apply map_Forall_singleton. by vm_compute. }
  split_and!; [exact H1 | exact H2 | exact H3 |].
  destruct (X7_update_writes_declared_entries example_model (Py.VInt 1)
              (Repo.Dict {["title" := Py.VStr "z"]}) true live_row
              example_rows [] [] [] H1 H2 H3) as (r' & Hres & Hid & _).
  exists r'. by split.
Defined.

(** X10: on an entity type without the soft-delete flag, [soft_delete] and
    [restore] raise [AttributeError] for every identifier and leave the
    world untouched: no session is opened. *)
Theorem X10_soft_delete_needs_flag (model : Repo.Model) (i : Py.pyval) (w : Repo.World) :
  Repo.hasattr model "is_deleted" = false →
  Repo.soft_delete model i w
  = (Repo.Raised
       (Repo.AttributeError "Model must have 'is_deleted' field for soft delete"), w)
  ∧ Repo.restore model i w
    = (Repo.Raised
         (Repo.AttributeError "Model must have 'is_deleted' field for restore"), w).
Proof.
  intros H. unfold Repo.soft_delete, Repo.restore. by rewrite H.
Qed.

Lemma X10_soft_delete_needs_flag_witness :
  Repo.hasattr flagless_model "is_deleted" = false
  ∧ Repo.soft_delete flagless_model (Py.VInt 1)
      (calm example_rows [] [] [])
    = (Repo.Raised
         (Repo.AttributeError "Model must have 'is_deleted' field for soft delete"),
       calm example_rows [] [] []).
Proof.
  assert (H : Repo.hasattr flagless_model "is_deleted" = false)
    by (vm_compute; reflexivity).
  split; [exact H|].
  apply (X10_soft_delete_needs_flag flagless_model (Py.VInt 1)
           (calm example_rows [] [] []) H).
Defined.

(** ** Repository: how the reads agree *)

Section ReadsAgree.
Import Py Repo.
Variable model : Model.

Lemma head_selection (i : pyval) (incl : bool) (t : list row) :
  is_Some (head (List.filter (has_id i) (chosen model incl ∅ t)))
  ↔ existsb (λ r, has_id i r && visible model incl r) t = true.
Proof.
  unfold chosen. induction t as [|r t IH]; [by split; [intros [? ?]|]|].
  cbn [List.filter existsb]. rewrite fits_empty, andb_true_r.
  destruct (visible model incl r) eqn:Hv; cbn [List.filter].
  - destruct (has_id i r); cbn [head andb orb]; [by split; eauto|].
    by rewrite IH.
  - rewrite andb_false_r. by rewrite IH.
Qed.

End ReadsAgree.

(** X8: on an engine that answers normally the reads agree with each
    other: [list] reports as [total] what [count] returns for the same
    arguments, [get_many] slices what [list] pages, and [exists] answers
    true for an identifier exactly when [get] without filters finds a
    record. *)
Theorem X8_reads_agree (model : Repo.Model) (incl : bool) (filters : Repo.row)
    (page per_page : Z) (i : Py.pyval)
    (t p a : list Repo.row) (l : list Repo.event) :
  (∃ resp,
      (Repo.list_ model page per_page incl filters (calm t p a l)).1 = Repo.Done resp
      ∧ (Repo.count model incl filters (calm t p a l)).1 = Repo.Done (Repo.total resp)
      ∧ (Repo.get_many model ((Repo.page resp - 1) * Repo.per_page resp)
           (Repo.per_page resp) incl filters (calm t p a l)).1
        = Repo.Done (Repo.data resp))
  ∧ (i ≠ Py.VNone →
     ((Repo.exists_ model i incl (calm t p a l)).1 = Repo.Done true
      ↔ ∃ r, (Repo.get model i incl ∅ (calm t p a l)).1 = Repo.Done (Some r))).
Proof.
  split.
  - eexists. rewrite list_calm, count_calm, get_many_calm. cbn [fst snd].
    split_and!; reflexivity.
  - intros Hi. rewrite exists_calm, get_calm. cbn [fst].
    rewrite (bool_decide_eq_false_2 _ Hi). cbn [negb andb].
    pose proof (head_selection model i incl t) as Hsel.
    destruct (existsb _ t).
    + split; [|done]. intros _. destruct Hsel as [_ Hsel].
      destruct (Hsel eq_refl) as [r Hr]. exists r. by rewrite Hr.
    + split; [done|]. intros [r Hr]. destruct Hsel as [Hsel _].
      injection Hr as Hr. rewrite Hr in Hsel. by discriminate Hsel.
Qed.

(** X12: on an engine that answers normally, the page returned by [list]
    is empty exactly when the page number, after clamping, lies beyond
    [pages]. *)
Theorem X12_list_empty_beyond_last_page (model : Repo.Model) (page per_page : Z)
    (incl : bool) (filters : Repo.row) (t p a : list Repo.row) (l : list Repo.event) :
  ∃ resp,
    (Repo.list_ model page per_page incl filters (calm t p a l)).1 = Repo.Done resp
    ∧ (Repo.data resp = [] ↔ Repo.pages resp < Repo.page resp).
Proof.
  eexists. rewrite list_calm. cbn [fst]. split; [reflexivity|]. simpl.
  set (pg := if page <? 1 then 1 else page).
  set (pp := if (per_page <? 1) || (per_page >? 100) then 10 else per_page).
  set (sel := chosen model incl filters t).
  assert (Hpg : 1 ≤ pg) by (unfold pg; destruct (Z.ltb_spec page 1); lia).
  assert (Hpp : 1 ≤ pp).
  { unfold pp. destruct (Z.ltb_spec per_page 1), (Z.gtb_spec per_page 100); simpl; lia. }
  clearbody pg pp sel.
  pose proof (Z.div_mod (Z.of_nat (length sel) + pp - 1) pp ltac:(lia)) as Hdm.
  pose proof (Z.mod_pos_bound (Z.of_nat (length sel) + pp - 1) pp ltac:(lia)) as Hmb.
  set (pages := (Z.of_nat (length sel) + pp - 1) / pp) in *.
  set (rest := (Z.of_nat (length sel) + pp - 1) mod pp) in *.
  clearbody pages rest.
  assert (Hlen : length (take (Z.to_nat pp) (drop (Z.to_nat ((pg - 1) * pp)) sel)) = 0%nat
                 ↔ pages < pg).
  { assert (Hoff : 0 ≤ (pg - 1) * pp) by (apply Z.mul_nonneg_nonneg; lia).
    rewrite length_take, length_drop. split; intros Hz.
    - assert (Hle : Z.of_nat (length sel) ≤ (pg - 1) * pp) by lia.
      apply (Z.mul_lt_mono_pos_l pp); lia.
    - assert (Hmul : pp * pages ≤ pp * (pg - 1))
        by (apply Z.mul_le_mono_nonneg_l; lia).
      assert (Hle : Z.of_nat (length sel) ≤ (pg - 1) * pp) by lia. lia. }
  rewrite <- Hlen. split; [by intros -> | apply nil_length_inv].
Qed.

(** ** Repository: creating many records *)

Section CreatingMany.
Import Py Repo.
Variable model : Model.

Lemma assign_ids_length (n : Z) (rows : list row) :
  length (assign_ids n rows) = length rows.
Proof.
  revert n. induction rows as [|r rows IH]; intros n; [done|]. simpl.
  case_bool_decide; simpl; by rewrite IH.
Qed.

(** The loop of [db.add] calls: the objects queue up in order, each under
    the position it will have among the committed rows. *)
Lemma add_each_calm (objects : list row) t p a l :
  for_each objects (λ obj, bind (db_add obj) (λ i, ret (i, obj))) (mkWorld t p a [] l)
  = (Done (imap (λ j obj, ((length p + length a + j)%nat, obj)) objects),
     mkWorld t p (a ++ objects) [] (l ++ map (λ _, Add) objects)).
Proof.
  revert a l. induction objects as [|o objects IH]; intros a l.
  - cbn [for_each imap map]. unfold ret. by rewrite !app_nil_r.
  - cbn [for_each]. unfold bind at 1. unfold bind at 1. unfold db_add at 1.
    unfold bind, emit, read_pending, read_added, write_added, ret.
    cbn [plan table pending added log fst snd]. rewrite IH.
    rewrite <- !app_assoc. cbn [map app imap]. do 2 f_equal.
    rewrite Nat.add_0_r. f_equal. apply imap_ext. intros j x _. simpl.
    rewrite length_app. simpl. f_equal. lia.
Qed.

(** The loop of refreshes reads each new row back from its position. *)
Lemma refresh_each_calm (handles : list (nat * row)) t p a l :
  for_each handles (λ '(i, obj), db_refresh_at i obj) (mkWorld t p a [] l)
  = (Done (map (λ h, default h.2 (t !! h.1)) handles),
     mkWorld t p a [] (l ++ map (λ _, Refresh) handles)).
Proof.
  revert l. induction handles as [|[i obj] handles IH]; intros l.
  - cbn [for_each map]. unfold ret. by rewrite !app_nil_r.
  - cbn [for_each]. unfold bind at 1. unfold db_refresh_at at 1.
    unfold bind, storage_call, read_table, ret.
    cbn [plan table pending added log fst snd]. rewrite IH.
    rewrite <- !app_assoc. by cbn [map app].
Qed.

Lemma read_back (t rows objs : list row) :
  length rows = length objs →
  map (λ h : nat * row, default h.2 ((t ++ rows) !! h.1))
    (imap (λ j obj, ((length t + 0 + j)%nat, obj)) objs)
  = rows.
Proof.
  intros Hlen. apply list_eq. intros j.
  rewrite list_lookup_fmap, list_lookup_imap.
  destruct (objs !! j) as [obj|] eqn:Ho; simpl.
  - rewrite Nat.add_0_r, lookup_app_r by lia.
    replace (length t + j - length t)%nat with j by lia.
    apply lookup_lt_Some in Ho. rewrite <- Hlen in Ho.
    apply lookup_lt_is_Some in Ho as [x Hx]. by rewrite Hx.
  - symmetry. apply lookup_ge_None. apply lookup_ge_None in Ho. lia.
Qed.

Lemma create_many_calm (objects_in : list obj_in) t p a l :
  let objects := map (λ o, new_object model (dump o true)) objects_in in
  let rows := assign_ids (max_id (t ++ objects) + 1) objects in
  (create_many model objects_in (calm t p a l)).1 = Done rows
  ∧ table (create_many model objects_in (calm t p a l)).2 = t ++ rows.
Proof.
  intros objects rows.
  unfold create_many, get_session, finally, try_except, calm.
  do 2 (erewrite bind_done by reflexivity).
  rewrite map_map. fold objects.
  erewrite bind_done by apply add_each_calm.
  erewrite bind_done by reflexivity.
  cbn [app length]. fold rows.
  rewrite refresh_each_calm.
  unfold emit, discard, bind, ret.
  cbn [fst snd table pending added plan log].
  rewrite read_back by apply assign_ids_length. done.
Qed.

End CreatingMany.

(** X9: on an engine that answers normally [create_many] appends one row
    per input, in order, after the rows already stored, and returns
    exactly the appended rows; an empty input stores nothing. *)
Theorem X9_create_many_appends (model : Repo.Model) (objects_in : list Repo.obj_in)
    (t p a : list Repo.row) (l : list Repo.event) :
  ∃ rows,
    (Repo.create_many model objects_in (calm t p a l)).1 = Repo.Done rows
    ∧ Repo.table (Repo.create_many model objects_in (calm t p a l)).2 = t ++ rows
    ∧ length rows = length objects_in
    ∧ (objects_in = [] → rows = [])
    ∧ (∀ j o r k v,
          objects_in !! j = Some o → rows !! j = Some r →
          k ∈ Repo.attrs model → k ≠ "id" → Repo.dump o true !! k = Some v →
          r !! k = Some v).
Proof.
  destruct (create_many_calm model objects_in t p a l) as [Hres Htab].
  eexists. split_and!; [exact Hres | exact Htab | | |].
  - by rewrite assign_ids_length, length_map.
  - by intros ->.
  - intros j o r k v Ho Hr Hk Hne Hd.
    assert (Hkeep : ∀ n objs j r,
      Repo.assign_ids n objs !! j = Some r →
      ∃ obj, objs !! j = Some obj ∧ r !! k = obj !! k).
    { intros n objs. revert n. induction objs as [|x objs IH]; intros n j' r' Hj; [done|].
      simpl in Hj. destruct j' as [|j'].
      - exists x. split; [done|]. case_bool_decide; simpl in Hj; injection Hj as <-;
          [by rewrite lookup_insert_ne | done].
      - case_bool_decide; simpl in Hj; by apply IH in Hj. }
    apply Hkeep in Hr as (obj & Hobj & ->).
    rewrite list_lookup_fmap, Ho in Hobj. injection Hobj as <-.
    unfold Repo.new_object. apply lookup_union_Some_l.
    by apply map_lookup_filter_Some.
Qed.

(** ** Field introspector: descriptors and definitions *)

Section Descriptors.
Import Py Schemas Typing FieldService.

Lemma parse_field_shape (field_name : string) (field_type : pytype)
    (field_info : FieldInfo) (f : ModelField) :
  _parse_field field_name field_type field_info = Some f →
  name f = field_name
  ∧ type f = _get_base_type field_type
  ∧ is_list f = _is_list_type field_type
  ∧ _detect_relationship field_name field_type = Some (relationship f)
  ∧ is_relationship f = bool_decide (is_Some (relationship f)).
Proof.
  unfold _parse_field. intros H.
  destruct (_detect_relationship field_name field_type) as [r|]; [|done].
  simpl in H. by injection H as <-.
Qed.

(** The loop of [get_model_definition] keeps the order of the attributes
    and collects the relationship of every field that has one. *)
Lemma collect_fields_spec hints items fields0 rels0 fields rels :
  collect_fields hints items fields0 rels0 = Some (fields, rels) →
  ∃ new,
    fields = fields0 ++ new
    ∧ rels = rels0 ++ omap relationship new
    ∧ map name new = List.filter (λ n, negb (is_internal n)) (map fst items)
    ∧ Forall (λ f, is_relationship f = bool_decide (is_Some (relationship f))) new.
Proof.
  revert fields0 rels0. induction items as [|[n fi] items IH]; intros fields0 rels0 H.
  - simpl in H. injection H as <- <-. exists []. by rewrite !app_nil_r.
  - cbn [collect_fields] in H. cbn [map fst List.filter].
    destruct (is_internal n) eqn:E; cbn [negb].
    + by apply IH in H.
    + destruct (_parse_field n (default str_ (hints !! n)) fi) as [f|] eqn:Hp;
        [|done].
      cbn [mbind option_bind] in H.
      apply parse_field_shape in Hp as (Hn & _ & _ & _ & Hr).
      apply IH in H as (new & -> & -> & Hnames & Hall).
      exists (f :: new). rewrite <- !app_assoc. cbn [app map omap].
      split_and!; [done| |by rewrite Hn, Hnames|by constructor].
      rewrite Hr. cbn [omap list_omap].
      destruct (relationship f) as [r|]; simpl; by rewrite <- ?app_assoc.
Qed.

End Descriptors.

(** X13: the model definition lists one descriptor per declared attribute
    that is not internal (leading underscore, [metadata], [registry]), in
    declaration order and under the attribute's name; a descriptor is
    marked as a relationship exactly when it carries one, and the
    definition's relationship list is the relationships of its fields, in
    order.  The table name is the declared one, else the lower-cased class
    name followed by "s". *)
Theorem X13_model_definition_shape (cls : FieldService.ModelClass)
    (d : FieldService.ModelDefinition) :
  FieldService.get_model_definition cls = Some d →
  map FieldService.name (FieldService.fields d)
  = List.filter (λ n, negb (FieldService.is_internal n))
      (map fst (FieldService.cls_fields cls))
  ∧ Forall (λ f, FieldService.is_relationship f = true
                 ↔ is_Some (FieldService.relationship f)) (FieldService.fields d)
  ∧ FieldService.relationships d = omap FieldService.relationship (FieldService.fields d)
  ∧ FieldService.model_name d = FieldService.cls_name cls
  ∧ FieldService.table_name d
    = match FieldService.cls_tablename cls with
      | Some n => n
      | None => Py.lower (FieldService.cls_name cls) +:+ "s"
      end.
Proof.
  unfold FieldService.get_model_definition. intros H.
  destruct (FieldService.collect_fields _ _ [] []) as [[fields rels]|] eqn:Hc; [|done].
  simpl in H. injection H as <-. simpl.
  apply collect_fields_spec in Hc as (new & -> & -> & Hnames & Hall).
  split_and!; try done.
  - eapply Forall_impl; [exact Hall|]. intros f Hf. simpl in Hf.
    rewrite Hf. apply bool_decide_eq_true.
Qed.

Lemma X13_model_definition_shape_witness :
  ∃ d, FieldService.get_model_definition example_entity = Some d
       ∧ map FieldService.name (FieldService.fields d)
         = ["id"; "title"; "author_id"; "created_at"; "updated_at"; "is_deleted"]
       ∧ FieldService.table_name d = "books".
Proof.
  destruct (FieldService.get_model_definition example_entity) as [d|] eqn:Hd;
    [|vm_compute in Hd; discriminate].
  exists d. split; [done|].
  destruct (X13_model_definition_shape example_entity d Hd)
    as (Hnames & _ & _ & _ & Htab).
  rewrite Hnames, Htab. split; vm_compute; reflexivity.
Defined.

(** ** Field introspector: base types, failures, foreign-key widgets *)

Section BaseTypes.
Import Py Schemas Typing FieldService.

Lemma lower_c_upper_c (c : ascii) : lower_c (upper_c c) = lower_c c.
Proof. by destruct c as [[] [] [] [] [] [] [] []]. Qed.

Lemma lower_c_idemp (c : ascii) : lower_c (lower_c c) = lower_c c.
Proof. by destruct c as [[] [] [] [] [] [] [] []]. Qed.

Lemma isupper_lower_c (c : ascii) : isupper_c (lower_c c) = false.
Proof. by destruct c as [[] [] [] [] [] [] [] []]. Qed.

Lemma lower_capitalize (s : string) : lower (capitalize s) = lower s.
Proof.
  unfold lower, capitalize. rewrite <- (l2s_s2l s) at 2.
  destruct (s2l s) as [|c r]; [done|]. rewrite !s2l_l2s. simpl.
  rewrite lower_c_upper_c. do 2 f_equal. rewrite map_map.
  apply map_ext. intros x. apply lower_c_idemp.
Qed.

Lemma upper_named_named (t : pytype) : named t → is_Some (upper_named t).
Proof.
  unfold named, upper_named, first_isupper. intros H.
  destruct (attr_name t) as [n|]; [|by eauto].
  destruct (s2l n) as [|c r] eqn:E.
  - exfalso. apply H. f_equal. rewrite <- (l2s_s2l n), E. done.
  - destruct (isupper_c c); eauto.
Qed.

(** [_detect_relationship] raises only on an empty [__name__]. *)
Lemma detect_relationship_total (field_name : string) (field_type : pytype) :
  named field_type → Forall named (attr_args field_type) →
  is_Some (_detect_relationship field_name field_type).
Proof.
  intros Hn Hargs. unfold _detect_relationship.
  destruct (endswith field_name "_id"); [by eauto|].
  assert (Hlist : is_Some
    match attr_origin field_type, attr_args field_type with
    | Some o, arg_type :: _ =>
        if is_list_class o then
          match upper_named arg_type with
          | None => None
          | Some (Some n) =>
              Some (Some (mkRelationshipInfo ONE_TO_MANY n None
                ("One-to-many relationship with " +:+ n)))
          | Some None => Some None
          end
        else Some None
    | _, _ => Some None
    end).
  { destruct (attr_origin field_type); [|by eauto].
    destruct (attr_args field_type) as [|arg rest]; [by eauto|].
    destruct (is_list_class _); [|by eauto].
    apply Forall_cons in Hargs as [Harg _].
    destruct (upper_named_named arg Harg) as [[n|] ->]; eauto. }
  destruct (upper_named_named field_type Hn) as [[n|] ->]; [|done].
  case_bool_decide; [done | by eauto].
Qed.

End BaseTypes.

(** X14: the semantic type of a list annotation is that of its element
    type, for [typing.List] and the built-in [list] alike, and a bare
    [list] is [json]; the built-in classes map by the table; a class
    outside the table is typed by the first of "uuid", "datetime",
    "email", "url" its lower-cased name contains and is [string]
    otherwise.  [Optional[X]] is never unwrapped: its type is [string]
    whatever [X] is. *)
Theorem X14_base_type :
  (∀ x, FieldService._get_base_type (Typing.List_ x) = FieldService._get_base_type x)
  ∧ (∀ x, FieldService._get_base_type (Typing.list_ x) = FieldService._get_base_type x)
  ∧ FieldService._get_base_type (Typing.TBuiltin Typing.Blist) = Schemas.JSON
  ∧ (∀ b, FieldService._get_base_type (Typing.TBuiltin b)
          = match b with
            | Typing.Bstr => Schemas.STRING
            | Typing.Bint => Schemas.INTEGER
            | Typing.Bfloat => Schemas.FLOAT
            | Typing.Bbool => Schemas.BOOLEAN
            | Typing.Bdict | Typing.Blist => Schemas.JSON
            | Typing.BNoneType => Schemas.STRING
            end)
  ∧ (∀ n, n ≠ "List" →
          FieldService._get_base_type (Typing.TClass n)
          = if Py.contains "uuid" (Py.lower n) then Schemas.UUID
            else if Py.contains "datetime" (Py.lower n) then Schemas.DATETIME
            else if Py.contains "email" (Py.lower n) then Schemas.EMAIL
            else if Py.contains "url" (Py.lower n) then Schemas.URL
            else Schemas.STRING)
  ∧ (∀ x, FieldService._get_base_type (Typing.Optional_ x) = Schemas.STRING).
Proof.
  split_and!; try done.
  - by intros [].
  - intros n Hl. cbn. unfold FieldService.name_is. cbn.
    rewrite (bool_decide_eq_false_2 (n = "List")) by done.
    by case_bool_decide.
Qed.

(** X15: parsing a field fails only on an annotation with an empty
    [__name__]: when the declared type and its arguments have non-empty
    names a descriptor is produced, and for a name ending in [_id] one is
    produced whatever the type. *)
Theorem X15_parse_field_succeeds (field_name : string) (field_type : Typing.pytype)
    (field_info : FieldService.FieldInfo) :
  (named field_type → Forall named (Typing.attr_args field_type) →
   is_Some (FieldService._parse_field field_name field_type field_info))
  ∧ (Py.endswith field_name "_id" = true →
     is_Some (FieldService._parse_field field_name field_type field_info))
  ∧ FieldService._parse_field "tags" (Typing.TClass "") field_info = None.
Proof.
  split_and!.
  - intros Hn Hargs. unfold FieldService._parse_field.
    destruct (detect_relationship_total field_name field_type Hn Hargs) as [r ->].
    by eauto.
  - intros He. unfold FieldService._parse_field, FieldService._detect_relationship.
    rewrite He. by eauto.
  - done.
Qed.

(** X16: every attribute whose name ends in [_id] becomes, in the form
    layout, a select widget fed by the listing endpoint of the related
    entity, "/api/v1/" followed by the lower-cased stem and "s". *)
Theorem X16_foreign_key_widget (stem : string) (field_type : Typing.pytype)
    (field_info : FieldService.FieldInfo) :
  ∃ f cfg,
    FieldService._parse_field (stem +:+ "_id") field_type field_info = Some f
    ∧ FieldService._generate_form_layout [f] = [cfg]
    ∧ cfg !! "name" = Some (Py.VStr (stem +:+ "_id"))
    ∧ cfg !! "type" = Some (Py.VStr "select")
    ∧ cfg !! "options" = Some (Py.VStr ("/api/v1/" +:+ Py.lower stem +:+ "s")).
Proof.
  assert (Hsuf : Py.endswith (stem +:+ "_id") "_id" = true).
  { apply endswith_iff. by exists stem. }
  assert (Hskip : stem +:+ "_id" ∉ FieldService.form_skipped).
  { intros Hin. unfold FieldService.form_skipped in Hin.
    repeat (apply elem_of_cons in Hin as [Hin|Hin];
            [rewrite Hin in Hsuf; vm_compute in Hsuf; discriminate|]).
    by apply elem_of_nil in Hin. }
  unfold FieldService._parse_field, FieldService._detect_relationship.
  rewrite Hsuf, drop_last_id. cbn [mbind option_bind].
  eexists _, _. split; [reflexivity|].
  cbn [FieldService._generate_form_layout FieldService.name].
  rewrite bool_decide_eq_false_2 by done. split; [reflexivity|].
  split; [apply field_config_name|].
  unfold FieldService.field_config_of.
  cbn [FieldService.is_relationship FieldService.relationship
       FieldService.validation Schemas.rel_type].
  rewrite bool_decide_eq_true_2 by eauto.
  unfold FieldService.options_url. cbn [Schemas.related_model].
  rewrite lower_capitalize. split.
  - rewrite lookup_insert_ne by done. apply lookup_insert_eq.
  - apply lookup_insert_eq.
Qed.

(** ** Router: schema skeletons *)

Section SchemaSkeletons.
Import Py Schemas FieldService Router.

Lemma schemas_from_spec fields (cs us : gmap string (gmap string pyobj)) :
  us = (λ d, <["required" := Plain (VBool false)]> d) <$> cs →
  (schemas_from fields cs us).2
  = (λ d, <["required" := Plain (VBool false)]> d) <$> (schemas_from fields cs us).1.
Proof.
  revert cs us. induction fields as [|f fields IH]; intros cs us H; [done|].
  cbn [schemas_from]. case_bool_decide; [by apply IH|].
  apply IH. by rewrite fmap_insert, H.
Qed.

Lemma schemas_from_skipped fields (cs us : gmap string (gmap string pyobj)) k :
  k ∈ form_skipped → cs !! k = None → (schemas_from fields cs us).1 !! k = None.
Proof.
  intros Hk. revert cs us. induction fields as [|f fields IH]; intros cs us H; [done|].
  cbn [schemas_from]. case_bool_decide as Hn; [by apply IH|].
  apply IH. rewrite lookup_insert_ne; [done|]. by intros <-.
Qed.

Lemma schemas_from_entries fields (cs us : gmap string (gmap string pyobj)) k d :
  (schemas_from fields cs us).1 !! k = Some d →
  cs !! k = Some d
  ∨ ∃ f, f ∈ fields ∧ name f = k ∧ (name f ∉ form_skipped) ∧ d = field_def_of f.
Proof.
  revert cs us. induction fields as [|f fields IH]; intros cs us H; [by left|].
  cbn [schemas_from] in H. case_bool_decide as Hn.
  - apply IH in H as [H|(g & Hg & Hrest)]; [by left|].
    right. exists g. split; [by right | done].
  - apply IH in H as [H|(g & Hg & Hrest)].
    + destruct (decide (name f = k)) as [E|E].
      * rewrite E, lookup_insert_eq in H. injection H as <-.
        right. exists f. split_and!; [by left | done | done | done].
      * rewrite lookup_insert_ne in H by done. by left.
    + right. exists g. split; [by right | done].
Qed.

Lemma field_def_required (f : ModelField) :
  name f ∉ form_skipped →
  field_def_of f !! "required" = Some (Plain (VBool (is_required f))).
Proof.
  intros Hn. unfold field_def_of.
  assert (Hname : bool_decide (name f ∈ ["id"; "created_at"; "updated_at"]) = false).
  { apply bool_decide_eq_false. intros Hin. apply Hn. unfold form_skipped.
    apply list_elem_of_In. apply list_elem_of_In in Hin.
    simpl in Hin |- *. tauto. }
  rewrite Hname, andb_true_r.
  destruct (negb _); [rewrite lookup_insert_ne by done|]; apply lookup_insert_eq.
Qed.

End SchemaSkeletons.

(** X17: in the schema skeletons of [/model/schemas] the update schema is
    the create schema with every entry's [required] set to false, so both
    have the same fields; neither lists [id], [created_at], [updated_at]
    or [is_deleted]; and every entry of the create schema comes from a
    field of that name and carries that field's own [is_required] as
    [required]. *)
Theorem X17_schema_skeletons (fields : list FieldService.ModelField) :
  let schemas := Router.schemas_from fields ∅ ∅ in
  schemas.2
  = (λ d, <["required" := FieldService.Plain (Py.VBool false)]> d) <$> schemas.1
  ∧ dom schemas.2 = dom schemas.1
  ∧ (∀ k, k ∈ ["id"; "created_at"; "updated_at"; "is_deleted"] →
          schemas.1 !! k = None ∧ schemas.2 !! k = None)
  ∧ (∀ k d, schemas.1 !! k = Some d →
            ∃ f, f ∈ fields ∧ FieldService.name f = k
                 ∧ d !! "required"
                   = Some (FieldService.Plain (Py.VBool (FieldService.is_required f)))
                 ∧ d !! "type"
                   = Some (FieldService.Plain
                             (Py.VStr (Schemas.FieldType_value (FieldService.type f))))).
Proof.
  intros schemas.
  assert (Hup : schemas.2
    = (λ d, <["required" := FieldService.Plain (Py.VBool false)]> d) <$> schemas.1).
  { apply schemas_from_spec. by rewrite fmap_empty. }
  split_and!; [done| | |].
  - rewrite Hup. apply dom_fmap_L.
  - intros k Hk.
    assert (Hc : schemas.1 !! k = None) by by apply schemas_from_skipped.
    split; [done|]. by rewrite Hup, lookup_fmap, Hc.
  - intros k d Hd. apply schemas_from_entries in Hd as [Hd|(f & Hf & Hn & Hs & ->)];
      [by rewrite lookup_empty in Hd|].
    exists f. split_and!; [done | done | by apply field_def_required |].
    unfold Router.field_def_of.
    destruct (negb _); repeat (rewrite lookup_insert_ne by done);
      apply lookup_insert_eq.
Qed.

(** ** Utilities *)


(** ** Repository: names the class has that are no fields *)

Section ClassAttributeKeys.
Import Py Repo.
Variable model : Model.

Lemma fits_class_attr (k : string) (a : class_attr) (v : pyval) (filters r : row) :
  k ∉ attrs model → others model !! k = Some a →
  fits model (<[k := v]> filters) r
  = ca_equals a v && fits model (delete k filters) r.
Proof.
  intros Hk Ha. rewrite <- (insert_delete_eq filters k v). unfold fits.
  apply eq_true_iff_eq. rewrite andb_true_iff, !bool_decide_eq_true.
  rewrite map_Forall_insert by apply lookup_delete_eq. rewrite Ha. simpl.
  tauto.
Qed.

Lemma chosen_class_attr (k : string) (a : class_attr) (v : pyval) (incl : bool)
    (filters : row) (t : list row) :
  k ∉ attrs model → others model !! k = Some a →
  chosen model incl (<[k := v]> filters) t
  = if ca_equals a v then chosen model incl (delete k filters) t else [].
Proof.
  intros Hk Ha. unfold chosen.
  destruct (ca_equals a v) eqn:E.
  - apply filter_ext. intros r. by rewrite (fits_class_attr k a), E.
  - induction t as [|r t IH]; [done|]. cbn [List.filter].
    by rewrite (fits_class_attr k a), E, andb_false_r.
Qed.

End ClassAttributeKeys.

(** X27: a filter whose key names something the entity class has that is
    no field, an inherited method for one, is not ignored: the attribute
    itself is compared with the value.  When the two differ no record
    passes, so [count] gives 0, [get] finds nothing and [get_many] and
    [list] return no record; when they are equal the filter changes
    nothing. *)
Theorem X27_filter_on_class_attribute (model : Repo.Model) (k : string)
    (a : Repo.class_attr) (v : Py.pyval) (incl : bool) (filters : Repo.row)
    (t p a0 : list Repo.row) (l : list Repo.event) :
  k ∉ Repo.attrs model → Repo.others model !! k = Some a →
  Repo.hasattr model k = true
  ∧ (Repo.ca_equals a v = false →
     (Repo.count model incl (<[k := v]> filters) (calm t p a0 l)).1 = Repo.Done 0
     ∧ (∀ i, (Repo.get model i incl (<[k := v]> filters) (calm t p a0 l)).1
             = Repo.Done None)
     ∧ (∀ skip lim,
          (Repo.get_many model skip lim incl (<[k := v]> filters) (calm t p a0 l)).1
          = Repo.Done [])
     ∧ (∀ page per_page,
          ∃ resp,
            (Repo.list_ model page per_page incl (<[k := v]> filters)
               (calm t p a0 l)).1 = Repo.Done resp
            ∧ Repo.total resp = 0 ∧ Repo.data resp = []))
  ∧ (Repo.ca_equals a v = true →
     Repo.count model incl (<[k := v]> filters) (calm t p a0 l)
     = Repo.count model incl (delete k filters) (calm t p a0 l)
     ∧ (∀ i, Repo.get model i incl (<[k := v]> filters) (calm t p a0 l)
             = Repo.get model i incl (delete k filters) (calm t p a0 l))
     ∧ (∀ skip lim,
          Repo.get_many model skip lim incl (<[k := v]> filters) (calm t p a0 l)
          = Repo.get_many model skip lim incl (delete k filters) (calm t p a0 l))).
Proof.
  intros Hk Ha. split_and!.
  - unfold Repo.hasattr. rewrite Ha.
    rewrite (bool_decide_eq_true_2 (is_Some (Some a))) by eauto.
    apply orb_true_r.
  - intros E. split_and!.
    + by rewrite count_calm, (chosen_class_attr model k a), E.
    + intros i. by rewrite get_calm, (chosen_class_attr model k a), E.
    + intros skip lim.
      rewrite get_many_calm, (chosen_class_attr model k a), E by done. cbn [fst].
      by rewrite drop_nil, take_nil.
    + intros page per_page. eexists. rewrite list_calm. cbn [fst].
      split; [done|]. cbn [Repo.total Repo.data].
      rewrite (chosen_class_attr model k a), E by done.
      by rewrite drop_nil, take_nil.
  - intros E. split_and!.
    + by rewrite !count_calm, (chosen_class_attr model k a), E.
    + intros i. by rewrite !get_calm, (chosen_class_attr model k a), E.
    + intros skip lim.
      by rewrite !get_many_calm, (chosen_class_attr model k a), E.
Qed.

Lemma X27_filter_on_class_attribute_witness :
  ("copy" ∉ Repo.attrs example_model)
  ∧ Repo.others example_model !! "copy" = Some inherited
  ∧ (Repo.count example_model false {["copy" := Py.VInt 1]}
       (calm example_rows [] [] [])).1 = Repo.Done 0
  ∧ (Repo.count example_model false ∅ (calm example_rows [] [] [])).1 = Repo.Done 1.
Proof.
  assert (H1 : "copy" ∉ Repo.attrs example_model) by compute_done.
  assert (H2 : Repo.others example_model !! "copy" = Some inherited)
    by (by vm_compute).
  split_and!; [exact H1 | exact H2 | | by vm_compute].
  destruct (X27_filter_on_class_attribute example_model "copy" inherited
              (Py.VInt 1) false ∅ example_rows [] [] [] H1 H2) as (_ & Hne & _).
  apply Hne. reflexivity.
Defined.

(** X28: when [update] is given, for a stored record, a change-set with
    an entry whose key names something the class has that is no field,
    and the assignment is refused, the exception of the assignment
    leaves [update] as it is, not translated into a [RepositoryError];
    nothing is committed or rolled back, the session is released and the
    committed rows are as they were.  For an identifier that matches no
    record the same change-set gives absent. *)
Theorem X28_update_refused_assignment (model : Repo.Model) (i : Py.pyval)
    (o : Repo.obj_in) (exclude_unset : bool)
    (t p a : list Repo.row) (l : list Repo.event) :
  ¬ assignable model (Repo.dump o exclude_unset) →
  (∀ r, Repo.find_pk i t = Some r →
        Repo.update model i o exclude_unset (calm t p a l)
        = (Repo.Raised Repo.SetattrError,
           after t l [Repo.Acquire; Repo.Get; Repo.Release]))
  ∧ (Repo.find_pk i t = None →
     Repo.update model i o exclude_unset (calm t p a l)
     = (Repo.Done None, after t l [Repo.Acquire; Repo.Get; Repo.Release])).
Proof.
  intros Hno.
  assert (Hne : delete "id" (Repo.dump o exclude_unset) ≠ ∅).
  { intros He. apply Hno. intros k v Hkv.
    destruct (decide (k = "id")) as [->|Hk]; [apply refused_id|].
    assert (delete "id" (Repo.dump o exclude_unset) !! k = Some v) as Hd
      by (by rewrite lookup_delete_ne).
    rewrite He in Hd. done. }
  split.
  - intros r Hf. by apply (update_calm_refused model i o exclude_unset r).
  - intros Hf. by apply update_calm_missing.
Qed.

Lemma X28_update_refused_assignment_witness :
  ¬ assignable example_model
      (Repo.dump (Repo.Dict {["model_config" := Py.VInt 5]}) true)
  ∧ Repo.update example_model (Py.VInt 1)
      (Repo.Dict {["model_config" := Py.VInt 5]}) true (calm example_rows [] [] [])
    = (Repo.Raised Repo.SetattrError,
       after example_rows [] [Repo.Acquire; Repo.Get; Repo.Release]).
Proof.
  assert (H : ¬ assignable example_model
                (Repo.dump (Repo.Dict {["model_config" := Py.VInt 5]}) true)).
  { intros Hok.
    assert (Hl : Repo.dump (Repo.Dict {["model_config" := Py.VInt 5]}) true
                 !! "model_config" = Some (Py.VInt 5)) by (by vm_compute).
    apply Hok in Hl. vm_compute in Hl. discriminate. }
  split; [exact H|].
  apply (proj1 (X28_update_refused_assignment example_model (Py.VInt 1)
                  (Repo.Dict {["model_config" := Py.VInt 5]}) true
                  example_rows [] [] [] H) live_row).
  reflexivity.
Defined.

(** ** Repository: reads that fail *)

Section FailingReads.
Import Py Repo.
Local Open Scope repo_scope.

Lemma querying_ret {A} (a : A) : querying (ret a).
Proof. intros w. exists []. split_and!; [by rewrite app_nil_r|constructor|done]. Qed.

Lemma querying_bind {A B} (m : M A) (k : A → M B) :
  querying m → (∀ a, querying (k a)) → querying (bind m k).
Proof.
  intros Hm Hk w. unfold bind. specialize (Hm w).
  destruct (m w) as [[a|[e| | |]] w1]; try done.
  specialize (Hk a w1). destruct Hm as (evs1 & Hl1 & Hq1 & Ht1 & Hp1 & Ha1).
  destruct (k a w1) as [[b|[e| | |]] w2]; try done;
    destruct Hk as (evs2 & Hl2 & Hq2 & Ht2 & Hp2 & Ha2); exists (evs1 ++ evs2);
    (split_and!; [by rewrite Hl2, Hl1, !app_assoc|by apply Forall_app_2|
                  unfold same_rows; split_and!; congruence]).
Qed.

Lemma querying_exec : querying (storage_call Exec).
Proof.
  intros w. unfold storage_call. destruct (plan w) as [|[e|] pl]; simpl.
  - exists [Exec]. by split_and!; [|repeat constructor|].
  - exists []. by split_and!; [|constructor|].
  - exists [Exec]. by split_and!; [|repeat constructor|].
Qed.

Lemma querying_read_pending : querying read_pending.
Proof. intros w. exists []. split_and!; [by rewrite app_nil_r|constructor|done]. Qed.

Lemma querying_db_exec s : querying (db_exec s).
Proof.
  unfold db_exec.
  repeat first [apply querying_bind; [|intros] | apply querying_exec
               | apply querying_read_pending | apply querying_ret].
Qed.

Lemma querying_db_count s : querying (db_count s).
Proof.
  unfold db_count.
  repeat first [apply querying_bind; [|intros] | apply querying_exec
               | apply querying_read_pending | apply querying_ret].
Qed.

(** A session around a querying body whose handler only translates. *)
Lemma read_session {A} (body : M A) (operation : string) (w : World) :
  querying body →
  let res := get_session (try_except body (λ e, _handle_db_error e operation)) w in
  ∃ evs,
    queries evs
    ∧ table res.2 = table w ∧ pending res.2 = table w ∧ added res.2 = []
    ∧ ((∃ a, res.1 = Done a ∧ log res.2 = log w ++ Acquire :: evs ++ [Release])
       ∨ (∃ e, res.1 = Raised (RepositoryError (db_error_message e operation) (Some e))
               ∧ log res.2 = log w ++ Acquire :: evs ++ [Fault e; Release])).
Proof.
  intros Hb res.
  assert (Hres : res = get_session
                         (try_except body (λ e, _handle_db_error e operation)) w)
    by done.
  clearbody res.
  unfold get_session, try_except, finally, bind at 1 2, emit, discard in Hres.
  simpl in Hres.
  match type of Hres with
  | context [body ?w0] =>
      specialize (Hb w0); destruct (body w0) as [[a|[e| | |]] w1]
  end; try done; simpl in Hb; destruct Hb as (evs & Hl & Hq & Ht & Hp & Ha);
    unfold _handle_db_error, raise, bind, emit, discard in Hres;
    simpl in Hres; subst res; simpl; simpl in Ht; exists evs;
    (split_and!; [done|done|done|done|]).
  - left. exists a. split; [done|]. rewrite Hl, <- !app_assoc. by simpl.
  - right. exists e. split; [done|]. rewrite Hl, <- !app_assoc. by simpl.
Qed.

Lemma read_outcome (model : Model) (op : read_op) (w : World) :
  let res := run_read model op w in
  ∃ evs,
    queries evs
    ∧ table res.2 = table w ∧ pending res.2 = table w ∧ added res.2 = []
    ∧ ((res.1 = None ∧ log res.2 = log w ++ Acquire :: evs ++ [Release])
       ∨ (∃ e, res.1 = Some (RepositoryError (db_error_message e (read_name op))
                               (Some e))
               ∧ log res.2 = log w ++ Acquire :: evs ++ [Fault e; Release])).
Proof.
  assert (Hshape : ∀ A (body : M A),
    querying body →
    let res := ending (get_session
                 (try_except body (λ e, _handle_db_error e (read_name op))) w) in
    ∃ evs,
      queries evs
      ∧ table res.2 = table w ∧ pending res.2 = table w ∧ added res.2 = []
      ∧ ((res.1 = None ∧ log res.2 = log w ++ Acquire :: evs ++ [Release])
         ∨ (∃ e, res.1 = Some (RepositoryError (db_error_message e (read_name op))
                                 (Some e))
                 ∧ log res.2 = log w ++ Acquire :: evs ++ [Fault e; Release]))).
  { intros A body Hb.
    destruct (read_session body (read_name op) w Hb)
      as (evs & Hq & Ht & Hp & Ha & H).
    exists evs. unfold ending. simpl. split_and!; try done.
    destruct H as [(a & Hr & Hl)|(e & Hr & Hl)]; rewrite Hr.
    - by left.
    - right. by exists e. }
  destruct op; simpl; apply Hshape;
    repeat first [apply querying_db_exec | apply querying_db_count
                 | apply querying_ret | apply querying_bind; [|intros]].
Qed.

End FailingReads.

(** X18: every run of [get], [get_one], [get_many], [list], [count] and
    [exists] opens one session, sends it nothing but queries and releases
    it; it never commits and never rolls back.  The run ends normally, or
    a query failed: then nothing is asked after the failure, and the
    caller gets a [RepositoryError] that names the operation and carries
    the engine's error.  Either way the committed rows are untouched and
    nothing of the session is left. *)
Theorem X18_reads_only_query (model : Repo.Model) (op : read_op) (w : Repo.World) :
  let res := run_read model op w in
  ∃ evs,
    queries evs
    ∧ Repo.table res.2 = Repo.table w
    ∧ Repo.pending res.2 = Repo.table w ∧ Repo.added res.2 = []
    ∧ ((res.1 = None
        ∧ Repo.log res.2 = Repo.log w ++ Repo.Acquire :: evs ++ [Repo.Release])
       ∨ (∃ e, res.1 = Some (Repo.RepositoryError
                               ((if Repo.is_integrity e
                                 then "Database integrity error during "
                                 else "Database error during ")
                                +:+ read_name op +:+ ": " +:+ Repo.error_text e)
                               (Some e))
               ∧ Repo.log res.2
                 = Repo.log w ++ Repo.Acquire :: evs
                     ++ [Repo.Fault e; Repo.Release])).
Proof.
  intros res. destruct (read_outcome model op w) as (evs & Hq & Ht & Hp & Ha & H).
  exists evs. split_and!; try done.
  destruct H as [H|(e & Hr & Hl)]; [by left|]. right. exists e. split; [|done].
  fold res in Hr. rewrite Hr. unfold Repo.db_error_message.
  by destruct (Repo.is_integrity e).
Qed.

(** ** Text helpers: splitting and stripping *)

Section Splitting.
Import Py.

Lemma split_first_l_app (c : ascii) (a b : list ascii) :
  c ∉ a → split_first_l c (a ++ c :: b) = Some (a, b).
Proof.
  induction a as [|x a IH]; intros Hc; simpl.
  - by rewrite bool_decide_eq_true_2.
  - apply not_elem_of_cons in Hc as [Hx Ha].
    rewrite bool_decide_eq_false_2 by done. by rewrite IH.
Qed.

Lemma split_first_l_None (c : ascii) (l : list ascii) :
  c ∉ l → split_first_l c l = None.
Proof.
  induction l as [|x l IH]; intros Hc; simpl; [done|].
  apply not_elem_of_cons in Hc as [Hx Hl].
  rewrite bool_decide_eq_false_2 by done. by rewrite IH.
Qed.

Lemma split_l_plain (c : ascii) (a : list ascii) : c ∉ a → split_l c a = [a].
Proof.
  induction a as [|x a IH]; intros Hc; simpl; [done|].
  apply not_elem_of_cons in Hc as [Hx Ha].
  rewrite bool_decide_eq_false_2 by done. by rewrite IH.
Qed.

Lemma split_l_app (c : ascii) (a l : list ascii) :
  c ∉ a → split_l c (a ++ c :: l) = a :: split_l c l.
Proof.
  induction a as [|x a IH]; intros Hc; simpl.
  - by rewrite bool_decide_eq_true_2.
  - apply not_elem_of_cons in Hc as [Hx Ha].
    rewrite bool_decide_eq_false_2 by done. by rewrite IH.
Qed.

Lemma split_l_joined (c : ascii) (segs : list (list ascii)) :
  segs ≠ [] → Forall (λ a, c ∉ a) segs → split_l c (joined_l c segs) = segs.
Proof.
  induction segs as [|a segs IH]; [done|]. intros _ Hall.
  apply Forall_cons in Hall as [Ha Hall].
  destruct segs as [|b segs]; [by apply split_l_plain|].
  change (joined_l c (a :: b :: segs)) with (a ++ c :: joined_l c (b :: segs)).
  rewrite split_l_app by done. by rewrite IH.
Qed.

Lemma lstrip_l_app (a b : list ascii) (c : ascii) :
  isspace_c c = false → lstrip_l (a ++ c :: b) = lstrip_l a ++ c :: b.
Proof.
  intros Hc. induction a as [|x a IH]; simpl; [by rewrite Hc|].
  by destruct (isspace_c x).
Qed.

Lemma lstrip_l_idemp (l : list ascii) : lstrip_l (lstrip_l l) = lstrip_l l.
Proof.
  induction l as [|x l IH]; [done|]. simpl.
  destruct (isspace_c x) eqn:E; [done|]. simpl. by rewrite E.
Qed.

Lemma lstrip_l_spaces (l : list ascii) :
  Forall (λ c, isspace_c c = true) l → lstrip_l l = [].
Proof. induction 1 as [|x l Hx _ IH]; [done|]. simpl. by rewrite Hx. Qed.

Lemma lstrip_l_elem (x : ascii) (l : list ascii) : x ∈ lstrip_l l → x ∈ l.
Proof.
  induction l as [|y l IH]; [done|]. simpl.
  destruct (isspace_c y); [|done]. intros H. right. by apply IH.
Qed.

(** A string is blank, or has a first character that is not white space. *)
Lemma lstrip_l_cases (l : list ascii) :
  Forall (λ c, isspace_c c = true) l
  ∨ ∃ sp c m, l = sp ++ c :: m ∧ Forall (λ c, isspace_c c = true) sp
              ∧ isspace_c c = false.
Proof.
  induction l as [|x l IH]; [by left|].
  destruct (isspace_c x) eqn:E.
  - destruct IH as [IH|(sp & c & m & -> & Hsp & Hc)].
    + left. by constructor.
    + right. exists (x :: sp), c, m. split_and!; [done|by constructor|done].
  - right. by exists [], x, l.
Qed.

Lemma rstrip_l_app (a b : list ascii) (c : ascii) :
  isspace_c c = false →
  rev (lstrip_l (rev (a ++ c :: b))) = a ++ c :: rev (lstrip_l (rev b)).
Proof.
  intros Hc. rewrite rev_app_distr. simpl. rewrite <- app_assoc. simpl.
  rewrite lstrip_l_app by done. rewrite rev_app_distr. simpl.
  rewrite rev_involutive. by rewrite <- app_assoc.
Qed.

Lemma rstrip_l_spaces (l : list ascii) :
  Forall (λ c, isspace_c c = true) l → rev (lstrip_l (rev l)) = [].
Proof.
  intros H. rewrite lstrip_l_spaces; [done|].
  apply Forall_forall. intros x Hx. rewrite Forall_forall in H. apply H.
  revert Hx. by rewrite !list_elem_of_In, <- in_rev.
Qed.

Lemma rstrip_l_idemp (l : list ascii) :
  rev (lstrip_l (rev (rev (lstrip_l (rev l))))) = rev (lstrip_l (rev l)).
Proof. by rewrite rev_involutive, lstrip_l_idemp. Qed.

Lemma rstrip_l_elem (x : ascii) (l : list ascii) :
  x ∈ rev (lstrip_l (rev l)) → x ∈ l.
Proof.
  rewrite !list_elem_of_In, <- in_rev, <- list_elem_of_In. intros H.
  apply lstrip_l_elem in H. revert H.
  by rewrite !list_elem_of_In, <- in_rev.
Qed.

Lemma lstrip_rstrip (l : list ascii) :
  lstrip_l (rev (lstrip_l (rev l))) = rev (lstrip_l (rev (lstrip_l l))).
Proof.
  destruct (lstrip_l_cases l) as [H|(sp & c & m & -> & Hsp & Hc)].
  - by rewrite rstrip_l_spaces, (lstrip_l_spaces l).
  - rewrite rstrip_l_app, !lstrip_l_app by done.
    rewrite (lstrip_l_spaces sp) by done.
    by rewrite (rstrip_l_app [] m c).
Qed.

(** [strip] on the characters. *)
Lemma s2l_strip (s : string) :
  s2l (strip s) = rev (lstrip_l (rev (lstrip_l (s2l s)))).
Proof. unfold strip. apply s2l_l2s. Qed.

Lemma strip_l2s_lstrip (l : list ascii) : strip (l2s (lstrip_l l)) = strip (l2s l).
Proof. unfold strip. by rewrite !s2l_l2s, lstrip_l_idemp. Qed.

Lemma strip_l2s_rstrip (l : list ascii) :
  strip (l2s (rev (lstrip_l (rev l)))) = strip (l2s l).
Proof.
  unfold strip. rewrite !s2l_l2s.
  by rewrite (lstrip_rstrip l), rstrip_l_idemp.
Qed.

Lemma s2l_strip_app (a b : string) (c : ascii) :
  isspace_c c = false →
  s2l (strip (a +:+ String c b))
  = lstrip_l (s2l a) ++ c :: rev (lstrip_l (rev (s2l b))).
Proof.
  intros Hc. rewrite s2l_strip, s2l_app.
  change (s2l (String c b)) with (c :: s2l b).
  rewrite lstrip_l_app by done. by apply rstrip_l_app.
Qed.

Lemma strip_elem (x : ascii) (s : string) : x ∈ s2l (strip s) → x ∈ s2l s.
Proof. rewrite s2l_strip. intros H. by apply lstrip_l_elem, rstrip_l_elem. Qed.

End Splitting.

(** ** Field parser: base types, the descriptor, the text format *)

Section Parser.
Import Py FieldParser.

Lemma prefix_snoc (p l : list ascii) (x : ascii) :
  x ∉ p → p `prefix_of` l ++ [x] ↔ p `prefix_of` l.
Proof.
  intros Hx. split; [|by apply prefix_app_r].
  revert l. induction p as [|a p IH]; intros l H; [apply prefix_nil|].
  apply not_elem_of_cons in Hx as [Hxa Hxp].
  destruct l as [|b l].
  - destruct H as [k Hk]. simpl in Hk. injection Hk as Hk _. done.
  - simpl in H. pose proof (prefix_cons_inv_1 _ _ _ _ H) as ->.
    apply prefix_cons, IH; [done|]. by eapply prefix_cons_inv_2.
Qed.

Lemma bracket_not_in_wrappers :
  ("]"%char ∉ s2l "List[") ∧ ("]"%char ∉ s2l "Optional[").
Proof.
  split; intros H; apply list_elem_of_In in H; simpl in H; intuition discriminate.
Qed.

(** A closing bracket at the end goes away and completes no wrapper. *)
Lemma strip_wrappers_snoc (k : nat) (l : list ascii) :
  strip_wrappers_go k (l ++ ["]"%char]) = strip_wrappers_go k l.
Proof.
  revert k. induction l as [|c r IH]; intros k.
  - by destruct k.
  - destruct k as [|k]; cbn [app strip_wrappers_go]; [|apply IH].
    assert (H1 : bool_decide (s2l "List[" `prefix_of` c :: r ++ ["]"%char])
                 = bool_decide (s2l "List[" `prefix_of` c :: r)).
    { apply bool_decide_ext, (prefix_snoc _ (c :: r)), bracket_not_in_wrappers. }
    assert (H2 : bool_decide (s2l "Optional[" `prefix_of` c :: r ++ ["]"%char])
                 = bool_decide (s2l "Optional[" `prefix_of` c :: r)).
    { apply bool_decide_ext, (prefix_snoc _ (c :: r)), bracket_not_in_wrappers. }
    by rewrite H1, H2, !IH.
Qed.

Lemma strip_wrappers_List (l : list ascii) :
  strip_wrappers_go 0 (s2l "List[" ++ l) = strip_wrappers_go 0 l.
Proof.
  change (s2l "List[" ++ l) with ("L" :: ("i" :: "s" :: "t" :: "[" :: l))%char.
  cbn [strip_wrappers_go].
  rewrite bool_decide_eq_true_2; [done|]. by exists l.
Qed.

Lemma strip_wrappers_Optional (l : list ascii) :
  strip_wrappers_go 0 (s2l "Optional[" ++ l) = strip_wrappers_go 0 l.
Proof.
  change (s2l "Optional[" ++ l)
    with ("O" :: ("p" :: "t" :: "i" :: "o" :: "n" :: "a" :: "l" :: "[" :: l))%char.
  cbn [strip_wrappers_go].
  rewrite bool_decide_eq_false_2.
  - rewrite bool_decide_eq_true_2; [done|]. by exists l.
  - intros [k Hk]. discriminate.
Qed.

(** Text without brackets holds no wrapper. *)
Lemma strip_wrappers_plain (l : list ascii) :
  "["%char ∉ l → "]"%char ∉ l → strip_wrappers_go 0 l = l.
Proof.
  induction l as [|c r IH]; intros Ho Hc; [done|].
  cbn [strip_wrappers_go].
  rewrite !bool_decide_eq_false_2.
  - apply not_elem_of_cons in Ho as [_ Ho], Hc as [_ Hc]. by rewrite IH.
  - by apply not_elem_of_cons in Hc as [Hc _].
  - intros [k Hk]. apply Ho. rewrite Hk. apply list_elem_of_In. simpl. tauto.
  - intros [k Hk]. apply Ho. rewrite Hk. apply list_elem_of_In. simpl. tauto.
Qed.

(** In text without capitals only the closing brackets go away. *)
Lemma strip_wrappers_lower_elem (x : ascii) (l : list ascii) :
  Forall (λ c, isupper_c c = false) l → x ≠ "]"%char → x ∈ l →
  x ∈ strip_wrappers_go 0 l.
Proof.
  intros Hall Hx. induction Hall as [|c r Hc _ IH]; [done|]. intros Hin.
  cbn [strip_wrappers_go].
  rewrite (bool_decide_eq_false_2 (s2l "List[" `prefix_of` c :: r)),
    (bool_decide_eq_false_2 (s2l "Optional[" `prefix_of` c :: r)).
  - apply elem_of_cons in Hin as [->|Hin].
    + rewrite bool_decide_eq_false_2 by done. by left.
    + case_bool_decide; [by apply IH|]. right. by apply IH.
  - intros [k Hk]. injection Hk as -> _. discriminate.
  - intros [k Hk]. injection Hk as -> _. discriminate.
Qed.

Lemma lower_chars (s : string) : s2l (lower s) = map lower_c (s2l s).
Proof. unfold lower. apply s2l_l2s. Qed.

Lemma lower_chars_no_capital (s : string) :
  Forall (λ c, isupper_c c = false) (s2l (lower s)).
Proof.
  rewrite lower_chars. apply Forall_forall. intros c Hc.
  apply list_elem_of_In, in_map_iff in Hc as (c0 & <- & _). apply isupper_lower_c.
Qed.

Lemma lower_chars_fixed (s : string) :
  Forall (λ c, lower_c c = c) (s2l (lower s)).
Proof.
  rewrite lower_chars. apply Forall_forall. intros c Hc.
  apply list_elem_of_In, in_map_iff in Hc as (c0 & <- & _). apply lower_c_idemp.
Qed.

Lemma lower_fixed (l : list ascii) :
  Forall (λ c, lower_c c = c) l → lower (l2s l) = l2s l.
Proof.
  intros H. unfold lower. rewrite s2l_l2s. f_equal.
  induction H as [|c r Hc _ IH]; [done|]. simpl. by rewrite Hc, IH.
Qed.

Lemma lower_idemp (s : string) : lower (lower s) = lower s.
Proof.
  unfold lower. rewrite s2l_l2s, map_map. f_equal.
  apply map_ext, lower_c_idemp.
Qed.

Lemma lower_bracket (x : ascii) (s : string) :
  x = "["%char ∨ x = "]"%char → x ∈ s2l s ↔ x ∈ s2l (lower s).
Proof.
  intros Hx. rewrite lower_chars, !list_elem_of_In, in_map_iff. split.
  - intros H. exists x. split; [|done]. by destruct Hx as [-> | ->].
  - intros (c & Hc & Hin).
    assert (c = x) as <-; [|done].
    destruct Hx as [-> | ->];
      by destruct c as [[] [] [] [] [] [] [] []].
Qed.

(** No key of the type table holds a bracket. *)
Lemma type_mappings_bracket (k : string) :
  "["%char ∈ s2l k → (list_to_map TYPE_MAPPINGS : gmap string FieldType) !! k = None.
Proof.
  intros H. apply not_elem_of_list_to_map_1. intros Hin.
  apply list_elem_of_In in Hin. apply list_elem_of_In in H.
  simpl in Hin.
  repeat (destruct Hin as [<-|Hin]; [simpl in H; intuition discriminate|]).
  done.
Qed.

Lemma get_base_type_plain (t : string) :
  "["%char ∉ s2l t → "]"%char ∉ s2l t →
  _get_base_type t = (list_to_map TYPE_MAPPINGS : gmap string FieldType) !! lower t.
Proof.
  intros Ho Hc. unfold _get_base_type.
  by rewrite strip_wrappers_plain, l2s_s2l.
Qed.

Lemma get_base_type_lower_bracket (t : string) :
  "["%char ∈ s2l (lower t) → _get_base_type (lower t) = None.
Proof.
  intros H. unfold _get_base_type. apply type_mappings_bracket.
  apply (proj1 (lower_bracket _ _ (or_introl eq_refl))). rewrite s2l_l2s.
  apply strip_wrappers_lower_elem; [apply lower_chars_no_capital|done|done].
Qed.

(** ** The relationship found in a lower-cased type *)

Lemma first_isupper_lower (s : string) :
  first_isupper (lower s) = None ∨ first_isupper (lower s) = Some false.
Proof.
  unfold first_isupper. rewrite lower_chars.
  destruct (s2l s) as [|c r]; [by left|]. right. simpl.
  by rewrite isupper_lower_c.
Qed.

Lemma span_fst_Forall (P : ascii → Prop) (p : ascii → bool) (l : list ascii) :
  Forall P l → Forall P (span p l).1.
Proof.
  induction 1 as [|c r Hc _ IH]; [by constructor|]. simpl.
  destruct (p c); [|by constructor].
  destruct (span p r) as [a b]. simpl in *. by constructor.
Qed.

Lemma match_wrapped_startswith (kw s m : string) :
  match_wrapped kw s = Some m → startswith (lower s) kw = true.
Proof.
  unfold match_wrapped, startswith. case_bool_decide as Hk; [|done]. intros _.
  apply bool_decide_eq_true. rewrite lower_chars, <- Hk.
  exists (map lower_c (drop (length (s2l kw)) (s2l s))).
  by rewrite <- map_app, take_drop.
Qed.

Lemma match_wrapped_lower (kw s m : string) :
  match_wrapped kw (lower s) = Some m → lower m = m.
Proof.
  unfold match_wrapped. case_bool_decide as Hk; [|done].
  pose proof (lower_chars_fixed s) as Hall.
  apply (Forall_drop _ (length (s2l kw))) in Hall.
  destruct (drop _ _) as [|c r]; [done|].
  apply Forall_cons in Hall as [Hc Hr].
  destruct (ident_start c); [|done].
  pose proof (span_fst_Forall _ ident_char _ Hr) as Hb.
  destruct (span ident_char r) as [body rest]. simpl in Hb.
  destruct rest as [|d rest]; [done|]. case_bool_decide; [|done].
  intros [= <-]. apply (lower_fixed (c :: body)). by constructor.
Qed.

Lemma detect_relationship_nonempty (field_name field_type : string) :
  field_type ≠ "" → is_Some (_detect_relationship field_name field_type).
Proof.
  intros H. unfold _detect_relationship, first_isupper.
  destruct (_ && _); [by eauto|].
  destruct (s2l field_type) as [|c r] eqn:E.
  - exfalso. apply H. by rewrite <- (l2s_s2l field_type), E.
  - destruct (_ && _); [by eauto|].
    destruct (match_wrapped "list[" _); [by eauto|].
    destruct (match_wrapped "optional[" _); by eauto.
Qed.

Lemma detect_relationship_empty (field_name : string) :
  _detect_relationship field_name "" = None.
Proof.
  unfold _detect_relationship.
  rewrite (bool_decide_eq_false_2 ("" ∈ _)), andb_false_r; [done|].
  intros H. apply list_elem_of_In in H. simpl in H. intuition discriminate.
Qed.

End Parser.

Section ParserDescriptor.
Import Py FieldParser.
Context {rendered : Type}.
Variable python_type sql_type : string → option rendered.
Variable field_definition schema_definition :
  string → string → option string → option rendered.

Lemma create_field_info_blank (field_name field_type : string)
    (default_value : option string) :
  strip field_type = "" →
  _create_field_info python_type sql_type field_definition schema_definition
    field_name field_type default_value = None.
Proof.
  intros H. unfold _create_field_info. rewrite H.
  change (lower "") with "". by rewrite detect_relationship_empty.
Qed.

(** What [parse_field] hands to [_create_field_info]. *)
Lemma parse_field_untyped (definition : string) :
  ":"%char ∉ s2l definition →
  parse_field python_type sql_type field_definition schema_definition definition
  = _create_field_info python_type sql_type field_definition schema_definition
      (strip definition) "str" None.
Proof.
  intros H. unfold parse_field, split_first.
  rewrite split_first_l_None; [done|]. intros Hin. by apply H, strip_elem.
Qed.

Lemma parse_field_typed (name type : string) :
  ":"%char ∉ s2l name → "="%char ∉ s2l type →
  parse_field python_type sql_type field_definition schema_definition
    (typed name type)
  = _create_field_info python_type sql_type field_definition schema_definition
      (strip name) (strip type) None.
Proof.
  intros Hn Ht. change (typed name type) with (name +:+ String ":" type).
  unfold parse_field, split_first.
  rewrite (s2l_strip_app name type ":") by done.
  rewrite split_first_l_app by (intros Hin; by apply Hn, lstrip_l_elem).
  rewrite s2l_l2s, split_first_l_None by (intros Hin; by apply Ht, rstrip_l_elem).
  by rewrite strip_l2s_lstrip, strip_l2s_rstrip, !l2s_s2l.
Qed.

Lemma parse_field_typed_with_default (name type default : string) :
  ":"%char ∉ s2l name → "="%char ∉ s2l type →
  parse_field python_type sql_type field_definition schema_definition
    (typed_with_default name type default)
  = _create_field_info python_type sql_type field_definition schema_definition
      (strip name) (strip type) (Some (strip default)).
Proof.
  intros Hn Ht.
  change (typed_with_default name type default)
    with (name +:+ String ":" (type +:+ String "=" default)).
  unfold parse_field, split_first.
  rewrite (s2l_strip_app name (type +:+ String "=" default) ":") by done.
  rewrite split_first_l_app by (intros Hin; by apply Hn, lstrip_l_elem).
  rewrite s2l_l2s, s2l_app.
  change (s2l (String "=" default)) with ("="%char :: s2l default).
  rewrite (rstrip_l_app (s2l type) (s2l default) "=") by done.
  rewrite split_first_l_app by done.
  by rewrite strip_l2s_lstrip, strip_l2s_rstrip, !l2s_s2l.
Qed.

End ParserDescriptor.

(** X20: in the dict [_create_field_info] returns, the name and the
    default are the ones given and the type is the given one, stripped and
    lower-cased; [is_relationship] is set exactly when a relationship is
    recorded.  A recorded relationship is a foreign key, one-to-many or
    many-to-one, never a model reference: a foreign key only for a name
    ending in [_id] with type [int] or [integer], one-to-many only with
    [is_list], many-to-one only with [is_optional]; outside foreign keys
    the related model is named in lower case.  A type with an opening
    bracket is its own [base_type]. *)
Theorem X20_create_field_info_entries {rendered : Type}
    (python_type sql_type : string → option rendered)
    (field_definition schema_definition :
       string → string → option string → option rendered)
    (field_name field_type : string) (default_value : option string)
    (info : FieldParser.field_info) :
  FieldParser._create_field_info python_type sql_type field_definition
    schema_definition field_name field_type default_value = Some info →
  FieldParser.fi_name info = field_name
  ∧ FieldParser.fi_default_value info = default_value
  ∧ FieldParser.fi_original_type info = Py.lower (Py.strip field_type)
  ∧ (FieldParser.fi_is_relationship info = true
     ↔ is_Some (FieldParser.fi_relationship info))
  ∧ (∀ r, FieldParser.fi_relationship info = Some r →
          FieldParser.r_type r ∈ ["ForeignKey"; "OneToMany"; "ManyToOne"]
          ∧ (FieldParser.r_type r = "ForeignKey" →
             Py.endswith field_name "_id" = true
             ∧ FieldParser.fi_original_type info ∈ ["int"; "integer"])
          ∧ (FieldParser.r_type r = "OneToMany" → FieldParser.fi_is_list info = true)
          ∧ (FieldParser.r_type r = "ManyToOne" →
             FieldParser.fi_is_optional info = true)
          ∧ (FieldParser.r_type r ≠ "ForeignKey" →
             Py.lower (FieldParser.r_related_model r) = FieldParser.r_related_model r))
  ∧ ("["%char ∈ Py.s2l (FieldParser.fi_original_type info) →
     FieldParser.fi_base_type info = FieldParser.fi_original_type info).
Proof.
  unfold FieldParser._create_field_info. intros H.
  set (ty := Py.lower (Py.strip field_type)) in *.
  destruct (FieldParser._detect_relationship field_name ty) as [rel|] eqn:Hd;
    [|done].
  cbn [mbind option_bind] in H.
  destruct (python_type ty) as [pt|]; [|done].
  destruct (sql_type ty) as [st|]; [|done].
  destruct (field_definition field_name ty default_value) as [fd|]; [|done].
  destruct (schema_definition field_name ty default_value) as [sd|]; [|done].
  cbn [mbind option_bind] in H. injection H as <-.
  cbn [FieldParser.fi_name FieldParser.fi_default_value
       FieldParser.fi_original_type FieldParser.fi_is_relationship
       FieldParser.fi_relationship FieldParser.fi_is_list
       FieldParser.fi_is_optional FieldParser.fi_base_type].
  split_and!; try done.
  - apply bool_decide_eq_true.
  - intros r ->. unfold FieldParser._detect_relationship in Hd.
    destruct (_ && _) eqn:E.
    + injection Hd as <-. apply andb_true_iff in E as [E1 E2].
      apply bool_decide_eq_true in E2.
      cbn [FieldParser.r_type FieldParser.r_related_model].
      split_and!; try done. apply list_elem_of_In. simpl. tauto.
    + destruct (first_isupper_lower (Py.strip field_type)) as [Hu|Hu];
        fold ty in Hu; rewrite Hu in Hd; [done|].
      cbn [andb] in Hd.
      destruct (FieldParser.match_wrapped "list[" ty) as [m|] eqn:Hl.
      * injection Hd as <-.
        cbn [FieldParser.r_type FieldParser.r_related_model].
        split_and!; try done.
        -- apply list_elem_of_In. simpl. tauto.
        -- intros _. unfold FieldParser._is_list_type.
           by eapply match_wrapped_startswith.
        -- intros _. by eapply match_wrapped_lower.
      * destruct (FieldParser.match_wrapped "optional[" ty) as [m|] eqn:Ho; [|done].
        injection Hd as <-.
        cbn [FieldParser.r_type FieldParser.r_related_model].
        split_and!; try done.
        -- apply list_elem_of_In. simpl. tauto.
        -- intros _. unfold FieldParser._is_optional_type.
           by eapply match_wrapped_startswith.
        -- intros _. by eapply match_wrapped_lower.
  - intros Hb. subst ty. by rewrite get_base_type_lower_bracket.
Qed.

Lemma X20_create_field_info_entries_witness :
  ∃ info,
    FieldParser._create_field_info echo_type echo_type echo_definition
      echo_definition "tags" " List[Post] " None = Some info
    ∧ FieldParser.fi_original_type info = "list[post]"
    ∧ FieldParser.fi_base_type info = "list[post]"
    ∧ FieldParser.fi_is_relationship info = true.
Proof.
  destruct (FieldParser._create_field_info echo_type echo_type echo_definition
              echo_definition "tags" " List[Post] " None) as [info|] eqn:H;
    [|vm_compute in H; discriminate].
  exists info. split; [done|].
  destruct (X20_create_field_info_entries _ _ _ _ _ _ _ _ H)
    as (_ & _ & Ht & Hr & _ & Hb).
  split_and!.
  - rewrite Ht. by vm_compute.
  - rewrite Hb, Ht; [by vm_compute|].
    rewrite Ht. apply list_elem_of_In. vm_compute. tauto.
  - vm_compute in H. by injection H as <-.
Defined.

(** X21: [_create_field_info] raises when the type is blank, whatever the
    name and the default; on any other type it returns as soon as the
    four rendering methods do.  So a field definition that stops after
    the colon cannot be parsed. *)
Theorem X21_parser_blank_type {rendered : Type}
    (python_type sql_type : string → option rendered)
    (field_definition schema_definition :
       string → string → option string → option rendered)
    (field_name field_type : string) (default_value : option string) :
  (Py.strip field_type = "" →
   FieldParser._create_field_info python_type sql_type field_definition
     schema_definition field_name field_type default_value = None)
  ∧ (Py.strip field_type ≠ "" →
     is_Some (python_type (Py.lower (Py.strip field_type))) →
     is_Some (sql_type (Py.lower (Py.strip field_type))) →
     is_Some (field_definition field_name (Py.lower (Py.strip field_type))
                default_value) →
     is_Some (schema_definition field_name (Py.lower (Py.strip field_type))
                default_value) →
     is_Some (FieldParser._create_field_info python_type sql_type field_definition
                schema_definition field_name field_type default_value))
  ∧ (":"%char ∉ Py.s2l field_name →
     FieldParser.parse_field python_type sql_type field_definition
       schema_definition (typed field_name "") = None).
Proof.
  split_and!.
  - apply create_field_info_blank.
  - intros Hne [pt Hpt] [st Hst] [fd Hfd] [sd Hsd].
    unfold FieldParser._create_field_info.
    destruct (detect_relationship_nonempty field_name
                (Py.lower (Py.strip field_type))) as [rel ->].
    + intros Hl. apply Hne. rewrite <- (l2s_s2l (Py.strip field_type)).
      apply (f_equal Py.s2l) in Hl. rewrite lower_chars in Hl.
      by destruct (Py.s2l (Py.strip field_type)).
    + cbn [mbind option_bind]. rewrite Hpt, Hst. cbn [mbind option_bind].
      rewrite Hfd, Hsd. cbn [mbind option_bind]. by eauto.
  - intros Hn. rewrite parse_field_typed; [|done|].
    + by apply create_field_info_blank.
    + intros H. by apply elem_of_nil in H.
Qed.

(** X22: the base type of a type wrapped in "List[" or "Optional[" and a
    closing bracket is the base type of what is wrapped, to any depth; a
    type that is a key of the type table in any letter case has the
    table's value; and since the wrappers are matched with their capital
    letter, a lower-cased type that holds an opening bracket has no base
    type. *)
Theorem X22_parser_base_type :
  (∀ t, FieldParser._get_base_type ("List[" +:+ t +:+ "]")
        = FieldParser._get_base_type t)
  ∧ (∀ t, FieldParser._get_base_type ("Optional[" +:+ t +:+ "]")
          = FieldParser._get_base_type t)
  ∧ (∀ t k v, (k, v) ∈ FieldParser.TYPE_MAPPINGS → Py.lower t = k →
              FieldParser._get_base_type t = Some v)
  ∧ (∀ t, "["%char ∈ Py.s2l t →
          FieldParser._get_base_type (Py.lower t) = None).
Proof.
  split_and!.
  - intros t. unfold FieldParser._get_base_type. rewrite !s2l_app.
    change (Py.s2l "]") with ["]"%char].
    by rewrite strip_wrappers_List, strip_wrappers_snoc.
  - intros t. unfold FieldParser._get_base_type. rewrite !s2l_app.
    change (Py.s2l "]") with ["]"%char].
    by rewrite strip_wrappers_Optional, strip_wrappers_snoc.
  - intros t k v Hin Hl. apply list_elem_of_In in Hin. simpl in Hin.
    assert (Hplain : ∀ x, x = "["%char ∨ x = "]"%char → x ∈ Py.s2l k → False).
    { intros x Hx Hk. apply list_elem_of_In in Hk.
      repeat (destruct Hin as [[= <- <-]|Hin];
              [simpl in Hk; destruct Hx as [-> | ->]; intuition discriminate|]).
      done. }
    rewrite get_base_type_plain.
    + rewrite Hl.
      repeat (destruct Hin as [[= <- <-]|Hin]; [by vm_compute|]). done.
    + intros Hb. apply (Hplain "["%char); [by left|]. rewrite <- Hl.
      by apply (proj1 (lower_bracket _ _ (or_introl eq_refl))).
    + intros Hb. apply (Hplain "]"%char); [by right|]. rewrite <- Hl.
      by apply (proj1 (lower_bracket _ _ (or_intror eq_refl))).
  - intros t H. apply get_base_type_lower_bracket.
    by apply (proj1 (lower_bracket _ _ (or_introl eq_refl))).
Qed.

(** X23: [parse_field] reads "name:type=default": the name is what
    precedes the first colon, the type what lies between it and the first
    equals sign after it, the default everything that follows, further
    equals signs and colons included; each part is stripped of
    surrounding white space.  Without an equals sign there is no default,
    and a definition without colon is a name of type "str". *)
Theorem X23_parse_field_text_format {rendered : Type}
    (python_type sql_type : string → option rendered)
    (field_definition schema_definition :
       string → string → option string → option rendered)
    (name type default : string) :
  ":"%char ∉ Py.s2l name → "="%char ∉ Py.s2l type →
  FieldParser.parse_field python_type sql_type field_definition schema_definition
    (typed_with_default name type default)
  = FieldParser._create_field_info python_type sql_type field_definition
      schema_definition (Py.strip name) (Py.strip type) (Some (Py.strip default))
  ∧ FieldParser.parse_field python_type sql_type field_definition
      schema_definition (typed name type)
    = FieldParser._create_field_info python_type sql_type field_definition
        schema_definition (Py.strip name) (Py.strip type) None
  ∧ FieldParser.parse_field python_type sql_type field_definition
      schema_definition name
    = FieldParser._create_field_info python_type sql_type field_definition
        schema_definition (Py.strip name) "str" None.
Proof.
  intros Hn Ht. split_and!.
  - by apply parse_field_typed_with_default.
  - by apply parse_field_typed.
  - by apply parse_field_untyped.
Qed.

Lemma X23_parse_field_text_format_witness :
  FieldParser.parse_field echo_type echo_type echo_definition echo_definition
    " author_id : Integer = a=b:c "
  = FieldParser._create_field_info echo_type echo_type echo_definition
      echo_definition "author_id" "Integer" (Some "a=b:c").
Proof.
  assert (Hn : ":"%char ∉ Py.s2l " author_id ").
  { intros H. apply list_elem_of_In in H. simpl in H. intuition discriminate. }
  assert (Ht : "="%char ∉ Py.s2l " Integer ").
  { intros H. apply list_elem_of_In in H. simpl in H. intuition discriminate. }
  exact (proj1 (X23_parse_field_text_format echo_type echo_type echo_definition
                  echo_definition " author_id " " Integer " " a=b:c " Hn Ht)).
Defined.

(** ** Command line: the field list of the [model] command *)

Section FieldList.
Import Py Cli.

Lemma field_entry_typed (name type : string) :
  ":"%char ∉ s2l name → field_entry (typed name type) = Some (strip name, strip type).
Proof.
  intros Hn. change (typed name type) with (name +:+ String ":" type).
  unfold field_entry, split_first.
  rewrite (s2l_strip_app name type ":") by done.
  rewrite split_first_l_app by (intros Hin; by apply Hn, lstrip_l_elem).
  by rewrite strip_l2s_lstrip, strip_l2s_rstrip, !l2s_s2l.
Qed.

Lemma field_entry_untyped (entry : string) :
  ":"%char ∉ s2l entry → field_entry entry = None.
Proof.
  intros H. unfold field_entry, split_first.
  rewrite split_first_l_None; [done|]. intros Hin. by apply H, strip_elem.
Qed.

Lemma field_list_joined (entries : list string) :
  Forall (λ e, ","%char ∉ s2l e) entries →
  field_list (Some (comma_joined entries)) = omap field_entry entries.
Proof.
  intros Hall. unfold field_list. case_bool_decide as He.
  - apply (f_equal s2l) in He. unfold comma_joined in He. rewrite s2l_l2s in He.
    destruct entries as [|a [|b rest]]; [done| |].
    + simpl in He. rewrite <- (l2s_s2l a), He. done.
    + simpl in He. by destruct (s2l a).
  - unfold split, comma_joined. rewrite s2l_l2s, split_l_joined.
    + rewrite map_map. f_equal. rewrite <- (map_id entries) at 2.
      apply map_ext. intros e. apply l2s_s2l.
    + intros Hnil. apply He. by destruct entries.
    + apply Forall_forall. intros l Hl.
      apply list_elem_of_In, in_map_iff in Hl as (e & <- & He').
      rewrite Forall_forall in Hall. by apply Hall, list_elem_of_In.
Qed.

End FieldList.

(** X25: the [model] command reads its field list from entries joined by
    commas: an entry "name:type" gives the stripped name and the stripped
    type, split at the first colon; an entry without colon is dropped; and
    the empty text, like a missing option, gives no field. *)
Theorem X25_cli_field_list :
  (∀ entries, Forall (λ e, ","%char ∉ Py.s2l e) entries →
              Cli.field_list (Some (comma_joined entries))
              = omap Cli.field_entry entries)
  ∧ (∀ name type, ":"%char ∉ Py.s2l name →
                  Cli.field_entry (typed name type)
                  = Some (Py.strip name, Py.strip type))
  ∧ (∀ entry, ":"%char ∉ Py.s2l entry → Cli.field_entry entry = None)
  ∧ Cli.field_list None = [] ∧ Cli.field_list (Some "") = [].
Proof.
  split_and!; try done.
  - apply field_list_joined.
  - apply field_entry_typed.
  - apply field_entry_untyped.
Qed.

(** ** Field introspector: the form configuration of a class *)

Section FormConfig.
Import Py Schemas Typing FieldService.

(** [_create_validation_rules] never sets a minimal length, a pattern or
    a list of allowed values. *)
Lemma create_validation_rules_unset (field_info : FieldInfo) (field_type : pytype) :
  min_length (_create_validation_rules field_info field_type) = None
  ∧ pattern (_create_validation_rules field_info field_type) = None
  ∧ allowed_values (_create_validation_rules field_info field_type) = None.
Proof.
  unfold _create_validation_rules.
  destruct (fi_field_info field_info) as [[d ml ge le]|]; [|done].
  by destruct ml, ge, le.
Qed.

(** A descriptor as [_parse_field] builds them. *)
Lemma parse_field_validation (field_name : string) (field_type : pytype)
    (field_info : FieldInfo) (f : ModelField) :
  _parse_field field_name field_type field_info = Some f → unconstrained_text f.
Proof.
  unfold _parse_field, unconstrained_text. intros H.
  destruct (_detect_relationship field_name field_type) as [r|]; [|done].
  simpl in H. injection H as <-. cbn [validation].
  eexists. split; [done|].
  destruct (create_validation_rules_unset field_info field_type) as (? & ? & _).
  done.
Qed.

Lemma collect_fields_Forall (P : ModelField → Prop) hints items fields0 rels0
    fields rels :
  (∀ n t fi f, _parse_field n t fi = Some f → P f) →
  Forall P fields0 →
  collect_fields hints items fields0 rels0 = Some (fields, rels) →
  Forall P fields.
Proof.
  intros HP. revert fields0 rels0.
  induction items as [|[n fi] items IH]; intros fields0 rels0 H0 H.
  - simpl in H. by injection H as <- <-.
  - cbn [collect_fields] in H. destruct (is_internal n); [by eapply IH|].
    destruct (_parse_field n (default str_ (hints !! n)) fi) as [f|] eqn:Hp;
      [|done].
    cbn [mbind option_bind] in H. eapply IH; [|exact H].
    apply Forall_app. split; [done|]. constructor; [by eapply HP|constructor].
Qed.

Lemma field_config_minLength (f : ModelField) :
  unconstrained_text f → field_config_of f !! "minLength" = None.
Proof.
  intros (v & Hv & Hmin & _). unfold field_config_of. rewrite Hv, Hmin.
  assert (Hbase : ∀ d : gmap string pyval,
    d !! "minLength" = None →
    match is_relationship f, relationship f with
    | true, Some r =>
        match rel_type r with
        | FOREIGN_KEY =>
            <["options" := VStr (options_url r)]> (<["type" := VStr "select"]> d)
        | ONE_TO_MANY =>
            <["options" := VStr (options_url r)]> (<["type" := VStr "multiselect"]> d)
        | _ => d
        end
    | _, _ => d
    end !! "minLength" = None).
  { intros d Hd. destruct (is_relationship f), (relationship f) as [r|]; try done.
    destruct (rel_type r); try done; by repeat (rewrite lookup_insert_ne by done). }
  apply Hbase.
  rewrite !lookup_put_if_not_None_ne, lookup_put_if_truthy_ne by done.
  cbn [put_if_truthy]. by repeat (rewrite lookup_insert_ne by done).
Qed.

Lemma form_layout_minLength (fs : list ModelField) (cfg : gmap string pyval) :
  Forall unconstrained_text fs → cfg ∈ _generate_form_layout fs →
  cfg !! "minLength" = None.
Proof.
  induction 1 as [|f fs Hf _ IH]; [by intros ?%elem_of_nil|].
  cbn [_generate_form_layout]. case_bool_decide; [done|].
  intros [->|Hin]%elem_of_cons; [by apply field_config_minLength | by apply IH].
Qed.

Lemma field_rules_unset (f : ModelField) :
  unconstrained_text f →
  field_rules_of f !! "minLength" = None ∧ field_rules_of f !! "pattern" = None.
Proof.
  intros (v & Hv & Hmin & Hpat). unfold field_rules_of. rewrite Hv, Hmin, Hpat.
  cbn [put_if_nonempty put_if_truthy].
  rewrite !lookup_put_if_not_None_ne, !lookup_put_if_truthy_ne by done.
  destruct (is_required f); by rewrite ?lookup_insert_ne.
Qed.

Lemma validation_rules_from_entries fs (rules : gmap string (gmap string pyval)) k r :
  validation_rules_from fs rules !! k = Some r →
  rules !! k = Some r
  ∨ ∃ f, f ∈ fs ∧ name f = k ∧ (name f ∉ form_skipped) ∧ r = field_rules_of f.
Proof.
  revert rules. induction fs as [|f fs IH]; intros rules H; [by left|].
  cbn [validation_rules_from] in H. case_bool_decide as Hn.
  - apply IH in H as [H|(g & Hg & Hrest)]; [by left|].
    right. exists g. split; [by right | done].
  - case_bool_decide as He.
    + apply IH in H as [H|(g & Hg & Hrest)]; [by left|].
      right. exists g. split; [by right | done].
    + apply IH in H as [H|(g & Hg & Hrest)].
      * destruct (decide (name f = k)) as [E|E].
        -- rewrite E, lookup_insert_eq in H. injection H as <-.
           right. exists f. split_and!; [by left | done | done | done].
        -- rewrite lookup_insert_ne in H by done. by left.
      * right. exists g. split; [by right | done].
Qed.

Lemma filter_map_name (p : string → bool) (fs : list ModelField) :
  map name (List.filter (λ f, p (name f)) fs) = List.filter p (map name fs).
Proof.
  induction fs as [|f fs IH]; [done|]. cbn [List.filter map].
  destruct (p (name f)); cbn [map]; by rewrite IH.
Qed.

End FormConfig.

(** X26: the form configuration of a class carries the class name; its
    layout has one entry per attribute of the class that is neither
    internal nor one of [id], [created_at], [updated_at], [is_deleted],
    in declaration order; its rule map has keys among these attributes
    only.  Since the introspector never records a minimal length or a
    pattern, no layout entry has a [minLength] and no rule object has a
    [minLength] or a [pattern]. *)
Theorem X26_form_config (cls : FieldService.ModelClass)
    (form : FieldService.DynamicFormConfig) :
  FieldService.get_dynamic_form_config cls = Some form →
  FieldService.form_model_name form = FieldService.cls_name cls
  ∧ (λ cfg : gmap string Py.pyval, cfg !! "name") <$> FieldService.layout form
    = (λ n, Some (Py.VStr n))
        <$> List.filter (λ n, negb (bool_decide (n ∈ FieldService.form_skipped)))
              (List.filter (λ n, negb (FieldService.is_internal n))
                 (map fst (FieldService.cls_fields cls)))
  ∧ (∀ cfg, cfg ∈ FieldService.layout form → cfg !! "minLength" = None)
  ∧ (∀ k rules, FieldService.validation_rules form !! k = Some rules →
        k ∈ map fst (FieldService.cls_fields cls)
        ∧ FieldService.is_internal k = false
        ∧ (k ∉ FieldService.form_skipped)
        ∧ rules !! "minLength" = None ∧ rules !! "pattern" = None).
Proof.
  unfold FieldService.get_dynamic_form_config, FieldService.get_model_definition.
  intros H.
  destruct (FieldService.collect_fields _ _ [] []) as [[fields rels]|] eqn:Hc;
    [|done].
  cbn [mbind option_bind FieldService.fields FieldService.model_name] in H.
  injection H as <-.
  cbn [FieldService.form_model_name FieldService.layout
       FieldService.validation_rules].
  assert (Hall : Forall unconstrained_text fields).
  { eapply (collect_fields_Forall unconstrained_text); [|constructor|exact Hc].
    intros n t fi f. apply parse_field_validation. }
  apply collect_fields_spec in Hc as (new & -> & _ & Hnames & _).
  cbn [app] in *.
  split_and!; [done| | |].
  - rewrite form_layout_names, <- Hnames.
    rewrite <- (filter_map_name
                  (λ n, negb (bool_decide (n ∈ FieldService.form_skipped)))).
    by rewrite <- list_fmap_compose.
  - intros cfg. by apply form_layout_minLength.
  - intros k rules Hk. unfold FieldService._generate_validation_rules in Hk.
    apply validation_rules_from_entries in Hk as [Hk|(f & Hf & <- & Hs & ->)];
      [done|].
    assert (Hin : FieldService.name f
                  ∈ List.filter (λ n, negb (FieldService.is_internal n))
                      (map fst (FieldService.cls_fields cls))).
    { rewrite <- Hnames. apply list_elem_of_In, in_map. by apply list_elem_of_In. }
    apply list_elem_of_In, filter_In in Hin as [Hin Hint].
    rewrite Forall_forall in Hall.
    destruct (field_rules_unset f (Hall f Hf)) as [? ?].
    split_and!; try done.
    + by apply list_elem_of_In.
    + by apply negb_true_iff.
Qed.

Lemma X26_form_config_witness :
  ∃ form,
    FieldService.get_dynamic_form_config example_entity = Some form
    ∧ (λ cfg : gmap string Py.pyval, cfg !! "name") <$> FieldService.layout form
      = [Some (Py.VStr "title"); Some (Py.VStr "author_id")].
Proof.
  destruct (FieldService.get_dynamic_form_config example_entity) as [form|] eqn:H;
    [|vm_compute in H; discriminate].
  exists form. split; [done|].
  destruct (X26_form_config example_entity form H) as (_ & Hnames & _).
  rewrite Hnames. by vm_compute.
Defined.
